(** * Meal-order system: order placement, ledger and reports

    Shallow embedding of the server handlers of the meal-order system
    (tRPC handlers over a Postgres database accessed through drizzle).

    - Tables are lists of rows in insertion order; a [serial] primary key
      is a per-table sequence held in the store.
    - Money columns are [numeric(10,2)]; they are modelled as integer
      cents (a [Z]).  The JS code parses them with [parseFloat] and
      multiplies by integer quantities; the model keeps that arithmetic
      exact.
    - Timestamps ([created_at], [updated_at], [order_date]) are not
      modelled; no claim here depends on them.
    - Each [await] on the database is one step of [step] below: the
      statement, then the synchronous code that follows it up to the
      next [await].  A step may be told that its statement fails (a lost
      connection, a rejected statement); the handler then throws. *)

From Stdlib Require Import String ZArith List Bool Lia.
From Stdlib Require Import Sorting.Sorted Sorting.Permutation.
Import ListNotations.
Open Scope string_scope.
Open Scope Z_scope.
Open Scope list_scope.

(** ** Schema (db/schema.ts) *)

Inductive UserRole := Regular | Admin.

Inductive OrderStatus := Pending | Confirmed | Delivered | Cancelled.

Record User := mkUser {
  u_id : Z;
  u_name : string;
  u_contact_number : string;
  u_department : string;
  u_role : UserRole
}.

Record Department := mkDepartment {
  d_id : Z;
  d_name : string
}.

Record MenuItem := mkMenuItem {
  mi_id : Z;
  mi_name : string;
  mi_price : Z;                    (* numeric(10,2), in cents *)
  mi_description : option string;
  mi_image_url : option string;
  mi_category : string;
  mi_stock_quantity : Z            (* integer, no CHECK constraint *)
}.

Record Order := mkOrder {
  o_id : Z;
  o_user_id : Z;
  o_status : OrderStatus;
  o_pickup_or_delivery_time : Z;
  o_remarks : option string;
  o_total_amount : Z               (* numeric(10,2), in cents *)
}.

Record OrderItem := mkOrderItem {
  oi_id : Z;
  oi_order_id : Z;
  oi_menu_item_id : Z;
  oi_quantity : Z;
  oi_price_at_order : Z            (* numeric(10,2), in cents *)
}.

Record Store := mkStore {
  users : list User;
  departments : list Department;
  menu_items : list MenuItem;
  orders : list Order;
  order_items : list OrderItem;
  orders_seq : Z;                  (* next value of orders.id *)
  order_items_seq : Z              (* next value of order_items.id *)
}.

(** A value fits a [numeric(10,2)] column: at most 8 integer digits. *)
Definition numeric_10_2_fits (cents : Z) : bool := Z.abs cents <? 10 ^ 10.

(** ** Row-level statements *)

Definition select_user (s : Store) (id : Z) : list User :=
  filter (fun u => u_id u =? id) (users s).

(** [select().from(menuItemsTable).where(inArray(menuItemsTable.id, ids))] *)
Definition select_menu_items_in (s : Store) (ids : list Z) : list MenuItem :=
  filter (fun m => existsb (Z.eqb (mi_id m)) ids) (menu_items s).

Definition insert_order (s : Store) (o : Order) : Store :=
  mkStore (users s) (departments s) (menu_items s) (orders s ++ [o])
    (order_items s) (orders_seq s + 1) (order_items_seq s).

Definition insert_order_item (s : Store) (oi : OrderItem) : Store :=
  mkStore (users s) (departments s) (menu_items s) (orders s)
    (order_items s ++ [oi]) (orders_seq s) (order_items_seq s + 1).

Definition with_stock (m : MenuItem) (q : Z) : MenuItem :=
  mkMenuItem (mi_id m) (mi_name m) (mi_price m) (mi_description m)
    (mi_image_url m) (mi_category m) q.

(** [update(menuItemsTable).set({stock_quantity: q}).where(eq(id, k))] *)
Definition set_stock (s : Store) (k : Z) (q : Z) : Store :=
  mkStore (users s) (departments s)
    (map (fun m => if mi_id m =? k then with_stock m q else m) (menu_items s))
    (orders s) (order_items s) (orders_seq s) (order_items_seq s).

(** ** The [createOrder] handler (handlers/create_order.ts) *)

Record OrderLine := mkOrderLine {
  ol_menu_item_id : Z;
  ol_quantity : Z
}.

Record CreateOrderInput := mkCreateOrderInput {
  ci_user_id : Z;
  ci_pickup_or_delivery_time : Z;
  ci_remarks : option string;
  ci_order_items : list OrderLine
}.

Record OrderWithItems := mkOrderWithItems {
  ow_order : Order;
  ow_user : User;
  ow_items : list (OrderItem * MenuItem)
}.

(** What the handlers throw. *)
Inductive Err :=
| UserNotFound                          (* 'User not found' *)
| MenuItemsNotFound                     (* 'One or more menu items not found' *)
| MenuItemNotFound (id : Z)             (* `Menu item with id ${id} not found` *)
| InsufficientStock (name : string) (available requested : Z)
| OrderNotFound (id : Z)                (* `Order with id ${id} not found` *)
| DbError                               (* a statement rejected or lost *)
| TypeErrorUndefined.                   (* property read on [undefined] *)

(** [new Map(items.map(i => [i.id, i])).get(k)]: a later entry with the
    same key overwrites an earlier one. *)
Definition map_get (l : list MenuItem) (k : Z) : option MenuItem :=
  fold_left (fun acc m => if mi_id m =? k then Some m else acc) l None.

(** The synchronous loop "Check stock availability and calculate total
    amount". *)
Fixpoint check_stock (mm : list MenuItem) (lines : list OrderLine) (total : Z)
  : Err + Z :=
  match lines with
  | [] => inr total
  | l :: rest =>
      match map_get mm (ol_menu_item_id l) with
      | None => inl (MenuItemNotFound (ol_menu_item_id l))
      | Some m =>
          if mi_stock_quantity m <? ol_quantity l
          then inl (InsufficientStock (mi_name m) (mi_stock_quantity m) (ol_quantity l))
          else check_stock mm rest (total + mi_price m * ol_quantity l)
      end
  end.

(** Where a running [createOrder] is suspended: the [await] it waits on. *)
Inductive Phase :=
| AwaitUser
| AwaitMenuItems (u : User)
| AwaitOrderInsert (u : User) (mm : list MenuItem) (total : Z)
| AwaitItemInsert (u : User) (mm : list MenuItem) (o : Order)
    (done : list OrderItem) (m : MenuItem) (l : OrderLine) (rest : list OrderLine)
| AwaitStockUpdate (u : User) (mm : list MenuItem) (o : Order)
    (done : list OrderItem) (m : MenuItem) (l : OrderLine) (rest : list OrderLine)
| AwaitRefetch (u : User) (o : Order) (done : list OrderItem)
| Returned (r : OrderWithItems)
| Threw (e : Err).

(** Head of the loop "Create order items and update stock quantities":
    [menuItemMap.get(id)!] is read synchronously before the insert. *)
Definition next_write (u : User) (mm : list MenuItem) (o : Order)
    (done : list OrderItem) (rest : list OrderLine) : Phase :=
  match rest with
  | [] => AwaitRefetch u o done
  | l :: rest' =>
      match map_get mm (ol_menu_item_id l) with
      | None => Threw TypeErrorUndefined
      | Some m => AwaitItemInsert u mm o done m l rest'
      end
  end.

(** The response: each inserted item with its re-read menu item. *)
Fixpoint hydrate (upd : list MenuItem) (done : list OrderItem)
  : option (list (OrderItem * MenuItem)) :=
  match done with
  | [] => Some []
  | oi :: rest =>
      match map_get upd (oi_menu_item_id oi), hydrate upd rest with
      | Some m, Some r => Some ((oi, m) :: r)
      | _, _ => None
      end
  end.

Definition line_ids (input : CreateOrderInput) : list Z :=
  map ol_menu_item_id (ci_order_items input).

(** One [await] of [createOrder] on [input]; [fault] says whether the
    statement awaited fails. *)
Definition step (fault : bool) (input : CreateOrderInput) (s : Store) (p : Phase)
  : Store * Phase :=
  match p with
  | Returned _ | Threw _ => (s, p)
  | _ =>
    if fault then (s, Threw DbError) else
    match p with
    | AwaitUser =>
        match select_user s (ci_user_id input) with
        | [] => (s, Threw UserNotFound)
        | u :: _ => (s, AwaitMenuItems u)
        end
    | AwaitMenuItems u =>
        let mis := select_menu_items_in s (line_ids input) in
        if negb (Nat.eqb (length mis) (length (line_ids input)))
        then (s, Threw MenuItemsNotFound)
        else match check_stock mis (ci_order_items input) 0 with
             | inl e => (s, Threw e)
             | inr total => (s, AwaitOrderInsert u mis total)
             end
    | AwaitOrderInsert u mm total =>
        (* total_amount: totalAmount.toString() into numeric(10,2);
           user_id references users(id); status takes its default *)
        if numeric_10_2_fits total && negb (Nat.eqb (length (select_user s (ci_user_id input))) 0)
        then
          let o := mkOrder (orders_seq s) (ci_user_id input) Pending
                     (ci_pickup_or_delivery_time input) (ci_remarks input) total in
          (insert_order s o, next_write u mm o [] (ci_order_items input))
        else (s, Threw DbError)
    | AwaitItemInsert u mm o done m l rest =>
        (* menu_item_id references menu_items(id) *)
        if existsb (fun m' => mi_id m' =? ol_menu_item_id l) (menu_items s) then
          let oi := mkOrderItem (order_items_seq s) (o_id o) (ol_menu_item_id l)
                      (ol_quantity l) (mi_price m) in
          (insert_order_item s oi, AwaitStockUpdate u mm o (done ++ [oi]) m l rest)
        else (s, Threw DbError)
    | AwaitStockUpdate u mm o done m l rest =>
        (set_stock s (ol_menu_item_id l) (mi_stock_quantity m - ol_quantity l),
         next_write u mm o done rest)
    | AwaitRefetch u o done =>
        match hydrate (select_menu_items_in s (line_ids input)) done with
        | Some its => (s, Returned (mkOrderWithItems o u its))
        | None => (s, Threw TypeErrorUndefined)
        end
    | Returned _ | Threw _ => (s, p)
    end
  end.

(** Running one call alone; [flt k] says whether its [k]-th statement
    fails. *)
Fixpoint run (flt : nat -> bool) (k : nat) (fuel : nat) (input : CreateOrderInput)
    (s : Store) (p : Phase) : Store * Phase :=
  match fuel with
  | O => (s, p)
  | S fuel' =>
      let (s', p') := step (flt k) input s p in
      run flt (S k) fuel' input s' p'
  end.

(** A call makes at most [4 + 2 * #lines] statements. *)
Definition createOrder (flt : nat -> bool) (s : Store) (input : CreateOrderInput)
  : Store * (Err + OrderWithItems) :=
  let (s', p) := run flt 0 (4 + 2 * length (ci_order_items input)) input s AwaitUser in
  (s',
   match p with
   | Returned r => inr r
   | Threw e => inl e
   | _ => inl DbError
   end).

Definition no_faults : nat -> bool := fun _ => false.

(** ** Concurrent calls of [createOrder]

    Calls of [createOrder] issued together share the store; the event
    loop resumes one suspended call at a time, at one of its [await]s.
    A schedule lists which call is resumed at each step.  The handler
    opens no transaction, so nothing else orders the statements. *)

Definition Thread : Type := (CreateOrderInput * Phase)%type.

Fixpoint list_set {A} (l : list A) (i : nat) (x : A) : list A :=
  match l, i with
  | [], _ => []
  | _ :: l', O => x :: l'
  | y :: l', S i' => y :: list_set l' i' x
  end.

Fixpoint run_sched (sched : list nat) (s : Store) (ts : list Thread)
  : Store * list Thread :=
  match sched with
  | [] => (s, ts)
  | i :: sched' =>
      match nth_error ts i with
      | Some (input, p) =>
          let (s', p') := step false input s p in
          run_sched sched' s' (list_set ts i (input, p'))
      | None => run_sched sched' s ts
      end
  end.

Definition spawn (inputs : list CreateOrderInput) : list Thread :=
  map (fun i => (i, AwaitUser)) inputs.

(** ** Other handlers that write to the store *)

Definition set_menu_items (s : Store) (l : list MenuItem) : Store :=
  mkStore (users s) (departments s) l (orders s) (order_items s)
    (orders_seq s) (order_items_seq s).

Definition set_departments (s : Store) (l : list Department) : Store :=
  mkStore (users s) l (menu_items s) (orders s) (order_items s)
    (orders_seq s) (order_items_seq s).

Record UpdateMenuItemInput := mkUpdateMenuItemInput {
  umi_id : Z;
  umi_name : option string;
  umi_price : option Z;
  umi_description : option (option string);
  umi_image_url : option (option string);
  umi_category : option string;
  umi_stock_quantity : option Z
}.

(** [if (input.f !== undefined) updateData.f = input.f] *)
Definition patch {A} (o : option A) (v : A) : A :=
  match o with Some x => x | None => v end.

Definition apply_menu_item_update (inp : UpdateMenuItemInput) (m : MenuItem) : MenuItem :=
  mkMenuItem (mi_id m)
    (patch (umi_name inp) (mi_name m))
    (patch (umi_price inp) (mi_price m))
    (patch (umi_description inp) (mi_description m))
    (patch (umi_image_url inp) (mi_image_url m))
    (patch (umi_category inp) (mi_category m))
    (patch (umi_stock_quantity inp) (mi_stock_quantity m)).

(** [stock_quantity] is an [integer] column: a value outside the 32-bit
    range is rejected by the database. *)
Definition int32_fits (n : Z) : bool := (- 2 ^ 31 <=? n) && (n <? 2 ^ 31).

(** [updateMenuItem] (the implementation in
    handlers/update_order_status.ts, lines 35-81).  The [updated_at]
    column it also sets is not modelled (the menu-item rows carry no
    timestamps here). *)
Definition updateMenuItem (s : Store) (inp : UpdateMenuItemInput)
  : Store * (Err + MenuItem) :=
  match filter (fun m => mi_id m =? umi_id inp) (menu_items s) with
  | [] => (s, inl (MenuItemNotFound (umi_id inp)))
  | _ =>
      if negb (numeric_10_2_fits (patch (umi_price inp) 0)
               && int32_fits (patch (umi_stock_quantity inp) 0))
      then (s, inl DbError)
      else
        let s' := set_menu_items s
                    (map (fun m => if mi_id m =? umi_id inp
                                   then apply_menu_item_update inp m else m)
                         (menu_items s)) in
        match filter (fun m => mi_id m =? umi_id inp) (menu_items s') with
        | m :: _ => (s', inr m)
        | [] => (s', inl TypeErrorUndefined)
        end
  end.

(** [deleteMenuItem] (handlers/delete_menu_item.ts).  order_items.menu_item_id
    references menu_items(id) with no ON DELETE action: the delete of a
    referenced row is rejected. *)
Definition deleteMenuItem (s : Store) (id : Z) : Store * (Err + bool) :=
  match filter (fun m => mi_id m =? id) (menu_items s) with
  | [] => (s, inl (MenuItemNotFound id))
  | _ =>
      if existsb (fun oi => oi_menu_item_id oi =? id) (order_items s)
      then (s, inl DbError)
      else (set_menu_items s (filter (fun m => negb (mi_id m =? id)) (menu_items s)),
            inr true)
  end.

Record UpdateOrderStatusInput := mkUpdateOrderStatusInput {
  uos_id : Z;
  uos_status : OrderStatus
}.

(** [updateOrderStatus] (handlers/update_order_status.ts, lines 1-17): it
    builds an order from its input, with [new Date()] for the time, and
    touches no table. *)
Definition updateOrderStatus (now : Z) (s : Store) (inp : UpdateOrderStatusInput)
  : Store * (Err + Order) :=
  (s, inr (mkOrder (uos_id inp) 1 (uos_status inp) now None 0)).

(** [deleteDepartment] (handlers/delete_department.ts, stored in
    handlers/login_user.ts, lines 35-52):
    [delete(departmentsTable).where(eq(id, id)).returning()], then
    [{ success: result.length > 0 }]. *)
Definition deleteDepartment (s : Store) (id : Z) : Store * bool :=
  let deleted := filter (fun d => d_id d =? id) (departments s) in
  (set_departments s (filter (fun d => negb (d_id d =? id)) (departments s)),
   Nat.ltb 0 (length deleted)).

(** A request to the server. *)
Inductive Op :=
| OpCreateOrder (flt : nat -> bool) (input : CreateOrderInput)
| OpUpdateMenuItem (input : UpdateMenuItemInput)
| OpDeleteMenuItem (id : Z)
| OpUpdateOrderStatus (now : Z) (input : UpdateOrderStatusInput)
| OpDeleteDepartment (id : Z).

Definition exec (s : Store) (op : Op) : Store :=
  match op with
  | OpCreateOrder flt input => fst (createOrder flt s input)
  | OpUpdateMenuItem input => fst (updateMenuItem s input)
  | OpDeleteMenuItem id => fst (deleteMenuItem s id)
  | OpUpdateOrderStatus now input => fst (updateOrderStatus now s input)
  | OpDeleteDepartment id => fst (deleteDepartment s id)
  end.

Definition exec_all (s : Store) (ops : list Op) : Store := fold_left exec ops s.

(** ** [getMenuItemReports] (handlers/get_menu_item_reports.ts) *)

Record MenuItemReport := mkMenuItemReport {
  r_menu_item_id : Z;
  r_menu_item_name : string;
  r_total_orders : Z;
  r_total_quantity : Z;
  r_total_amount : Z
}.

(** A row of [menu_items JOIN order_items JOIN orders]. *)
Record JoinRow := mkJoinRow {
  j_menu_item_id : Z;
  j_menu_item_name : string;
  j_order_id : Z;
  j_quantity : Z;
  j_price_at_order : Z
}.

Definition join_rows (s : Store) : list JoinRow :=
  flat_map (fun oi =>
    flat_map (fun m =>
      map (fun o => mkJoinRow (mi_id m) (mi_name m) (oi_order_id oi)
                      (oi_quantity oi) (oi_price_at_order oi))
          (filter (fun o => o_id o =? oi_order_id oi) (orders s)))
      (filter (fun m => mi_id m =? oi_menu_item_id oi) (menu_items s)))
    (order_items s).

Definition key_eqb (a b : Z * string) : bool :=
  (fst a =? fst b) && String.eqb (snd a) (snd b).

(** The groups of [groupBy(menuItemsTable.id, menuItemsTable.name)], in
    order of first appearance. *)
Fixpoint group_keys (rows : list JoinRow) (seen : list (Z * string)) : list (Z * string) :=
  match rows with
  | [] => rev seen
  | r :: rest =>
      let k := (j_menu_item_id r, j_menu_item_name r) in
      if existsb (key_eqb k) seen then group_keys rest seen
      else group_keys rest (k :: seen)
  end.

Definition sumZ (l : list Z) : Z := fold_right Z.add 0 l.

Definition aggregate (rows : list JoinRow) (k : Z * string) : MenuItemReport :=
  let g := filter (fun r => key_eqb (j_menu_item_id r, j_menu_item_name r) k) rows in
  mkMenuItemReport (fst k) (snd k)
    (Z.of_nat (length (nodup Z.eq_dec (map j_order_id g))))
    (sumZ (map j_quantity g))
    (sumZ (map (fun r => j_quantity r * j_price_at_order r) g)).

(** [orderBy(sum(quantity * price_at_order) desc)]. *)
Fixpoint insert_desc (r : MenuItemReport) (l : list MenuItemReport) : list MenuItemReport :=
  match l with
  | [] => [r]
  | x :: l' => if r_total_amount x <? r_total_amount r then r :: l
               else x :: insert_desc r l'
  end.

Fixpoint sort_desc (l : list MenuItemReport) : list MenuItemReport :=
  match l with
  | [] => []
  | x :: l' => insert_desc x (sort_desc l')
  end.

Definition getMenuItemReports (s : Store) : list MenuItemReport :=
  let rows := join_rows s in
  sort_desc (map (aggregate rows) (group_keys rows [])).

(** ** User and department handlers *)

(** [loginUser] (handlers/login_user.ts, lines 6-34):
    [select().from(usersTable).where(eq(contact_number, c)).limit(1)],
    then [null] on an empty result. *)
Definition loginUser (s : Store) (contact_number : string) : option User :=
  match filter (fun u => String.eqb (u_contact_number u) contact_number) (users s) with
  | [] => None
  | u :: _ => Some u
  end.

(** What the user and department handlers throw. *)
Inductive AdminErr :=
| UserIdNotFound (id : Z)               (* `User with id ${id} not found` *)
| DepartmentNotFound (id : Z)           (* `Department with id ${id} not found` *)
| UniqueViolation                       (* a unique constraint rejects the row *)
| StatementRejected.                    (* any other rejected statement *)

Record UpdateUserInput := mkUpdateUserInput {
  uu_id : Z;
  uu_name : option string;
  uu_contact_number : option string;
  uu_department : option string;
  uu_role : option UserRole
}.

Definition apply_user_update (inp : UpdateUserInput) (u : User) : User :=
  mkUser (u_id u)
    (patch (uu_name inp) (u_name u))
    (patch (uu_contact_number inp) (u_contact_number u))
    (patch (uu_department inp) (u_department u))
    (patch (uu_role inp) (u_role u)).

Definition user_update_empty (inp : UpdateUserInput) : bool :=
  match uu_name inp, uu_contact_number inp, uu_department inp, uu_role inp with
  | None, None, None, None => true
  | _, _, _, _ => false
  end.

(** [updateUser] (handlers/update_user.ts): one
    [update(usersTable).set(updateData).where(eq(id, input.id)).returning()].
    With no field given, [updateData] is empty and the statement is
    refused; users.contact_number is unique; an empty [returning] makes the
    handler throw. *)
Definition updateUser (s : Store) (inp : UpdateUserInput) : Store * (AdminErr + User) :=
  if user_update_empty inp then (s, inl StatementRejected) else
  match filter (fun u => u_id u =? uu_id inp) (users s) with
  | [] => (s, inl (UserIdNotFound (uu_id inp)))
  | _ =>
      let us' := map (fun u => if u_id u =? uu_id inp then apply_user_update inp u else u)
                   (users s) in
      if match uu_contact_number inp with
         | Some c => existsb (fun u => negb (u_id u =? uu_id inp)
                                      && String.eqb (u_contact_number u) c) (users s)
         | None => false
         end
      then (s, inl UniqueViolation)
      else
        let s' := mkStore us' (departments s) (menu_items s) (orders s) (order_items s)
                    (orders_seq s) (order_items_seq s) in
        match filter (fun u => u_id u =? uu_id inp) (users s') with
        | u :: _ => (s', inr u)
        | [] => (s', inl StatementRejected)      (* unreachable *)
        end
  end.

Record UpdateDepartmentInput := mkUpdateDepartmentInput {
  ud_id : Z;
  ud_name : option string
}.

(** [updateDepartment] (handlers/update_department.ts): a select by id
    (throwing when empty), the existing row when no field is given, else
    an update of the name; departments.name is unique. *)
Definition updateDepartment (s : Store) (inp : UpdateDepartmentInput)
  : Store * (AdminErr + Department) :=
  match filter (fun d => d_id d =? ud_id inp) (departments s) with
  | [] => (s, inl (DepartmentNotFound (ud_id inp)))
  | d0 :: _ =>
      match ud_name inp with
      | None => (s, inr d0)
      | Some n =>
          if existsb (fun d => negb (d_id d =? ud_id inp) && String.eqb (d_name d) n)
                     (departments s)
          then (s, inl UniqueViolation)
          else
            let s' := set_departments s
                        (map (fun d => if d_id d =? ud_id inp then mkDepartment (d_id d) n else d)
                             (departments s)) in
            match filter (fun d => d_id d =? ud_id inp) (departments s') with
            | d :: _ => (s', inr d)
            | [] => (s', inl StatementRejected)  (* unreachable *)
            end
      end
  end.

(** [createDepartment] (unnamed/part_005): [insert(departmentsTable)
    .values({name}).returning()]; [next_id] is the value the serial
    departments.id hands out. *)
Definition createDepartment (next_id : Z) (s : Store) (name : string)
  : Store * (AdminErr + Department) :=
  if existsb (fun d => String.eqb (d_name d) name) (departments s)
  then (s, inl UniqueViolation)
  else let d := mkDepartment next_id name in
       (set_departments s (departments s ++ [d]), inr d).

(** ** Client: the cart (App component, ShoppingCart, MenuBrowser)

    The cart is the React state [cartItems] of the App component; its
    setters below are the callbacks passed to [MenuBrowser] and
    [ShoppingCart] ([onAddToCart={addToCart}], [onUpdateItem={updateCartItem}],
    [onRemoveItem={removeFromCart}], [onClearCart={clearCart}]).  The
    client's [menuItems] is the list returned by [getMenuItems]. *)

Record CartItem := mkCartItem {
  c_menu_item_id : Z;
  c_quantity : Z
}.

(** [addToCart(menuItemId, quantity = 1)] *)
Definition addToCart (prev : list CartItem) (menuItemId : Z) (quantity : Z)
  : list CartItem :=
  match find (fun item => c_menu_item_id item =? menuItemId) prev with
  | Some _ =>
      map (fun item => if c_menu_item_id item =? menuItemId
                       then mkCartItem (c_menu_item_id item) (c_quantity item + quantity)
                       else item) prev
  | None => prev ++ [mkCartItem menuItemId quantity]
  end.

(** [updateCartItem(menuItemId, quantity)] *)
Definition updateCartItem (prev : list CartItem) (menuItemId quantity : Z)
  : list CartItem :=
  if quantity <=? 0
  then filter (fun item => negb (c_menu_item_id item =? menuItemId)) prev
  else map (fun item => if c_menu_item_id item =? menuItemId
                        then mkCartItem (c_menu_item_id item) quantity
                        else item) prev.

(** [removeFromCart(menuItemId)] *)
Definition removeFromCart (prev : list CartItem) (menuItemId : Z) : list CartItem :=
  filter (fun item => negb (c_menu_item_id item =? menuItemId)) prev.

(** [clearCart()] *)
Definition clearCart : list CartItem := [].

(** MenuBrowser: [getCartQuantity(menuItemId)] *)
Definition getCartQuantity (cartItems : list CartItem) (menuItemId : Z) : Z :=
  match find (fun item => c_menu_item_id item =? menuItemId) cartItems with
  | Some cartItem => c_quantity cartItem
  | None => 0
  end.

(** [menuItems.find(item => item.id === k)] *)
Definition find_menu_item (menuItems : list MenuItem) (k : Z) : option MenuItem :=
  find (fun item => mi_id item =? k) menuItems.

(** ShoppingCart: [cartWithDetails], the cart items whose menu item is
    found, each with it. *)
Definition cartWithDetails (menuItems : list MenuItem) (cartItems : list CartItem)
  : list (CartItem * option MenuItem) :=
  filter (fun item => match snd item with Some _ => true | None => false end)
    (map (fun cartItem => (cartItem, find_menu_item menuItems (c_menu_item_id cartItem)))
       cartItems).

(** ShoppingCart: [totals], as [(totalItems, totalAmount)]. *)
Definition totals (menuItems : list MenuItem) (cartItems : list CartItem) : Z * Z :=
  fold_left
    (fun acc item =>
       (fst acc + c_quantity (fst item),
        snd acc + match snd item with
                  | Some m => mi_price m
                  | None => 0   (* filtered out by [cartWithDetails] *)
                  end * c_quantity (fst item)))
    (cartWithDetails menuItems cartItems) (0, 0).

(** ShoppingCart: [handleQuantityChange(menuItemId, newQuantity)]. *)
Definition handleQuantityChange (menuItems : list MenuItem) (cartItems : list CartItem)
    (menuItemId newQuantity : Z) : list CartItem :=
  if newQuantity <? 1 then removeFromCart cartItems menuItemId
  else match find_menu_item menuItems menuItemId with
       | Some menuItem =>
           if newQuantity <=? mi_stock_quantity menuItem
           then updateCartItem cartItems menuItemId newQuantity
           else cartItems
       | None => cartItems
       end.

(** The quantity box: [parseInt(e.target.value) || 1]; [None] is [NaN]. *)
Definition quantity_of_input (parsed : option Z) : Z :=
  match parsed with
  | Some q => if q =? 0 then 1 else q
  | None => 1
  end.

(** What the user can do to the cart.  The buttons of the cart page act
    on a displayed cart item; the menu page's button on a displayed menu
    item. *)
Inductive CartAction :=
| AddButton (item : MenuItem)                        (* MenuBrowser: Add to Cart / Add More *)
| MinusButton (item : CartItem)                      (* ShoppingCart: - *)
| PlusButton (item : CartItem)                       (* ShoppingCart: + *)
| QuantityBox (item : CartItem) (parsed : option Z)  (* ShoppingCart: the number input *)
| RemoveButton (item : CartItem)                     (* ShoppingCart: remove *)
| ClearButton                                        (* ShoppingCart: clear cart *)
| OrderPlaced.                                       (* App: [onOrderPlaced] *)

Definition cart_step (menuItems : list MenuItem) (cartItems : list CartItem)
    (a : CartAction) : list CartItem :=
  match a with
  | AddButton item =>
      (* disabled={!canAddMore}, canAddMore = cartQuantity < item.stock_quantity *)
      if getCartQuantity cartItems (mi_id item) <? mi_stock_quantity item
      then addToCart cartItems (mi_id item) 1
      else cartItems
  | MinusButton item =>
      handleQuantityChange menuItems cartItems (c_menu_item_id item) (c_quantity item - 1)
  | PlusButton item =>
      (* disabled={item.quantity >= item.menuItem!.stock_quantity} *)
      match find_menu_item menuItems (c_menu_item_id item) with
      | Some m =>
          if mi_stock_quantity m <=? c_quantity item then cartItems
          else handleQuantityChange menuItems cartItems (c_menu_item_id item) (c_quantity item + 1)
      | None => cartItems   (* not displayed *)
      end
  | QuantityBox item parsed =>
      handleQuantityChange menuItems cartItems (c_menu_item_id item) (quantity_of_input parsed)
  | RemoveButton item => removeFromCart cartItems (c_menu_item_id item)
  | ClearButton => clearCart
  | OrderPlaced => clearCart
  end.

Definition cart_run (menuItems : list MenuItem) (cartItems : list CartItem)
    (acts : list CartAction) : list CartItem :=
  fold_left (cart_step menuItems) acts cartItems.

Inductive CheckoutError := NoPickupTime | PickupTimeNotInFuture.

(** ShoppingCart: [handleCheckout], up to the call of [createOrder].  The
    pickup time is the parsed value of the datetime field ([None] when
    it is empty); times are in milliseconds. *)
Definition handleCheckout (now : Z) (user : User) (pickup : option Z) (remarks : string)
    (cartItems : list CartItem) : CheckoutError + CreateOrderInput :=
  match pickup with
  | None => inl NoPickupTime
  | Some pickupTime =>
      if pickupTime <=? now then inl PickupTimeNotInFuture
      else inr (mkCreateOrderInput (u_id user) pickupTime
                  (if String.eqb remarks "" then None else Some remarks)
                  (map (fun item => mkOrderLine (c_menu_item_id item) (c_quantity item))
                     cartItems))
  end.

(** ** Order lists (getAllOrders, getUserOrders) *)

(** A row of [orders JOIN users JOIN order_items JOIN menu_items]. *)
Record OrderRow := mkOrderRow {
  or_order : Order;
  or_user : User;
  or_item : OrderItem;
  or_menu_item : MenuItem
}.

(** The inner joins on [orders.user_id = users.id],
    [orders.id = order_items.order_id] and
    [order_items.menu_item_id = menu_items.id]. *)
Definition order_rows (s : Store) : list OrderRow :=
  flat_map (fun o =>
    flat_map (fun u =>
      flat_map (fun oi =>
        map (fun m => mkOrderRow o u oi m)
          (filter (fun m => oi_menu_item_id oi =? mi_id m) (menu_items s)))
        (filter (fun oi => o_id o =? oi_order_id oi) (order_items s)))
      (filter (fun u => o_user_id o =? u_id u) (users s)))
    (orders s).

Definition status_eqb (a b : OrderStatus) : bool :=
  match a, b with
  | Pending, Pending | Confirmed, Confirmed | Delivered, Delivered
  | Cancelled, Cancelled => true
  | _, _ => false
  end.

(** [ordersMap.get(orderId)!.order_items.push(...)]: the entry is the
    object held by the map, so the push is seen through the map. *)
Fixpoint push_item (m : list (Z * OrderWithItems)) (k : Z) (it : OrderItem * MenuItem)
  : list (Z * OrderWithItems) :=
  match m with
  | [] => []
  | (k', ow) :: rest =>
      if k' =? k
      then (k', mkOrderWithItems (ow_order ow) (ow_user ow) (ow_items ow ++ [it])) :: rest
      else (k', ow) :: push_item rest k it
  end.

(** One turn of [for (const result of results)]: a [Map] keyed by order
    id, kept in insertion order. *)
Definition group_row (m : list (Z * OrderWithItems)) (r : OrderRow)
  : list (Z * OrderWithItems) :=
  let orderId := o_id (or_order r) in
  let m' := if existsb (fun e => fst e =? orderId) m then m
            else m ++ [(orderId, mkOrderWithItems (or_order r) (or_user r) [])] in
  push_item m' orderId (or_item r, or_menu_item r).

(** [Array.from(ordersMap.values())] after the loop. *)
Definition group_orders (results : list OrderRow) : list OrderWithItems :=
  map snd (fold_left group_row results []).

(** The rows an [orders]-side [where] keeps. *)
Definition select_order_rows (s : Store) (keep : Order -> bool) : list OrderRow :=
  filter (fun r => keep (or_order r)) (order_rows s).

(** [getAllOrders(input?)].  The query's [orderBy(desc(orders.created_at))]
    is an arrangement of the rows the model does not see (timestamps are
    not modelled): [arrange] is the order the database returns them in. *)
Definition getAllOrders (arrange : list OrderRow -> list OrderRow) (s : Store)
    (status : option OrderStatus) : list OrderWithItems :=
  let results :=
    match status with
    | Some st => arrange (select_order_rows s (fun o => status_eqb (o_status o) st))
    | None => arrange (select_order_rows s (fun _ => true))
    end in
  group_orders results.

(** [Array.prototype.sort] with [(a, b) => b.order_date - a.order_date]:
    a stable sort, newest first; [order_date] gives each order's date. *)
Fixpoint insert_by_date (order_date : Order -> Z) (x : OrderWithItems)
    (l : list OrderWithItems) : list OrderWithItems :=
  match l with
  | [] => [x]
  | y :: l' =>
      if order_date (ow_order y) <=? order_date (ow_order x) then x :: l
      else y :: insert_by_date order_date x l'
  end.

Definition sort_by_date_desc (order_date : Order -> Z) (l : list OrderWithItems)
  : list OrderWithItems :=
  fold_right (insert_by_date order_date) [] l.

(** [getUserOrders({user_id})]: the query has no [orderBy], so the
    database returns the rows in an order of its own ([arrange]). *)
Definition getUserOrders (arrange : list OrderRow -> list OrderRow)
    (order_date : Order -> Z) (s : Store) (user_id : Z) : list OrderWithItems :=
  sort_by_date_desc order_date
    (group_orders (arrange (select_order_rows s (fun o => o_user_id o =? user_id)))).

(** ** Department reports (getDepartmentReports) *)

Record DepartmentReport := mkDepartmentReport {
  dr_department : string;
  dr_total_orders : Z;
  dr_total_quantity : Z;
  dr_total_amount : Z               (* in cents *)
}.

(** [orders JOIN users ON orders.user_id = users.id]: each row as its
    user's department and the order. *)
Definition order_user_rows (s : Store) : list (string * Order) :=
  flat_map (fun o => map (fun u => (u_department u, o))
                       (filter (fun u => o_user_id o =? u_id u) (users s)))
    (orders s).

(** [order_items JOIN orders ON ... JOIN users ON ...]. *)
Definition item_order_user_rows (s : Store) : list (string * OrderItem) :=
  flat_map (fun oi =>
    flat_map (fun o => map (fun u => (u_department u, oi))
                         (filter (fun u => o_user_id o =? u_id u) (users s)))
      (filter (fun o => oi_order_id oi =? o_id o) (orders s)))
    (order_items s).

Definition rows_of_dept {A} (d : string) (rows : list (string * A)) : list (string * A) :=
  filter (fun r => String.eqb (fst r) d) rows.

(** The first query: [department], [count(orders.id)] and
    [sum(orders.total_amount)], [groupBy(users.department)]; one row per
    department of the join. *)
Definition orderResults (s : Store) : list (string * Z * Z) :=
  map (fun d => let rows := rows_of_dept d (order_user_rows s) in
                (d, Z.of_nat (length rows), sumZ (map (fun r => o_total_amount (snd r)) rows)))
    (nodup string_dec (map fst (order_user_rows s))).

(** The second query: [department] and [sum(order_items.quantity)],
    [groupBy(users.department)]. *)
Definition quantityResults (s : Store) : list (string * Z) :=
  map (fun d => (d, sumZ (map (fun r => oi_quantity (snd r))
                             (rows_of_dept d (item_order_user_rows s)))))
    (nodup string_dec (map fst (item_order_user_rows s))).

(** [departmentMap]: a [Map] keyed by department, in insertion order. *)
Fixpoint dmap_get (m : list (string * DepartmentReport)) (k : string)
  : option DepartmentReport :=
  match m with
  | [] => None
  | (k', v) :: rest => if String.eqb k' k then Some v else dmap_get rest k
  end.

Fixpoint dmap_set (m : list (string * DepartmentReport)) (k : string) (v : DepartmentReport)
  : list (string * DepartmentReport) :=
  match m with
  | [] => [(k, v)]
  | (k', v') :: rest => if String.eqb k' k then (k', v) :: rest else (k', v') :: dmap_set rest k v
  end.

(** [getDepartmentReports()].  Neither query has an [orderBy]: [arrange1]
    and [arrange2] are the orders the database returns the groups in.
    The [|| 0] and [?.toString() || '0'] fallbacks never apply: a group
    has at least one row and its sums are not null. *)
Definition getDepartmentReports
    (arrange1 : list (string * Z * Z) -> list (string * Z * Z))
    (arrange2 : list (string * Z) -> list (string * Z))
    (s : Store) : list DepartmentReport :=
  let m1 := fold_left (fun m (r : string * Z * Z) =>
              let '(department, total_orders, total_amount) := r in
              dmap_set m department (mkDepartmentReport department total_orders 0 total_amount))
              (arrange1 (orderResults s)) [] in
  let m2 := fold_left (fun m (r : string * Z) =>
              let '(department, total_quantity) := r in
              match dmap_get m department with
              | Some existing =>
                  dmap_set m department
                    (mkDepartmentReport (dr_department existing) (dr_total_orders existing)
                       total_quantity (dr_total_amount existing))
              | None => m
              end)
              (arrange2 (quantityResults s)) m1 in
  map snd m2.

(** ** What a failed [createOrder] leaves behind *)

(** The line an order item was written for. *)
Definition line_of (oi : OrderItem) : OrderLine :=
  mkOrderLine (oi_menu_item_id oi) (oi_quantity oi).

(** The menu items after the stock updates of the lines [dec]: each line
    sets its item's stock to the stock read before the writes minus its
    quantity, so of two lines with the same item the later one counts. *)
Definition stock_written (dec : list OrderLine) (l : list MenuItem) : list MenuItem :=
  map (fun x => match find (fun ln => ol_menu_item_id ln =? mi_id x) (rev dec) with
                | Some ln => with_stock x (mi_stock_quantity x - ol_quantity ln)
                | None => x
                end) l.

(** [s] is [s0] with the order [o] of [input] inserted, an order item for
    each line of [pre] and the stock update of each line of [dec]; users
    and departments are those of [s0]. *)
Definition written_upto (s0 : Store) (input : CreateOrderInput) (o : Order)
    (pre dec : list OrderLine) (s : Store) : Prop :=
  orders s = orders s0 ++ [o] /\ o_user_id o = ci_user_id input
  /\ users s = users s0 /\ departments s = departments s0
  /\ (exists items, order_items s = order_items s0 ++ items
        /\ Forall (fun oi => oi_order_id oi = o_id o) items
        /\ map line_of items = pre)
  /\ (NoDup (map mi_id (menu_items s0)) -> menu_items s = stock_written dec (menu_items s0)).

(** A write of the loop failed: the lines [pre] before it have their order
    items, and all of them, or all but the last, their stock update. *)
Definition partial_write (s0 : Store) (input : CreateOrderInput) (s : Store) : Prop :=
  exists o pre rest dec,
    ci_order_items input = pre ++ rest
    /\ (dec = pre \/ exists l, dec ++ [l] = pre)
    /\ written_upto s0 input o pre dec s.

(** ** Test data *)

Definition u1 : User := mkUser 1 "Test User" "1234567890" "IT" Regular.

Definition pizza : MenuItem :=
  mkMenuItem 1 "Pizza" 2599 (Some "Delicious pizza") None "Food" 10.

Definition burger : MenuItem :=
  mkMenuItem 2 "Burger" 1550 (Some "Tasty burger") None "Food" 5.

Definition store0 : Store := mkStore [u1] [] [pizza; burger] [] [] 1 1.

Definition order_a : CreateOrderInput :=
  mkCreateOrderInput 1 0 (Some "Test order remarks")
    [mkOrderLine 1 2; mkOrderLine 2 1].

Example createOrder_test_total :
  match snd (createOrder no_faults store0 order_a) with
  | inr r => o_total_amount (ow_order r) = 6748
  | inl _ => False
  end.
Proof. vm_compute. reflexivity. Qed.

(** ** Auxiliary definitions and test data *)

(** Orders appended by one step are all [Pending], and so is every order
    a suspended call carries. *)
Definition phase_orders_pending (p : Phase) : Prop :=
  match p with
  | AwaitItemInsert _ _ o _ _ _ _ | AwaitStockUpdate _ _ o _ _ _ _
  | AwaitRefetch _ o _ => o_status o = Pending
  | Returned r => o_status (ow_order r) = Pending
  | _ => True
  end.

Definition repeated_line_order : CreateOrderInput :=
  mkCreateOrderInput 1 0 None [mkOrderLine 1 1; mkOrderLine 1 1].

(** A menu item at the top of the price column's range. *)
Definition caviar : MenuItem := mkMenuItem 3 "Caviar" 9999999999 None None "Food" 2.

Definition store_caviar : Store := mkStore [u1] [] [caviar] [] [] 1 1.

Definition line_amount (mm : list MenuItem) (l : OrderLine) : Z :=
  match map_get mm (ol_menu_item_id l) with
  | Some m => mi_price m * ol_quantity l
  | None => 0
  end.

(** An inserted item records its line: the line's item and quantity, and
    the price of the row read by the batch lookup. *)
Definition item_of_line (mm : list MenuItem) (oi : OrderItem) (l : OrderLine) : Prop :=
  oi_menu_item_id oi = ol_menu_item_id l /\ oi_quantity oi = ol_quantity l /\
  exists m, map_get mm (ol_menu_item_id l) = Some m /\ oi_price_at_order oi = mi_price m.

Definition row_key (r : JoinRow) : Z * string := (j_menu_item_id r, j_menu_item_name r).

(** The catalog name of a menu item id. *)
Definition menu_name (s : Store) (k : Z) : string :=
  match filter (fun m => mi_id m =? k) (menu_items s) with
  | m :: _ => mi_name m
  | [] => EmptyString
  end.

Definition row_of (s : Store) (oi : OrderItem) : JoinRow :=
  mkJoinRow (oi_menu_item_id oi) (menu_name s (oi_menu_item_id oi)) (oi_order_id oi)
    (oi_quantity oi) (oi_price_at_order oi).

(** Primary keys and the two foreign keys of order_items. *)
Definition ledger_integrity (s : Store) : Prop :=
  NoDup (map mi_id (menu_items s)) /\ NoDup (map o_id (orders s))
  /\ (forall oi, In oi (order_items s) ->
        (exists m, In m (menu_items s) /\ mi_id m = oi_menu_item_id oi)
        /\ (exists o, In o (orders s) /\ o_id o = oi_order_id oi)).

(** The order the reports are sorted in: [total_amount] descending. *)
Definition amount_ge (a b : MenuItemReport) : Prop := r_total_amount b <= r_total_amount a.

Definition store_rep : Store :=
  mkStore [u1] [] [pizza; burger]
    [mkOrder 1 1 Pending 0 None 6748; mkOrder 2 1 Confirmed 0 None 2599]
    [mkOrderItem 1 1 1 2 2599; mkOrderItem 2 1 2 1 1550; mkOrderItem 3 2 1 1 2599]
    3 4.

(** The errors the handler raises itself before its first write. *)
Definition validation_error (e : Err) : bool :=
  match e with
  | UserNotFound | MenuItemsNotFound | MenuItemNotFound _ | InsufficientStock _ _ _ => true
  | _ => false
  end.

Definition order_written (s0 s : Store) : Prop := exists o, orders s = orders s0 ++ [o].

(** Before the order insert the store is the one the call started on;
    from the order insert on, it holds one more order. *)
Definition failure_inv (s0 s : Store) (p : Phase) : Prop :=
  match p with
  | AwaitUser | AwaitMenuItems _ | AwaitOrderInsert _ _ _ => s = s0
  | AwaitItemInsert _ _ _ _ _ _ _ | AwaitStockUpdate _ _ _ _ _ _ _
  | AwaitRefetch _ _ _ => order_written s0 s
  | Returned _ => True
  | Threw e => (validation_error e = true -> s = s0) /\ (s = s0 \/ order_written s0 s)
  end.

Definition stock_nonneg (s : Store) : Prop :=
  Forall (fun m => 0 <= mi_stock_quantity m) (menu_items s).

(** Every line a call still has to write was checked against the
    menu item the call will take its stock from. *)
Definition lines_ok (mm : list MenuItem) (lines : list OrderLine) : Prop :=
  forall l m, In l lines -> map_get mm (ol_menu_item_id l) = Some m ->
    ol_quantity l <= mi_stock_quantity m.

Definition thread_ok (t : Thread) : Prop :=
  match snd t with
  | AwaitOrderInsert _ mm _ => lines_ok mm (ci_order_items (fst t))
  | AwaitItemInsert _ mm _ _ m l rest | AwaitStockUpdate _ mm _ _ m l rest =>
      ol_quantity l <= mi_stock_quantity m /\ lines_ok mm rest
  | _ => True
  end.

Definition cookie : MenuItem := mkMenuItem 1 "Cookie" 250 None None "Food" 1.

Definition store_scarce : Store := mkStore [u1] [] [cookie] [] [] 1 1.

Definition one_cookie : CreateOrderInput := mkCreateOrderInput 1 0 None [mkOrderLine 1 1].

(** The two calls alternate, one [await] each. *)
Definition alternate : list nat := concat (repeat [0%nat; 1%nat] 6).

(** Test data for the user and department handlers. *)
Definition u2 : User := mkUser 2 "Admin User" "5550001" "HR" Admin.

Definition store_staff : Store :=
  mkStore [u1; u2] [mkDepartment 1 "IT"; mkDepartment 2 "HR"] [pizza; burger] [] [] 1 1.

(** The stock a menu item has after an order whose lines have distinct
    item ids: lowered by the quantity of its line, if it has one. *)
Definition stock_after (lines : list OrderLine) (m : MenuItem) : MenuItem :=
  match find (fun l => ol_menu_item_id l =? mi_id m) lines with
  | Some l => with_stock m (mi_stock_quantity m - ol_quantity l)
  | None => m
  end.

(** What the cart page can show for a cart: each item once, each with a
    quantity of at least one that the stock of its menu item covers. *)
Definition cart_ok (menuItems : list MenuItem) (cartItems : list CartItem) : Prop :=
  NoDup (map c_menu_item_id cartItems) /\
  forall c, In c cartItems ->
    1 <= c_quantity c /\
    exists m, find_menu_item menuItems (c_menu_item_id c) = Some m
              /\ c_quantity c <= mi_stock_quantity m.

(** A session on the menu and cart pages. *)
Definition session_a : list CartAction :=
  [AddButton pizza; AddButton pizza; AddButton burger;
   PlusButton (mkCartItem 2 1); QuantityBox (mkCartItem 1 2) (Some 7);
   MinusButton (mkCartItem 2 2)].

Definition cart_a : list CartItem := [mkCartItem 1 2; mkCartItem 2 1].

Definition checkout_a : CreateOrderInput :=
  mkCreateOrderInput 1 100 None [mkOrderLine 1 2; mkOrderLine 2 1].

(** A cart restored with an item (id 9) that is no longer on the menu. *)
Definition cart_stale : list CartItem := [mkCartItem 1 2; mkCartItem 9 1].

Definition checkout_stale : CreateOrderInput :=
  mkCreateOrderInput 1 100 None [mkOrderLine 1 2; mkOrderLine 9 1].

(** The items of order [o] with their menu items, as the joins pair them. *)
Definition order_items_of (s : Store) (o : Order) : list (OrderItem * MenuItem) :=
  flat_map (fun oi => map (fun m => (oi, m))
                        (filter (fun m => oi_menu_item_id oi =? mi_id m) (menu_items s)))
    (filter (fun oi => o_id o =? oi_order_id oi) (order_items s)).

Definition order_row_key (r : OrderRow) : Z := o_id (or_order r).

Definition row_entry (r : OrderRow) : OrderItem * MenuItem := (or_item r, or_menu_item r).

(** What the map holds after the loop has read the rows [R]: each key
    once, each entry built from a row of [X] and holding the items of the
    rows of [R] with its key, and an entry for every row of [R]. *)
Definition group_inv (R X : list OrderRow) (m : list (Z * OrderWithItems)) : Prop :=
  NoDup (map fst m)
  /\ (forall k ow, In (k, ow) m ->
        k = o_id (ow_order ow)
        /\ ow_items ow = map row_entry (filter (fun r => order_row_key r =? k) R)
        /\ exists r, In r X /\ or_order r = ow_order ow /\ or_user r = ow_user ow)
  /\ (forall r, In r R -> exists ow, In (order_row_key r, ow) m).

Definition sorted_by_date_desc (order_date : Order -> Z) (l : list OrderWithItems) : Prop :=
  Sorted (fun a b => order_date (ow_order b) <= order_date (ow_order a)) l.

(** The rows the joins give for one order. *)
Definition rows_of_order (s : Store) (o : Order) : list OrderRow :=
  flat_map (fun u =>
    flat_map (fun oi =>
      map (fun m => mkOrderRow o u oi m)
        (filter (fun m => oi_menu_item_id oi =? mi_id m) (menu_items s)))
      (filter (fun oi => o_id o =? oi_order_id oi) (order_items s)))
    (filter (fun u => o_user_id o =? u_id u) (users s)).

(** The department of the user who placed an order, if that user exists. *)
Definition order_department (s : Store) (o : Order) : option string :=
  match filter (fun u => o_user_id o =? u_id u) (users s) with
  | u :: _ => Some (u_department u)
  | [] => None
  end.

(** The department an order item is billed to, through its order. *)
Definition item_department (s : Store) (oi : OrderItem) : option string :=
  match filter (fun o => oi_order_id oi =? o_id o) (orders s) with
  | o :: _ => order_department s o
  | [] => None
  end.

Definition in_dept (d : string) (x : option string) : bool :=
  match x with Some d' => String.eqb d' d | None => false end.

Definition dept_orders (s : Store) (d : string) : list Order :=
  filter (fun o => in_dept d (order_department s o)) (orders s).

Definition dept_items (s : Store) (d : string) : list OrderItem :=
  filter (fun oi => in_dept d (item_department s oi)) (order_items s).

(** The quantity the second query gives a department (0 when none). *)
Definition qty_of (q : list (string * Z)) (d : string) : Z :=
  match find (fun x => String.eqb (fst x) d) q with
  | Some x => snd x
  | None => 0
  end.

Definition report_of (q : list (string * Z)) (r : string * Z * Z) : string * DepartmentReport :=
  let '(d, c, a) := r in (d, mkDepartmentReport d c (qty_of q d) a).

Definition dkey (r : string * Z * Z) : string := fst (fst r).

(** Two departments; order 4 belongs to no user. *)
Definition store_dept : Store :=
  mkStore [u1; u2] [] [pizza; burger]
    [mkOrder 1 1 Pending 0 None 6748; mkOrder 2 2 Confirmed 0 None 2599;
     mkOrder 3 2 Pending 0 None 1550; mkOrder 4 7 Pending 0 None 2599]
    [mkOrderItem 1 1 1 2 2599; mkOrderItem 2 1 2 1 1550; mkOrderItem 3 2 1 1 2599;
     mkOrderItem 4 3 2 1 1550; mkOrderItem 5 4 1 1 2599]
    5 6.

(** The writes a running [createOrder] has made, by the [await] it is at. *)
Definition partial_inv (s0 : Store) (input : CreateOrderInput) (s : Store) (p : Phase) : Prop :=
  match p with
  | AwaitUser | AwaitMenuItems _ => s = s0
  | AwaitOrderInsert _ mm _ => s = s0 /\ mm = select_menu_items_in s0 (line_ids input)
  | AwaitItemInsert _ mm o _ m l rest =>
      mm = select_menu_items_in s0 (line_ids input) /\ map_get mm (ol_menu_item_id l) = Some m
      /\ exists pre, ci_order_items input = pre ++ l :: rest /\ written_upto s0 input o pre pre s
  | AwaitStockUpdate _ mm o _ m l rest =>
      mm = select_menu_items_in s0 (line_ids input) /\ map_get mm (ol_menu_item_id l) = Some m
      /\ exists pre, ci_order_items input = pre ++ l :: rest
                     /\ written_upto s0 input o (pre ++ [l]) pre s
  | AwaitRefetch _ o _ =>
      written_upto s0 input o (ci_order_items input) (ci_order_items input) s
  | Returned _ => True
  | Threw _ => s = s0 \/ partial_write s0 input s
  end.

(** ** General facts about the model *)

Ltac destruct_matches :=
  repeat match goal with
  | |- context [match ?x with _ => _ end] => destruct x eqn:?
  | |- context [if ?x then _ else _] => destruct x eqn:?
  end.

Lemma set_departments_same (s : Store) : set_departments s (departments s) = s.
Proof. destruct s; reflexivity. Qed.

Lemma filter_none_id {A} (f : A -> bool) (l : list A) :
  (forall x, In x l -> f x = true) -> filter f l = l.
Proof.
  induction l as [|x l IH]; intros H; simpl; [reflexivity|].
  rewrite (H x (or_introl eq_refl)), IH; [reflexivity|].
  intros y Hy; apply H; right; exact Hy.
Qed.

Lemma next_write_pending u mm o done rest :
  o_status o = Pending -> phase_orders_pending (next_write u mm o done rest).
Proof.
  intros H; destruct rest as [|l rest]; simpl; [exact H|].
  destruct (map_get mm (ol_menu_item_id l)); simpl; auto.
Qed.

Ltac no_new_orders := exists []; rewrite app_nil_r; split; [reflexivity | constructor].

Lemma step_orders_pending f input s p :
  phase_orders_pending p ->
  phase_orders_pending (snd (step f input s p)) /\
  exists new, orders (fst (step f input s p)) = orders s ++ new
              /\ Forall (fun o => o_status o = Pending) new.
Proof.
  intros Hp.
  destruct p; simpl in Hp |- *;
    try (split; [exact Hp | no_new_orders]);
    destruct f; simpl;
    try (split; [exact I | no_new_orders]);
    destruct_matches; simpl;
    try (split; [exact I | no_new_orders]);
    try (split; [apply next_write_pending; assumption | no_new_orders]);
    try (split; [exact Hp | no_new_orders]).
  split; [apply next_write_pending; reflexivity|].
  exists [mkOrder (orders_seq s) (ci_user_id input) Pending
            (ci_pickup_or_delivery_time input) (ci_remarks input) total].
  split; [reflexivity | repeat constructor].
Qed.

Lemma run_orders_pending flt k fuel input s p :
  phase_orders_pending p ->
  phase_orders_pending (snd (run flt k fuel input s p)) /\
  exists new, orders (fst (run flt k fuel input s p)) = orders s ++ new
              /\ Forall (fun o => o_status o = Pending) new.
Proof.
  revert k s p; induction fuel as [|fuel IH]; intros k s p Hp; simpl.
  - split; [exact Hp | exists []; rewrite app_nil_r; split; auto].
  - destruct (step_orders_pending (flt k) input s p Hp) as [Hp' [n1 [E1 F1]]].
    destruct (step (flt k) input s p) as [s1 p1]; simpl in Hp', E1.
    destruct (IH (S k) s1 p1 Hp') as [Hp'' [n2 [E2 F2]]].
    split; [exact Hp''|].
    exists (n1 ++ n2); rewrite E2, E1, app_assoc; split; [reflexivity|].
    apply Forall_app; split; assumption.
Qed.

(** ** C8, C10, C7, C5 *)

(** C8: every order [createOrder] writes has status [Pending] (the column
    default; the insert does not set it), and so has the order it
    returns. *)
Theorem createOrder_orders_pending :
  forall (flt : nat -> bool) (s : Store) (input : CreateOrderInput),
    (exists new, orders (fst (createOrder flt s input)) = orders s ++ new
                 /\ Forall (fun o => o_status o = Pending) new)
    /\ (forall r, snd (createOrder flt s input) = inr r ->
                  o_status (ow_order r) = Pending).
Proof.
  intros flt s input; unfold createOrder.
  destruct (run_orders_pending flt 0 (4 + 2 * length (ci_order_items input))
              input s AwaitUser I) as [Hp Hn].
  destruct (run flt 0 _ input s AwaitUser) as [s' p]; simpl in Hp, Hn |- *.
  split; [exact Hn|].
  intros r Hr.
  destruct p; try discriminate.
  injection Hr as <-; exact Hp.
Qed.


(** C7 (divergence): [updateOrderStatus] on an id with no order returns an
    order with that id instead of throwing [Order with id .. not found]. *)
Theorem updateOrderStatus_missing_order_returns :
  orders store0 = []
  /\ updateOrderStatus 0 store0 (mkUpdateOrderStatusInput 99999 Confirmed)
     = (store0, inr (mkOrder 99999 1 Confirmed 0 None 0)).
Proof. split; reflexivity. Qed.

(** C5 (divergence): with an existing user and every referenced menu item
    present, a request naming the same item on two lines is refused with
    'One or more menu items not found': one row comes back for two ids. *)
Theorem createOrder_repeated_item_not_found :
  select_user store0 1 = [u1]
  /\ Forall (fun l => exists m, In m (menu_items store0) /\ mi_id m = ol_menu_item_id l)
       (ci_order_items repeated_line_order)
  /\ createOrder no_faults store0 repeated_line_order = (store0, inl MenuItemsNotFound).
Proof.
  split; [reflexivity|]. split; [|vm_compute; reflexivity].
  repeat constructor; exists pizza; split; simpl; auto.
Qed.

(** ** Single-call computations *)

Lemma select_in_single s k m :
  select_menu_items_in s [k] = [m] -> mi_id m = k /\ In m (menu_items s).
Proof.
  intros H.
  assert (Hm : In m (select_menu_items_in s [k])) by (rewrite H; left; reflexivity).
  unfold select_menu_items_in in Hm. apply filter_In in Hm as [Hin Hk].
  simpl in Hk. rewrite orb_false_r in Hk. apply Z.eqb_eq in Hk. auto.
Qed.

Lemma map_get_single m k : mi_id m = k -> map_get [m] k = Some m.
Proof. intros <-. unfold map_get; simpl. rewrite Z.eqb_refl. reflexivity. Qed.

Lemma existsb_id_in (l : list MenuItem) m k :
  In m l -> mi_id m = k -> existsb (fun m' => mi_id m' =? k) l = true.
Proof.
  intros Hin Hid. apply existsb_exists. exists m; split; [exact Hin|].
  apply Z.eqb_eq; exact Hid.
Qed.

Lemma select_set_stock s k q ids :
  select_menu_items_in (set_stock s k q) ids
  = map (fun m => if mi_id m =? k then with_stock m q else m) (select_menu_items_in s ids).
Proof.
  unfold select_menu_items_in, set_stock; simpl.
  induction (menu_items s) as [|m l IH]; simpl; [reflexivity|].
  destruct (mi_id m =? k) eqn:E; simpl;
    destruct (existsb (Z.eqb (mi_id m)) ids) eqn:E2; simpl;
    rewrite ?E, ?E2, IH; reflexivity.
Qed.

Lemma select_insert_order s o ids :
  select_menu_items_in (insert_order s o) ids = select_menu_items_in s ids.
Proof. reflexivity. Qed.

Lemma select_insert_order_item s oi ids :
  select_menu_items_in (insert_order_item s oi) ids = select_menu_items_in s ids.
Proof. reflexivity. Qed.

(** The run of a one-line order that passes its checks. *)
Lemma createOrder_single_line s uid u us k m t rem q :
  select_user s uid = u :: us ->
  select_menu_items_in s [k] = [m] ->
  q <= mi_stock_quantity m ->
  numeric_10_2_fits (mi_price m * q) = true ->
  let o := mkOrder (orders_seq s) uid Pending t rem (mi_price m * q) in
  let oi := mkOrderItem (order_items_seq s) (orders_seq s) k q (mi_price m) in
  createOrder no_faults s (mkCreateOrderInput uid t rem [mkOrderLine k q])
  = (set_stock (insert_order_item (insert_order s o) oi) k (mi_stock_quantity m - q),
     inr (mkOrderWithItems o u [(oi, with_stock m (mi_stock_quantity m - q))])).
Proof.
  intros Hu Hm Hq Hfit o oi.
  destruct (select_in_single _ _ _ Hm) as [Hid Hin].
  unfold createOrder. simpl. rewrite Hu. simpl. unfold line_ids. simpl. rewrite Hm. simpl.
  rewrite (map_get_single _ _ Hid).
  replace (mi_stock_quantity m <? q) with false by (symmetry; apply Z.ltb_ge; lia).
  simpl. rewrite Hfit, Hu. simpl.
  rewrite (map_get_single _ _ Hid). simpl.
  rewrite (existsb_id_in _ _ _ Hin Hid). simpl.
  rewrite select_set_stock, select_insert_order_item, select_insert_order.
  change (line_ids _) with [k].
  rewrite Hm. simpl.
  replace (mi_id m =? k) with true by (symmetry; apply Z.eqb_eq; exact Hid).
  rewrite map_get_single by exact Hid. reflexivity.
Qed.

Lemma run_threw flt k n input s e : run flt k n input s (Threw e) = (s, Threw e).
Proof. revert k; induction n as [|n IH]; intros k; simpl; [reflexivity | apply IH]. Qed.

(** A one-line order asking for more than the stock is refused at the
    stock check, before any write. *)
Lemma createOrder_single_line_short s uid u us k m t rem q :
  select_user s uid = u :: us ->
  select_menu_items_in s [k] = [m] ->
  mi_stock_quantity m < q ->
  createOrder no_faults s (mkCreateOrderInput uid t rem [mkOrderLine k q])
  = (s, inl (InsufficientStock (mi_name m) (mi_stock_quantity m) q)).
Proof.
  intros Hu Hm Hq.
  destruct (select_in_single _ _ _ Hm) as [Hid Hin].
  unfold createOrder. simpl. rewrite Hu. simpl. unfold line_ids. simpl. rewrite Hm. simpl.
  rewrite (map_get_single _ _ Hid).
  replace (mi_stock_quantity m <? q) with true by (symmetry; apply Z.ltb_lt; exact Hq).
  reflexivity.
Qed.

(** ** C3 *)

(** C3 (as amended): for an existing user and a menu item [m] (the one row
    with id [k]) whose price times its stock fits the numeric(10,2)
    total_amount column, ordering exactly the stock succeeds and leaves
    the stock at 0; ordering one more fails with [InsufficientStock]
    naming the item, the stock and the request, and leaves the store as
    it was. *)
Theorem createOrder_stock_boundary :
  forall (s : Store) (uid : Z) (u : User) (us : list User) (k : Z) (m : MenuItem)
         (t : Z) (rem : option string),
    select_user s uid = u :: us ->
    select_menu_items_in s [k] = [m] ->
    numeric_10_2_fits (mi_price m * mi_stock_quantity m) = true ->
    (exists r, snd (createOrder no_faults s
                      (mkCreateOrderInput uid t rem [mkOrderLine k (mi_stock_quantity m)]))
               = inr r)
    /\ select_menu_items_in
         (fst (createOrder no_faults s
                 (mkCreateOrderInput uid t rem [mkOrderLine k (mi_stock_quantity m)]))) [k]
       = [with_stock m 0]
    /\ createOrder no_faults s
         (mkCreateOrderInput uid t rem [mkOrderLine k (mi_stock_quantity m + 1)])
       = (s, inl (InsufficientStock (mi_name m) (mi_stock_quantity m)
                    (mi_stock_quantity m + 1))).
Proof.
  intros s uid u us k m t rem Hu Hm Hfit.
  destruct (select_in_single _ _ _ Hm) as [Hid Hin].
  rewrite (createOrder_single_line s uid u us k m t rem (mi_stock_quantity m) Hu Hm
             (Z.le_refl _) Hfit).
  split; [eexists; reflexivity|]. split.
  - simpl. rewrite select_set_stock, select_insert_order_item, select_insert_order, Hm.
    simpl. replace (mi_id m =? k) with true by (symmetry; apply Z.eqb_eq; exact Hid).
    rewrite Z.sub_diag. reflexivity.
  - apply (createOrder_single_line_short s uid u us); [exact Hu | exact Hm | lia].
Qed.

Lemma createOrder_stock_boundary_witness :
  (select_user store0 1 = [u1]
   /\ select_menu_items_in store0 [1] = [pizza]
   /\ numeric_10_2_fits (mi_price pizza * mi_stock_quantity pizza) = true)
  /\ ((exists r, snd (createOrder no_faults store0
                        (mkCreateOrderInput 1 0 None [mkOrderLine 1 (mi_stock_quantity pizza)]))
                 = inr r)
      /\ select_menu_items_in
           (fst (createOrder no_faults store0
                   (mkCreateOrderInput 1 0 None [mkOrderLine 1 (mi_stock_quantity pizza)]))) [1]
         = [with_stock pizza 0]
      /\ createOrder no_faults store0
           (mkCreateOrderInput 1 0 None [mkOrderLine 1 (mi_stock_quantity pizza + 1)])
         = (store0, inl (InsufficientStock (mi_name pizza) (mi_stock_quantity pizza)
                           (mi_stock_quantity pizza + 1)))).
Proof.
  split; [split; [reflexivity | split; reflexivity]|].
  apply (createOrder_stock_boundary store0 1 u1 [] 1 pizza 0 None);
    reflexivity.
Defined.

(** C3 (counterexample): user 1 and item 3 exist and the line asks for
    exactly the stock (2), but the total 199999999.98 does not fit the
    numeric(10,2) total_amount column, so the order insert is rejected. *)
Lemma createOrder_stock_boundary_overflow :
  select_user store_caviar 1 = [u1]
  /\ select_menu_items_in store_caviar [3] = [caviar]
  /\ createOrder no_faults store_caviar
       (mkCreateOrderInput 1 0 None [mkOrderLine 3 (mi_stock_quantity caviar)])
     = (store_caviar, inl DbError).
Proof. split; [reflexivity | split; [reflexivity | vm_compute; reflexivity]]. Qed.

(** ** A run that returns went through no failing statement *)

Lemma run_returned_fault_free flt k n input s p s' r :
  run flt k n input s p = (s', Returned r) ->
  run no_faults k n input s p = (s', Returned r).
Proof.
  revert k s p; induction n as [|n IH]; intros k s p H; simpl in *; [exact H|].
  destruct (flt k) eqn:Ef.
  - destruct p; simpl in H; try (rewrite run_threw in H; discriminate);
      simpl; apply IH; exact H.
  - change (no_faults k) with false.
    destruct (step false input s p) as [s1 p1]. apply IH. exact H.
Qed.

(** ** Prices and totals of a successful call *)

Lemma map_get_in_aux (l : list MenuItem) k m :
  forall acc,
    fold_left (fun acc m => if mi_id m =? k then Some m else acc) l acc = Some m ->
    acc = Some m \/ (In m l /\ mi_id m = k).
Proof.
  induction l as [|x l IH]; intros acc H; simpl in H; [left; exact H|].
  destruct (IH _ H) as [E | [Hin Hid]].
  - destruct (mi_id x =? k) eqn:Ex; [|left; exact E].
    injection E as <-. right; split; [left; reflexivity | apply Z.eqb_eq; exact Ex].
  - right; split; [right; exact Hin | exact Hid].
Qed.

Lemma map_get_in l k m : map_get l k = Some m -> In m l /\ mi_id m = k.
Proof.
  intros H. destruct (map_get_in_aux l k m None H) as [E | R]; [discriminate | exact R].
Qed.

Lemma select_in s ids m : In m (select_menu_items_in s ids) -> In m (menu_items s).
Proof. unfold select_menu_items_in. intros H; apply filter_In in H; apply H. Qed.

Lemma check_stock_total mm lines acc total :
  check_stock mm lines acc = inr total ->
  total = acc + sumZ (map (line_amount mm) lines).
Proof.
  revert acc; induction lines as [|l lines IH]; intros acc H; simpl in H.
  - injection H as <-; simpl; lia.
  - change (sumZ (map (line_amount mm) (l :: lines)))
      with (line_amount mm l + sumZ (map (line_amount mm) lines)).
    unfold line_amount at 1.
    destruct (map_get mm (ol_menu_item_id l)) as [m|]; [|discriminate].
    destruct (mi_stock_quantity m <? ol_quantity l); [discriminate|].
    rewrite (IH _ H). lia.
Qed.

Lemma hydrate_fst upd done its : hydrate upd done = Some its -> map fst its = done.
Proof.
  revert its; induction done as [|oi done IH]; intros its H; simpl in H.
  - injection H as <-; reflexivity.
  - destruct (map_get upd (oi_menu_item_id oi)); [|discriminate].
    destruct (hydrate upd done) as [r|] eqn:E; [|discriminate].
    injection H as <-. simpl. rewrite (IH r eq_refl). reflexivity.
Qed.

Section SuccessfulCall.

Variable s0 : Store.
Variable input : CreateOrderInput.

Let lines := ci_order_items input.
Let mm0 := select_menu_items_in s0 (line_ids input).

(** What holds at each suspension point of a fault-free call started on
    [s0]. *)
Definition success_inv (s : Store) (p : Phase) : Prop :=
  match p with
  | AwaitUser | AwaitMenuItems _ => s = s0
  | AwaitOrderInsert _ mm total =>
      s = s0 /\ mm = mm0 /\ check_stock mm0 lines 0 = inr total
  | AwaitItemInsert _ mm o done m l rest =>
      mm = mm0 /\ check_stock mm0 lines 0 = inr (o_total_amount o) /\ In o (orders s)
      /\ map_get mm0 (ol_menu_item_id l) = Some m
      /\ order_items s = order_items s0 ++ done
      /\ exists pre, lines = pre ++ l :: rest /\ Forall2 (item_of_line mm0) done pre
  | AwaitStockUpdate _ mm o done m l rest =>
      mm = mm0 /\ check_stock mm0 lines 0 = inr (o_total_amount o) /\ In o (orders s)
      /\ order_items s = order_items s0 ++ done
      /\ exists pre, lines = pre ++ l :: rest /\ Forall2 (item_of_line mm0) done (pre ++ [l])
  | AwaitRefetch _ o done =>
      check_stock mm0 lines 0 = inr (o_total_amount o) /\ In o (orders s)
      /\ order_items s = order_items s0 ++ done
      /\ Forall2 (item_of_line mm0) done lines
  | Returned r =>
      check_stock mm0 lines 0 = inr (o_total_amount (ow_order r))
      /\ In (ow_order r) (orders s)
      /\ order_items s = order_items s0 ++ map fst (ow_items r)
      /\ Forall2 (item_of_line mm0) (map fst (ow_items r)) lines
  | Threw _ => True
  end.

Lemma next_write_inv u o done pre rest s :
  check_stock mm0 lines 0 = inr (o_total_amount o) -> In o (orders s) ->
  order_items s = order_items s0 ++ done ->
  lines = pre ++ rest -> Forall2 (item_of_line mm0) done pre ->
  success_inv s (next_write u mm0 o done rest).
Proof.
  intros Hc Ho Hi Hl Hf. destruct rest as [|l rest]; simpl.
  - rewrite app_nil_r in Hl. repeat split; auto. rewrite Hl; exact Hf.
  - destruct (map_get mm0 (ol_menu_item_id l)) as [m|] eqn:Em; simpl; [|exact I].
    repeat split; auto. exists pre; auto.
Qed.

Lemma step_success_inv s p :
  success_inv s p -> success_inv (fst (step false input s p)) (snd (step false input s p)).
Proof.
  intros H. destruct p; simpl in H |- *; try exact H.
  - subst s. destruct (select_user s0 (ci_user_id input)); simpl; auto.
  - subst s. destruct (negb _) eqn:E; simpl; [exact I|].
    destruct (check_stock _ _ 0) eqn:Ec; simpl; [exact I|]. auto.
  - destruct H as [-> [-> Hc]].
    destruct (numeric_10_2_fits total && _); simpl; [|exact I].
    apply (next_write_inv u _ [] [] lines); simpl; auto.
    apply in_or_app; right; left; reflexivity.
    rewrite app_nil_r; reflexivity.
  - destruct H as [-> [Hc [Ho [Hm [Hi [pre [Hl Hf]]]]]]].
    destruct (existsb _ _); simpl; [|exact I].
    repeat split; auto.
    + rewrite Hi, app_assoc; reflexivity.
    + exists pre; split; [exact Hl|]. apply Forall2_app; [exact Hf|].
      constructor; [|constructor].
      repeat split; simpl; auto. exists m; auto.
  - destruct H as [-> [Hc [Ho [Hi [pre [Hl Hf]]]]]].
    apply (next_write_inv u o done (pre ++ [l]) rest); auto.
    rewrite Hl, <- app_assoc; reflexivity.
  - destruct H as [Hc [Ho [Hi Hf]]].
    destruct (hydrate _ done) as [its|] eqn:E; simpl; [|exact I].
    rewrite (hydrate_fst _ _ _ E). auto.
Qed.

Lemma run_success_inv k n s p s' p' :
  success_inv s p -> run no_faults k n input s p = (s', p') -> success_inv s' p'.
Proof.
  revert k s p; induction n as [|n IH]; intros k s p H Hr; simpl in Hr.
  - injection Hr as <- <-; exact H.
  - change (no_faults k) with false in Hr.
    pose proof (step_success_inv s p H) as H1.
    destruct (step false input s p) as [s1 p1]. exact (IH _ _ _ H1 Hr).
Qed.

End SuccessfulCall.

Lemma items_amount mm done lines :
  Forall2 (item_of_line mm) done lines ->
  sumZ (map (fun oi => oi_price_at_order oi * oi_quantity oi) done)
  = sumZ (map (line_amount mm) lines).
Proof.
  induction 1 as [|oi l done lines [Hid [Hq [m [Hm Hp]]]] _ IH]; simpl; [reflexivity|].
  rewrite IH. unfold line_amount. rewrite Hm, Hp, Hq. reflexivity.
Qed.

(** ** C4 *)

(** C4: when [createOrder] returns an order, each returned item matches
    its line (item id and quantity) and carries as [price_at_order] the
    price of that menu item's row in the catalog at the time of the call;
    the order's total is the sum of price times quantity over the items;
    that order and those items are the rows written.  The input carries
    no price at all. *)
Theorem createOrder_total_from_catalog :
  forall (flt : nat -> bool) (s : Store) (input : CreateOrderInput)
         (s' : Store) (r : OrderWithItems),
    createOrder flt s input = (s', inr r) ->
    Forall2 (fun l oi =>
               oi_menu_item_id oi = ol_menu_item_id l
               /\ oi_quantity oi = ol_quantity l
               /\ exists m, In m (menu_items s) /\ mi_id m = ol_menu_item_id l
                            /\ oi_price_at_order oi = mi_price m)
            (ci_order_items input) (map fst (ow_items r))
    /\ o_total_amount (ow_order r)
       = sumZ (map (fun oi => oi_price_at_order oi * oi_quantity oi) (map fst (ow_items r)))
    /\ In (ow_order r) (orders s')
    /\ order_items s' = order_items s ++ map fst (ow_items r).
Proof.
  intros flt s input s' r H.
  unfold createOrder in H.
  destruct (run flt 0 _ input s AwaitUser) as [s1 p] eqn:E.
  destruct p; try discriminate. injection H as <- <-.
  apply run_returned_fault_free in E.
  destruct (run_success_inv s input 0 _ s AwaitUser s1 (Returned r0) eq_refl E)
    as [Hc [Ho [Hi Hf]]].
  split; [|split; [|split; [exact Ho | exact Hi]]].
  - clear -Hf. induction Hf as [|oi l done lines [Hid [Hq [m [Hm Hp]]]] _ IH];
      constructor; auto.
    destruct (map_get_in _ _ _ Hm) as [Hin Hmid].
    repeat split; auto. exists m; repeat split; auto.
    eapply select_in; exact Hin.
  - rewrite (check_stock_total _ _ _ _ Hc), (items_amount _ _ _ Hf). reflexivity.
Qed.

Lemma createOrder_total_from_catalog_witness :
  exists s' r, createOrder no_faults store0 order_a = (s', inr r)
  /\ (Forall2 (fun l oi =>
                 oi_menu_item_id oi = ol_menu_item_id l
                 /\ oi_quantity oi = ol_quantity l
                 /\ exists m, In m (menu_items store0) /\ mi_id m = ol_menu_item_id l
                              /\ oi_price_at_order oi = mi_price m)
              (ci_order_items order_a) (map fst (ow_items r))
      /\ o_total_amount (ow_order r)
         = sumZ (map (fun oi => oi_price_at_order oi * oi_quantity oi) (map fst (ow_items r)))
      /\ In (ow_order r) (orders s')
      /\ order_items s' = order_items store0 ++ map fst (ow_items r)).
Proof.
  destruct (createOrder no_faults store0 order_a) as [s' [e|r]] eqn:E;
    [vm_compute in E; discriminate|].
  exists s', r. split; [reflexivity|].
  exact (createOrder_total_from_catalog no_faults store0 order_a s' r E).
Defined.

(** ** Order items are only ever appended *)

Ltac no_new_items := exists []; rewrite app_nil_r; reflexivity.

Lemma step_order_items_append f input s p :
  exists new, order_items (fst (step f input s p)) = order_items s ++ new.
Proof.
  destruct p; simpl; try no_new_items; destruct f; simpl; try no_new_items;
    destruct_matches; simpl; try no_new_items.
  eexists; reflexivity.
Qed.

Lemma run_order_items_append flt k n input s p s' p' :
  run flt k n input s p = (s', p') ->
  exists new, order_items s' = order_items s ++ new.
Proof.
  revert k s p; induction n as [|n IH]; intros k s p Hr; simpl in Hr.
  - injection Hr as <- <-; no_new_items.
  - destruct (step_order_items_append (flt k) input s p) as [n1 E1].
    destruct (step (flt k) input s p) as [s1 p1]; simpl in E1.
    destruct (IH _ _ _ Hr) as [n2 E2].
    exists (n1 ++ n2). rewrite E2, E1, app_assoc. reflexivity.
Qed.

Lemma updateMenuItem_order_items s inp :
  order_items (fst (updateMenuItem s inp)) = order_items s.
Proof.
  unfold updateMenuItem.
  destruct (filter _ (menu_items s)); [reflexivity|].
  destruct (negb _); [reflexivity|].
  destruct (filter _ _); reflexivity.
Qed.

Lemma exec_order_items_append s op :
  exists new, order_items (exec s op) = order_items s ++ new.
Proof.
  destruct op as [flt input | input | id | now input | id]; simpl.
  - unfold createOrder.
    destruct (run flt 0 _ input s AwaitUser) as [s' p] eqn:E; simpl.
    exact (run_order_items_append _ _ _ _ _ _ _ _ E).
  - rewrite updateMenuItem_order_items; no_new_items.
  - unfold deleteMenuItem. destruct (filter _ _); [no_new_items|].
    destruct (existsb _ _); no_new_items.
  - no_new_items.
  - no_new_items.
Qed.

(** ** C6 *)

(** C6: [updateMenuItem] leaves every order item as it was, and across any
    sequence of requests to the handlers that write (placing orders,
    updating or deleting menu items, setting order status, deleting
    departments) the order items table only grows at its end: a row
    present before, with its [price_at_order], is there unchanged after. *)
Theorem price_at_order_snapshot :
  (forall (s : Store) (inp : UpdateMenuItemInput),
     order_items (fst (updateMenuItem s inp)) = order_items s)
  /\ (forall (s : Store) (ops : list Op),
        exists new, order_items (exec_all s ops) = order_items s ++ new).
Proof.
  split; [exact updateMenuItem_order_items|].
  intros s ops. unfold exec_all. revert s.
  induction ops as [|op ops IH]; intros s; simpl; [no_new_items|].
  destruct (exec_order_items_append s op) as [n1 E1].
  destruct (IH (exec s op)) as [n2 E2].
  exists (n1 ++ n2). rewrite E2, E1, app_assoc. reflexivity.
Qed.

(** ** The menu-item report *)

Lemma key_eqb_eq a b : key_eqb a b = true <-> a = b.
Proof.
  destruct a as [a1 a2], b as [b1 b2]; unfold key_eqb; simpl.
  rewrite andb_true_iff, Z.eqb_eq, String.eqb_eq. split.
  - intros [-> ->]; reflexivity.
  - intros H; injection H as -> ->; auto.
Qed.

Lemma group_keys_in rows seen k :
  In k (group_keys rows seen) <-> In k seen \/ In k (map row_key rows).
Proof.
  revert seen; induction rows as [|r rows IH]; intros seen; simpl.
  - rewrite <- in_rev. tauto.
  - destruct (existsb (key_eqb (j_menu_item_id r, j_menu_item_name r)) seen) eqn:E;
      rewrite IH; simpl.
    + apply existsb_exists in E as [k' [Hk' Heq]]. apply key_eqb_eq in Heq.
      unfold row_key. split; [tauto|]. intros [H | [H | H]]; auto.
      left. rewrite <- H, Heq. exact Hk'.
    + unfold row_key. tauto.
Qed.

Lemma group_keys_nodup rows seen : NoDup seen -> NoDup (group_keys rows seen).
Proof.
  revert seen; induction rows as [|r rows IH]; intros seen H; simpl.
  - apply NoDup_rev; exact H.
  - destruct (existsb _ seen) eqn:E; apply IH; [exact H|].
    constructor; [|exact H].
    intros Hin. assert (Hx : existsb (key_eqb (j_menu_item_id r, j_menu_item_name r)) seen = true)
      by (apply existsb_exists; exists (j_menu_item_id r, j_menu_item_name r);
          split; [exact Hin | apply key_eqb_eq; reflexivity]).
    rewrite Hx in E; discriminate.
Qed.

Lemma filter_none_id_nil {A} (f : A -> bool) (l : list A) :
  (forall x, In x l -> f x = false) -> filter f l = [].
Proof.
  induction l as [|x l IH]; intros H; simpl; [reflexivity|].
  rewrite (H x (or_introl eq_refl)). apply IH.
  intros y Hy; apply H; right; exact Hy.
Qed.

Lemma filter_unique_key {A} (key : A -> Z) (l : list A) (x : A) :
  NoDup (map key l) -> In x l -> filter (fun y => key y =? key x) l = [x].
Proof.
  induction l as [|y l IH]; intros Hnd Hin; [contradiction|].
  simpl in Hnd; inversion Hnd as [|? ? Hny Hnd']; subst. simpl.
  destruct Hin as [<- | Hin].
  - rewrite Z.eqb_refl. f_equal. apply filter_none_id_nil.
    intros z Hz. apply Z.eqb_neq. intros E. apply Hny. rewrite <- E.
    apply in_map; exact Hz.
  - destruct (key y =? key x) eqn:E.
    + apply Z.eqb_eq in E. exfalso; apply Hny. rewrite E. apply in_map; exact Hin.
    + apply IH; assumption.
Qed.

Lemma join_rows_map s : ledger_integrity s -> join_rows s = map (row_of s) (order_items s).
Proof.
  intros [Hm [Ho Hfk]]. unfold join_rows.
  revert Hfk. induction (order_items s) as [|oi l IH]; intros Hfk; simpl; [reflexivity|].
  destruct (Hfk oi (or_introl eq_refl)) as [[m [Hmin Hmid]] [o [Hoin Hoid]]].
  rewrite IH by (intros x Hx; apply Hfk; right; exact Hx).
  pose proof (filter_unique_key mi_id _ m Hm Hmin) as Fm.
  pose proof (filter_unique_key o_id _ o Ho Hoin) as Fo.
  rewrite Hmid in Fm. rewrite Hoid in Fo.
  rewrite Fm. simpl. rewrite Fo. simpl.
  unfold row_of, menu_name. rewrite Fm, Hmid. reflexivity.
Qed.

Lemma menu_name_of_key s rows k :
  (forall r, In r rows -> j_menu_item_name r = menu_name s (j_menu_item_id r)) ->
  In k (group_keys rows []) -> snd k = menu_name s (fst k).
Proof.
  intros H Hk. apply group_keys_in in Hk as [[] | Hk].
  apply in_map_iff in Hk as [r [<- Hr]]. simpl. apply H; exact Hr.
Qed.

(** Rows of a group are the order items of its menu item. *)
Lemma aggregate_rows s k :
  snd k = menu_name s (fst k) ->
  filter (fun r => key_eqb (j_menu_item_id r, j_menu_item_name r) k)
         (map (row_of s) (order_items s))
  = map (row_of s) (filter (fun oi => oi_menu_item_id oi =? fst k) (order_items s)).
Proof.
  intros Hk. rewrite filter_map_swap. f_equal. apply filter_ext.
  intros oi. destruct k as [k n]; simpl in Hk |- *. subst n.
  unfold key_eqb, row_of; simpl.
  destruct (oi_menu_item_id oi =? k) eqn:E; simpl; [|reflexivity].
  apply Z.eqb_eq in E. rewrite E. apply String.eqb_refl.
Qed.

Lemma insert_desc_perm r l : Permutation (insert_desc r l) (r :: l).
Proof.
  induction l as [|x l IH]; simpl; [reflexivity|].
  destruct (r_total_amount x <? r_total_amount r); [reflexivity|].
  rewrite IH. apply perm_swap.
Qed.

Lemma sort_desc_perm l : Permutation (sort_desc l) l.
Proof.
  induction l as [|x l IH]; simpl; [reflexivity|].
  rewrite insert_desc_perm, IH. reflexivity.
Qed.

Lemma insert_desc_sorted r l : Sorted amount_ge l -> Sorted amount_ge (insert_desc r l).
Proof.
  induction l as [|x l IH]; intros H; simpl; [repeat constructor|].
  destruct (r_total_amount x <? r_total_amount r) eqn:E.
  - apply Z.ltb_lt in E. constructor; [exact H|]. constructor. unfold amount_ge; lia.
  - apply Z.ltb_ge in E. inversion H as [|? ? Hs Hhd]; subst.
    constructor; [apply IH; exact Hs|].
    destruct l as [|y l]; simpl.
    + constructor. unfold amount_ge; lia.
    + inversion Hhd; subst.
      destruct (r_total_amount y <? r_total_amount r); constructor; unfold amount_ge in *; lia.
Qed.

Lemma sort_desc_sorted l : StronglySorted amount_ge (sort_desc l).
Proof.
  apply Sorted_StronglySorted; [intros a b c; unfold amount_ge; lia|].
  induction l as [|x l IH]; simpl; [constructor|].
  apply insert_desc_sorted; exact IH.
Qed.

(** ** C9 *)

(** C9: on a store satisfying its primary and foreign keys, the report has
    one row per menu item that occurs in some order item (and no other);
    a row carries that item's id and catalog name, the number of distinct
    orders among its order items, the sum of their quantities and the sum
    of quantity times price_at_order; the rows come largest total_amount
    first. *)
Theorem getMenuItemReports_groups :
  forall s : Store,
    ledger_integrity s ->
    StronglySorted amount_ge (getMenuItemReports s)
    /\ NoDup (map r_menu_item_id (getMenuItemReports s))
    /\ (forall oi, In oi (order_items s) ->
          In (oi_menu_item_id oi) (map r_menu_item_id (getMenuItemReports s)))
    /\ (forall r, In r (getMenuItemReports s) ->
          let g := filter (fun oi => oi_menu_item_id oi =? r_menu_item_id r) (order_items s) in
          g <> []
          /\ (exists m, In m (menu_items s) /\ mi_id m = r_menu_item_id r
                        /\ mi_name m = r_menu_item_name r)
          /\ r_total_orders r = Z.of_nat (length (nodup Z.eq_dec (map oi_order_id g)))
          /\ r_total_quantity r = sumZ (map oi_quantity g)
          /\ r_total_amount r
             = sumZ (map (fun oi => oi_quantity oi * oi_price_at_order oi) g)).
Proof.
  intros s Hint. pose proof Hint as [Hm [Ho Hfk]].
  unfold getMenuItemReports. rewrite (join_rows_map s Hint).
  set (rows := map (row_of s) (order_items s)).
  set (keys := group_keys rows []).
  assert (HkN : forall k, In k keys -> snd k = menu_name s (fst k)).
  { intros k Hk. apply (menu_name_of_key s rows); [|exact Hk].
    intros r Hr. unfold rows in Hr. apply in_map_iff in Hr as [oi [<- _]]. reflexivity. }
  assert (Hperm := sort_desc_perm (map (aggregate rows) keys)).
  assert (Hin : forall r, In r (sort_desc (map (aggregate rows) keys)) <->
                          exists k, aggregate rows k = r /\ In k keys).
  { intros r. split.
    - intros H. apply (Permutation_in _ Hperm) in H. apply in_map_iff; exact H.
    - intros H. apply (Permutation_in _ (Permutation_sym Hperm)). apply in_map_iff; exact H. }
  split; [apply sort_desc_sorted|]. split; [|split].
  - apply (Permutation_NoDup (Permutation_map r_menu_item_id (Permutation_sym Hperm))).
    rewrite map_map. simpl.
    apply NoDup_map_NoDup_ForallPairs; [|apply group_keys_nodup; constructor].
    intros a b Ha Hb Hab. destruct a as [a1 a2], b as [b1 b2].
    pose proof (HkN _ Ha) as E1. pose proof (HkN _ Hb) as E2. simpl in *.
    subst. reflexivity.
  - intros oi Hoi. apply in_map_iff.
    exists (aggregate rows (row_key (row_of s oi))). split; [reflexivity|].
    apply Hin. eexists; split; [reflexivity|].
    apply group_keys_in. right. apply in_map. unfold rows. apply in_map; exact Hoi.
  - intros r Hr. apply Hin in Hr as [k [<- Hk]].
    pose proof (HkN k Hk) as HkNk.
    unfold aggregate. simpl. unfold rows. rewrite (aggregate_rows s k HkNk).
    rewrite !map_map. simpl.
    split; [|split; [|split; [reflexivity | split; reflexivity]]].
    + apply group_keys_in in Hk as [[] | Hk].
      apply in_map_iff in Hk as [row [Hrk Hrow]].
      unfold rows in Hrow. apply in_map_iff in Hrow as [oi [<- Hoi]].
      intros Hnil. assert (Hg : In oi (filter (fun oi => oi_menu_item_id oi =? fst k) (order_items s))).
      { apply filter_In; split; [exact Hoi|]. rewrite <- Hrk. apply Z.eqb_refl. }
      rewrite Hnil in Hg; contradiction.
    + apply group_keys_in in Hk as [[] | Hk].
      apply in_map_iff in Hk as [row [Hrk Hrow]].
      unfold rows in Hrow. apply in_map_iff in Hrow as [oi [<- Hoi]].
      destruct (Hfk oi Hoi) as [[m [Hmin Hmid]] _].
      exists m. rewrite <- Hrk. simpl. split; [exact Hmin | split; [exact Hmid|]].
      unfold menu_name. rewrite <- Hmid, (filter_unique_key mi_id _ m Hm Hmin). reflexivity.
Qed.

Lemma store_rep_integrity : ledger_integrity store_rep.
Proof.
  split; [|split].
  - simpl. repeat constructor; simpl; intuition discriminate.
  - simpl. repeat constructor; simpl; intuition discriminate.
  - intros oi Hoi. simpl in Hoi.
    destruct Hoi as [<- | [<- | [<- | []]]]; split; simpl;
      first [ solve [exists pizza; simpl; auto]
            | solve [exists burger; simpl; auto]
            | solve [exists (mkOrder 1 1 Pending 0 None 6748); simpl; auto]
            | solve [exists (mkOrder 2 1 Confirmed 0 None 2599); simpl; auto] ].
Qed.

Example getMenuItemReports_store_rep :
  getMenuItemReports store_rep
  = [mkMenuItemReport 1 "Pizza" 2 3 7797; mkMenuItemReport 2 "Burger" 1 1 1550].
Proof. vm_compute. reflexivity. Qed.

Lemma getMenuItemReports_groups_witness :
  ledger_integrity store_rep
  /\ (StronglySorted amount_ge (getMenuItemReports store_rep)
      /\ NoDup (map r_menu_item_id (getMenuItemReports store_rep))
      /\ (forall oi, In oi (order_items store_rep) ->
            In (oi_menu_item_id oi) (map r_menu_item_id (getMenuItemReports store_rep)))
      /\ (forall r, In r (getMenuItemReports store_rep) ->
            let g := filter (fun oi => oi_menu_item_id oi =? r_menu_item_id r)
                       (order_items store_rep) in
            g <> []
            /\ (exists m, In m (menu_items store_rep) /\ mi_id m = r_menu_item_id r
                          /\ mi_name m = r_menu_item_name r)
            /\ r_total_orders r = Z.of_nat (length (nodup Z.eq_dec (map oi_order_id g)))
            /\ r_total_quantity r = sumZ (map oi_quantity g)
            /\ r_total_amount r
               = sumZ (map (fun oi => oi_quantity oi * oi_price_at_order oi) g))).
Proof.
  split; [exact store_rep_integrity|].
  exact (getMenuItemReports_groups store_rep store_rep_integrity).
Defined.

(** ** What a failed [createOrder] leaves behind *)

Lemma next_write_failure_inv s0 s u mm o done rest :
  order_written s0 s -> failure_inv s0 s (next_write u mm o done rest).
Proof.
  intros H; destruct rest as [|l rest]; simpl; [exact H|].
  destruct (map_get mm (ol_menu_item_id l)); simpl; [exact H|].
  split; [discriminate | right; exact H].
Qed.

Lemma step_failure_inv f input s0 s p s' p' :
  failure_inv s0 s p -> step f input s p = (s', p') -> failure_inv s0 s' p'.
Proof.
  intros H E.
  destruct p; simpl in E;
    try (injection E as <- <-; exact H);
    (destruct f;
     [injection E as <- <-; split; [discriminate|];
      first [left; exact H | right; exact H] |]);
    simpl in H;
    repeat match type of E with
           | context [match ?x with _ => _ end] => destruct x eqn:?
           end;
    injection E as <- <-; simpl; auto;
    try (split; [discriminate | first [left; exact H | right; exact H]]).
  all: try (subst s; apply next_write_failure_inv; eexists; reflexivity).
  all: try (apply next_write_failure_inv; exact H).
  all: try (destruct H as [o' Ho]; exists o'; exact Ho).
Qed.

Lemma run_failure_inv flt k n input s0 s p s' p' :
  failure_inv s0 s p -> run flt k n input s p = (s', p') -> failure_inv s0 s' p'.
Proof.
  revert k s p. induction n as [|n IH]; intros k s p H E; simpl in E.
  - injection E as <- <-; exact H.
  - destruct (step (flt k) input s p) as [s1 p1] eqn:E1.
    exact (IH _ _ _ (step_failure_inv _ _ _ _ _ _ _ H E1) E).
Qed.

Lemma orders_app_neq (l : list Order) o : l ++ [o] <> l.
Proof.
  intros E. apply (f_equal (@length Order)) in E.
  rewrite length_app in E. simpl in E. lia.
Qed.

Lemma NoDup_map_inj {A B} (f : A -> B) (l : list A) x y :
  NoDup (map f l) -> In x l -> In y l -> f x = f y -> x = y.
Proof.
  induction l as [|z l IH]; intros Hd Hx Hy Hf; [destruct Hx|].
  inversion Hd as [|? ? Hz Hd']; subst.
  destruct Hx as [<- | Hx], Hy as [<- | Hy]; [reflexivity | | |].
  - exfalso. apply Hz. rewrite Hf. apply in_map. exact Hy.
  - exfalso. apply Hz. rewrite <- Hf. apply in_map. exact Hx.
  - exact (IH Hd' Hx Hy Hf).
Qed.

Lemma with_stock_twice m a b : with_stock (with_stock m a) b = with_stock m b.
Proof. reflexivity. Qed.

Lemma written_upto_start s0 input o :
  o_user_id o = ci_user_id input -> written_upto s0 input o [] [] (insert_order s0 o).
Proof.
  intros Hu. unfold written_upto. cbn [orders users departments order_items menu_items insert_order].
  split; [reflexivity|]. split; [exact Hu|]. split; [reflexivity|]. split; [reflexivity|].
  split; [exists []; rewrite app_nil_r; split; [reflexivity | split; [constructor | reflexivity]]|].
  intros _. unfold stock_written. simpl. symmetry. apply map_id.
Qed.

Lemma written_upto_item s0 input o pre dec s oi :
  written_upto s0 input o pre dec s -> oi_order_id oi = o_id o ->
  written_upto s0 input o (pre ++ [line_of oi]) dec (insert_order_item s oi).
Proof.
  intros [Ho [Hu [Hus [Hd [[items [Hi [Hf Hl]]] Hm]]]]] Hoi.
  unfold written_upto. cbn [orders users departments order_items menu_items insert_order_item].
  split; [exact Ho|]. split; [exact Hu|]. split; [exact Hus|]. split; [exact Hd|].
  split; [|exact Hm].
  exists (items ++ [oi]). split; [rewrite Hi, app_assoc; reflexivity|].
  split; [apply Forall_app; split; [exact Hf | constructor; [exact Hoi | constructor]]|].
  rewrite map_app, Hl. reflexivity.
Qed.

Lemma written_upto_stock s0 input o pre dec s mm l m :
  written_upto s0 input o pre dec s ->
  mm = select_menu_items_in s0 (line_ids input) -> map_get mm (ol_menu_item_id l) = Some m ->
  written_upto s0 input o pre (dec ++ [l])
    (set_stock s (ol_menu_item_id l) (mi_stock_quantity m - ol_quantity l)).
Proof.
  intros [Ho [Hu [Hus [Hd [Hi Hm]]]]] Hmm Hget.
  unfold written_upto. cbn [orders users departments order_items menu_items set_stock].
  split; [exact Ho|]. split; [exact Hu|]. split; [exact Hus|]. split; [exact Hd|].
  split; [exact Hi|].
  intros Hnd. rewrite (Hm Hnd). unfold stock_written. rewrite map_map.
  apply map_ext_in. intros x Hx. rewrite rev_app_distr. cbn [rev app find].
  assert (Hy : forall y : option OrderLine,
            mi_id (match y with
                   | Some ln => with_stock x (mi_stock_quantity x - ol_quantity ln)
                   | None => x end) = mi_id x) by (intros [ln|]; reflexivity).
  rewrite Hy. destruct (ol_menu_item_id l =? mi_id x) eqn:E.
  - rewrite Z.eqb_sym, E. apply Z.eqb_eq in E.
    apply map_get_in in Hget. destruct Hget as [Hin Hid]. subst mm. apply select_in in Hin.
    assert (m = x) as -> by (apply (NoDup_map_inj mi_id (menu_items s0)); auto; congruence).
    destruct (find _ (rev dec)); reflexivity.
  - rewrite Z.eqb_sym, E. reflexivity.
Qed.

Lemma partial_next_write s0 input s u mm o done pre rest :
  written_upto s0 input o pre pre s -> ci_order_items input = pre ++ rest ->
  mm = select_menu_items_in s0 (line_ids input) ->
  partial_inv s0 input s (next_write u mm o done rest).
Proof.
  intros Hw Hl Hmm. destruct rest as [|l rest]; simpl.
  - rewrite Hl, app_nil_r. exact Hw.
  - destruct (map_get mm (ol_menu_item_id l)) as [m|] eqn:G; simpl.
    + split; [exact Hmm|]. split; [exact G|]. exists pre. split; [exact Hl | exact Hw].
    + right. exists o, pre, (l :: rest), pre. split; [exact Hl|]. split; [left; reflexivity|].
      exact Hw.
Qed.

Lemma partial_inv_stop s0 input s p :
  partial_inv s0 input s p -> (forall r, p <> Returned r) -> s = s0 \/ partial_write s0 input s.
Proof.
  intros H Hp. destruct p as [| u | u mm total | u mm o done m l rest | u mm o done m l rest
                             | u o done | r | e]; simpl in H.
  - left; exact H.
  - left; exact H.
  - left; exact (proj1 H).
  - destruct H as [_ [_ [pre [Hl Hw]]]]. right. exists o, pre, (l :: rest), pre.
    split; [exact Hl|]. split; [left; reflexivity | exact Hw].
  - destruct H as [_ [_ [pre [Hl Hw]]]]. right. exists o, (pre ++ [l]), rest, pre.
    split; [rewrite Hl, <- app_assoc; reflexivity|].
    split; [right; exists l; reflexivity | exact Hw].
  - right. exists o, (ci_order_items input), [], (ci_order_items input).
    split; [rewrite app_nil_r; reflexivity|]. split; [left; reflexivity | exact H].
  - exfalso. exact (Hp r eq_refl).
  - exact H.
Qed.

Lemma line_of_item k oid l p : line_of (mkOrderItem k oid (ol_menu_item_id l) (ol_quantity l) p) = l.
Proof. destruct l; reflexivity. Qed.

Lemma step_partial_inv f input s0 s p s' p' :
  partial_inv s0 input s p -> step f input s p = (s', p') -> partial_inv s0 input s' p'.
Proof.
  intros H E.
  destruct p as [| u | u mm total | u mm o done m l rest | u mm o done m l rest
                | u o done | r | e];
    try (simpl in E; injection E as <- <-; exact H);
    (destruct f;
     [simpl in E; injection E as <- <-; apply (partial_inv_stop _ _ _ _ H);
      intros r; discriminate |]); simpl in H, E.
  - destruct (select_user s (ci_user_id input)); injection E as <- <-; simpl;
      [left|]; exact H.
  - destruct (negb _); [injection E as <- <-; left; exact H|].
    destruct (check_stock _ _ _); injection E as <- <-; simpl; [left; exact H|].
    split; [exact H | subst s; reflexivity].
  - destruct H as [-> Hmm]. destruct (_ && _); injection E as <- <-; [|left; reflexivity].
    apply (partial_next_write _ _ _ _ _ _ _ []); [|reflexivity|exact Hmm].
    apply written_upto_start. reflexivity.
  - destruct H as [Hmm [Hm [pre [Hl Hw]]]].
    destruct (existsb _ _); injection E as <- <-; simpl.
    + split; [exact Hmm|]. split; [exact Hm|]. exists pre. split; [exact Hl|].
      pose proof (written_upto_item _ _ _ _ _ _
                    (mkOrderItem (order_items_seq s) (o_id o) (ol_menu_item_id l)
                       (ol_quantity l) (mi_price m)) Hw eq_refl) as W.
      rewrite line_of_item in W. exact W.
    + right. exists o, pre, (l :: rest), pre. split; [exact Hl|].
      split; [left; reflexivity | exact Hw].
  - destruct H as [Hmm [Hm [pre [Hl Hw]]]]. injection E as <- <-.
    apply (partial_next_write _ _ _ _ _ _ _ (pre ++ [l])).
    + exact (written_upto_stock _ _ _ _ _ _ _ _ _ Hw Hmm Hm).
    + rewrite Hl, <- app_assoc. reflexivity.
    + exact Hmm.
  - destruct (hydrate _ _); injection E as <- <-; simpl; [exact I|].
    right. exists o, (ci_order_items input), [], (ci_order_items input).
    split; [rewrite app_nil_r; reflexivity|]. split; [left; reflexivity | exact H].
Qed.

Lemma run_partial_inv flt k n input s0 s p s' p' :
  partial_inv s0 input s p -> run flt k n input s p = (s', p') -> partial_inv s0 input s' p'.
Proof.
  revert k s p. induction n as [|n IH]; intros k s p H E; simpl in E.
  - injection E as <- <-; exact H.
  - destruct (step (flt k) input s p) as [s1 p1] eqn:E1.
    exact (IH _ _ _ (step_partial_inv _ _ _ _ _ _ _ H E1) E).
Qed.

(** C1 (counterexample): the stock decrement of the first line fails
    after the order and its first item are inserted; the call throws, and
    the order row and the order-item row stay in the store, with no stock
    change. *)
Lemma createOrder_partial_write :
  createOrder (fun k => Nat.eqb k 4) store0 order_a
  = (mkStore [u1] [] [pizza; burger]
       [mkOrder 1 1 Pending 0 (Some "Test order remarks") 6748]
       [mkOrderItem 1 1 1 2 2599] 2 2,
     inl DbError).
Proof. vm_compute. reflexivity. Qed.

(** C1 (amended): a failed [createOrder] returns its error, and is not
    atomic.  A failure the handler raises itself (user not found, menu
    items not found, insufficient stock) leaves the store unchanged, and so
    does every failure that leaves the order table unchanged.  Otherwise
    the store keeps exactly one new order of the input's user, an order
    item of that order for each line of a prefix [pre] of the input's
    lines, and the stock updates of all of [pre] or of all but its last
    line (the write that failed).  Users and departments are unchanged,
    the orders and order items before the call stay as they were, and, as
    menu-item ids are unique, the menu items differ from those before the
    call only in the stock the updates wrote. *)
Theorem createOrder_failure_effects flt s input s' e :
  createOrder flt s input = (s', inl e) ->
  (validation_error e = true -> s' = s)
  /\ (orders s' = orders s -> s' = s)
  /\ (s' = s \/ partial_write s input s').
Proof.
  unfold createOrder. intros H.
  destruct (run flt 0 (4 + 2 * length (ci_order_items input)) input s AwaitUser)
    as [s1 p] eqn:R.
  assert (I : failure_inv s s1 p)
    by (refine (run_failure_inv flt 0 _ input s s AwaitUser s1 p eq_refl R)).
  assert (J : partial_inv s input s1 p)
    by (refine (run_partial_inv flt 0 _ input s s AwaitUser s1 p eq_refl R)).
  injection H as <- He.
  assert (Hp : forall r, p <> Returned r) by (intros r ->; discriminate He).
  assert (D : (validation_error e = true -> s1 = s) /\ (s1 = s \/ order_written s s1)).
  { destruct p; simpl in I; try discriminate He; injection He as <-; try exact I;
      (split; [discriminate | first [left; exact I | right; exact I]]). }
  destruct D as [Dv Dw]. split; [exact Dv|]. split.
  - intros Ho. destruct Dw as [Dw | [o Dw]]; [exact Dw|].
    rewrite Ho in Dw. exfalso. exact (orders_app_neq _ _ (eq_sym Dw)).
  - exact (partial_inv_stop s input s1 p J Hp).
Qed.

Lemma createOrder_failure_effects_witness :
  createOrder (fun k => Nat.eqb k 4) store0 order_a
    = (fst (createOrder (fun k => Nat.eqb k 4) store0 order_a), inl DbError)
  /\ ((validation_error DbError = true
       -> fst (createOrder (fun k => Nat.eqb k 4) store0 order_a) = store0)
      /\ (orders (fst (createOrder (fun k => Nat.eqb k 4) store0 order_a)) = orders store0
          -> fst (createOrder (fun k => Nat.eqb k 4) store0 order_a) = store0)
      /\ (fst (createOrder (fun k => Nat.eqb k 4) store0 order_a) = store0
          \/ partial_write store0 order_a
                (fst (createOrder (fun k => Nat.eqb k 4) store0 order_a)))).
Proof.
  assert (E : createOrder (fun k => Nat.eqb k 4) store0 order_a
              = (fst (createOrder (fun k => Nat.eqb k 4) store0 order_a), inl DbError))
    by (vm_compute; reflexivity).
  split; [exact E|].
  exact (createOrder_failure_effects _ _ _ _ _ E).
Defined.

(** ** Stock under concurrent [createOrder] calls *)

Lemma check_stock_lines_ok mm lines acc t :
  check_stock mm lines acc = inr t -> lines_ok mm lines.
Proof.
  revert acc. induction lines as [|l rest IH]; intros acc H l' m' Hin Hm;
    [destruct Hin|].
  simpl in H. destruct (map_get mm (ol_menu_item_id l)) as [m|] eqn:Hg; [|discriminate].
  destruct (mi_stock_quantity m <? ol_quantity l) eqn:Hlt; [discriminate|].
  destruct Hin as [<- | Hin].
  - rewrite Hg in Hm. injection Hm as <-. apply Z.ltb_ge in Hlt. exact Hlt.
  - exact (IH _ H l' m' Hin Hm).
Qed.

Lemma lines_ok_tail mm l rest : lines_ok mm (l :: rest) -> lines_ok mm rest.
Proof. intros H l' m' Hin. apply H. right. exact Hin. Qed.

Lemma next_write_thread_ok input u mm o done rest :
  lines_ok mm rest -> thread_ok (input, next_write u mm o done rest).
Proof.
  intros H. destruct rest as [|l rest]; simpl; [exact I|].
  destruct (map_get mm (ol_menu_item_id l)) as [m|] eqn:Hg; simpl; [|exact I].
  split; [exact (H l m (or_introl eq_refl) Hg) | exact (lines_ok_tail _ _ _ H)].
Qed.

Lemma set_stock_nonneg s k q : 0 <= q -> stock_nonneg s -> stock_nonneg (set_stock s k q).
Proof.
  unfold stock_nonneg. intros Hq H. simpl. apply Forall_forall. intros m Hm.
  apply in_map_iff in Hm. destruct Hm as [m0 [<- Hm0]].
  destruct (mi_id m0 =? k); [exact Hq|].
  rewrite Forall_forall in H. exact (H m0 Hm0).
Qed.

Lemma step_stock_nonneg f input s p s' p' :
  thread_ok (input, p) -> stock_nonneg s -> step f input s p = (s', p') ->
  thread_ok (input, p') /\ stock_nonneg s'.
Proof.
  intros Ht Hs E.
  destruct p; simpl in E;
    try (injection E as <- <-; split; [exact Ht | exact Hs]);
    (destruct f; [injection E as <- <-; split; [exact I | exact Hs] |]);
    simpl in Ht;
    repeat match type of E with
           | context [match ?x with _ => _ end] => destruct x eqn:?
           end;
    injection E as <- <-; try (split; [exact I | exact Hs]).
  - split; [exact (check_stock_lines_ok _ _ _ _ Heqs0) | exact Hs].
  - split; [exact (next_write_thread_ok _ _ _ _ _ _ Ht) | exact Hs].
  - split; [exact Ht | exact Hs].
  - destruct Ht as [Hq Hr]. split; [exact (next_write_thread_ok _ _ _ _ _ _ Hr)|].
    apply set_stock_nonneg; [lia | exact Hs].
Qed.

Lemma list_set_Forall {A} (P : A -> Prop) (l : list A) i x :
  Forall P l -> P x -> Forall P (list_set l i x).
Proof.
  revert i. induction l as [|y l IH]; intros i Hl Hx; [constructor|].
  inversion Hl as [|? ? Hy Hl']; subst.
  destruct i as [|i]; simpl; constructor; auto.
Qed.

Lemma run_sched_stock_nonneg sched s ts s' ts' :
  Forall thread_ok ts -> stock_nonneg s -> run_sched sched s ts = (s', ts') ->
  Forall thread_ok ts' /\ stock_nonneg s'.
Proof.
  revert s ts. induction sched as [|i sched IH]; intros s ts Ht Hs E; simpl in E.
  - injection E as <- <-. split; [exact Ht | exact Hs].
  - destruct (nth_error ts i) as [[input p]|] eqn:Hn; [|exact (IH _ _ Ht Hs E)].
    destruct (step false input s p) as [s1 p1] eqn:E1.
    assert (Hp : thread_ok (input, p)).
    { rewrite Forall_forall in Ht. apply Ht. exact (nth_error_In _ _ Hn). }
    destruct (step_stock_nonneg _ _ _ _ _ _ Hp Hs E1) as [Hp1 Hs1].
    exact (IH _ _ (list_set_Forall _ _ _ _ Ht Hp1) Hs1 E).
Qed.

Lemma spawn_thread_ok inputs : Forall thread_ok (spawn inputs).
Proof.
  unfold spawn. induction inputs as [|i l IH]; simpl; constructor; [exact I | exact IH].
Qed.

(** C2 (counterexample): two calls for one cookie each, against a stock of
    one, both read the stock before either writes it; both return an
    order, and the stock ends at [0]. *)
Lemma concurrent_orders_oversell :
  match run_sched alternate store_scarce (spawn [one_cookie; one_cookie]) with
  | (s', [(_, Returned r1); (_, Returned r2)]) =>
      menu_items s' = [with_stock cookie 0]
      /\ map o_id (orders s') = [1; 2]
      /\ map oi_quantity (order_items s') = [1; 1]
  | _ => False
  end.
Proof. vm_compute. split; [reflexivity | split; reflexivity]. Qed.

(** C2 (amended): whatever the interleaving of concurrent [createOrder]
    calls, no stock falls below zero when none did before: each call
    writes the stock it read minus a quantity it checked against that
    read. *)
Theorem concurrent_createOrder_stock_nonneg sched s inputs s' ts :
  stock_nonneg s ->
  run_sched sched s (spawn inputs) = (s', ts) ->
  stock_nonneg s'.
Proof.
  intros Hs E.
  exact (proj2 (run_sched_stock_nonneg _ _ _ _ _ (spawn_thread_ok inputs) Hs E)).
Qed.

Lemma concurrent_createOrder_stock_nonneg_witness :
  stock_nonneg store_scarce
  /\ run_sched alternate store_scarce (spawn [one_cookie; one_cookie])
     = (fst (run_sched alternate store_scarce (spawn [one_cookie; one_cookie])),
        snd (run_sched alternate store_scarce (spawn [one_cookie; one_cookie])))
  /\ stock_nonneg (fst (run_sched alternate store_scarce (spawn [one_cookie; one_cookie]))).
Proof.
  assert (Hs : stock_nonneg store_scarce)
    by (unfold stock_nonneg; simpl; repeat constructor; simpl; lia).
  assert (E : run_sched alternate store_scarce (spawn [one_cookie; one_cookie])
     = (fst (run_sched alternate store_scarce (spawn [one_cookie; one_cookie])),
        snd (run_sched alternate store_scarce (spawn [one_cookie; one_cookie]))))
    by (vm_compute; reflexivity).
  split; [exact Hs | split; [exact E|]].
  exact (concurrent_createOrder_stock_nonneg _ _ _ _ _ Hs E).
Defined.

(** ** User and department handlers *)

(** Rewriting the rows of one key keeps a column unique, when no other row
    holds the new value. *)
Lemma NoDup_map_update {A B} (key : A -> Z) (f : A -> B) (upd : A -> A) k (l : list A) :
  NoDup (map key l) -> NoDup (map f l) -> (forall x, key (upd x) = key x) ->
  (forall x y, In x l -> In y l -> key x = k -> key y <> k -> f y <> f (upd x)) ->
  NoDup (map f (map (fun x => if key x =? k then upd x else x) l)).
Proof.
  intros Hk Hf Hu Hn. induction l as [|x l IH]; simpl; [constructor|].
  inversion Hk as [|? ? Hxk Hk']; subst. inversion Hf as [|? ? Hxf Hf']; subst.
  constructor.
  - intros Hin. rewrite map_map in Hin. apply in_map_iff in Hin.
    destruct Hin as [y [Hy Hyl]].
    destruct (key x =? k) eqn:Ex; destruct (key y =? k) eqn:Ey;
      apply Z.eqb_eq in Ex || apply Z.eqb_neq in Ex;
      apply Z.eqb_eq in Ey || apply Z.eqb_neq in Ey.
    + apply Hxk. rewrite Ex, <- Ey. apply in_map. exact Hyl.
    + exact (Hn x y (or_introl eq_refl) (or_intror Hyl) Ex Ey Hy).
    + exact (Hn y x (or_intror Hyl) (or_introl eq_refl) Ey Ex (eq_sym Hy)).
    + apply Hxf. rewrite <- Hy. apply in_map. exact Hyl.
  - apply IH; [exact Hk' | exact Hf'|].
    intros x' y' Hx' Hy'. apply Hn; right; assumption.
Qed.

Lemma filter_head_in {A} (f : A -> bool) (l : list A) x rest :
  filter f l = x :: rest -> In x l /\ f x = true.
Proof.
  intros H. assert (Hx : In x (filter f l)) by (rewrite H; left; reflexivity).
  apply filter_In in Hx. exact Hx.
Qed.

Lemma filter_nil_none {A} (f : A -> bool) (l : list A) :
  filter f l = [] -> forall x, In x l -> f x = false.
Proof.
  intros H x Hx. destruct (f x) eqn:E; [|reflexivity].
  assert (Hin : In x (filter f l)) by (apply filter_In; split; assumption).
  rewrite H in Hin. destruct Hin.
Qed.

(** [loginUser] answers [null] exactly when no user has the contact
    number, and otherwise a stored user with that contact number. *)
Theorem loginUser_spec s c :
  (loginUser s c = None <-> forall u, In u (users s) -> u_contact_number u <> c)
  /\ (forall u, loginUser s c = Some u -> In u (users s) /\ u_contact_number u = c).
Proof.
  unfold loginUser. split.
  - destruct (filter _ (users s)) as [|u rest] eqn:E; split; intros H.
    + intros u Hu Hc. pose proof (filter_nil_none _ _ E u Hu) as F.
      simpl in F. rewrite Hc, String.eqb_refl in F. discriminate.
    + reflexivity.
    + discriminate.
    + exfalso. destruct (filter_head_in _ _ _ _ E) as [Hu Hc].
      apply String.eqb_eq in Hc. exact (H u Hu Hc).
  - intros u H. destruct (filter _ (users s)) as [|u' rest] eqn:E; [discriminate|].
    injection H as <-. destruct (filter_head_in _ _ _ _ E) as [Hu Hc].
    apply String.eqb_eq in Hc. split; assumption.
Qed.


(** With contact numbers unique (users.contact_number is [unique()]),
    [loginUser] returns the one user holding the contact number. *)
Theorem loginUser_unique s u :
  NoDup (map u_contact_number (users s)) -> In u (users s) ->
  loginUser s (u_contact_number u) = Some u.
Proof.
  intros Hd Hu. unfold loginUser.
  destruct (filter _ (users s)) as [|u' rest] eqn:E.
  - pose proof (filter_nil_none _ _ E u Hu) as F. simpl in F.
    rewrite String.eqb_refl in F. discriminate.
  - destruct (filter_head_in _ _ _ _ E) as [Hu' Hc]. apply String.eqb_eq in Hc.
    f_equal. exact (NoDup_map_inj _ _ _ _ Hd Hu' Hu Hc).
Qed.

Lemma loginUser_unique_witness :
  NoDup (map u_contact_number (users store_staff)) /\ In u2 (users store_staff)
  /\ loginUser store_staff (u_contact_number u2) = Some u2.
Proof.
  assert (Hd : NoDup (map u_contact_number (users store_staff)))
    by (simpl; repeat constructor; simpl; intuition discriminate).
  assert (Hu : In u2 (users store_staff)) by (simpl; auto).
  split; [exact Hd | split; [exact Hu|]].
  exact (loginUser_unique store_staff u2 Hd Hu).
Defined.

(** [updateUser] on an id no user has throws and changes nothing. *)
Theorem updateUser_missing s inp :
  (forall u, In u (users s) -> u_id u <> uu_id inp) ->
  exists e, updateUser s inp = (s, inl e).
Proof.
  intros H. unfold updateUser. destruct (user_update_empty inp); [eexists; reflexivity|].
  rewrite filter_none_id_nil; [eexists; reflexivity|].
  intros u Hu. apply Z.eqb_neq. exact (H u Hu).
Qed.

Lemma updateUser_missing_witness :
  (forall u, In u (users store_staff) -> u_id u <> 7)
  /\ exists e, updateUser store_staff (mkUpdateUserInput 7 (Some "X") None None None)
               = (store_staff, inl e).
Proof.
  assert (H : forall u, In u (users store_staff) -> u_id u <> 7).
  { intros u Hu. simpl in Hu. destruct Hu as [<- | [<- | []]]; simpl; lia. }
  split; [exact H|].
  exact (updateUser_missing store_staff (mkUpdateUserInput 7 (Some "X") None None None) H).
Defined.

(** A successful [updateUser] rewrites the user with the input's id by the
    given fields, keeps every other user and every other table, keeps the
    ids, and keeps contact numbers unique. *)
Theorem updateUser_success s inp s' u :
  NoDup (map u_id (users s)) -> NoDup (map u_contact_number (users s)) ->
  updateUser s inp = (s', inr u) ->
  (exists u0, In u0 (users s) /\ u_id u0 = uu_id inp /\ u = apply_user_update inp u0
              /\ In u (users s'))
  /\ (forall x, In x (users s) -> u_id x <> uu_id inp -> In x (users s'))
  /\ map u_id (users s') = map u_id (users s)
  /\ NoDup (map u_contact_number (users s'))
  /\ departments s' = departments s /\ menu_items s' = menu_items s
  /\ orders s' = orders s /\ order_items s' = order_items s.
Proof.
  intros Hid Hc E. unfold updateUser in E.
  destruct (user_update_empty inp); [discriminate|].
  destruct (filter _ (users s)) as [|u1' rest] eqn:F; [discriminate|].
  destruct (match uu_contact_number inp with
            | Some c => existsb (fun u => negb (u_id u =? uu_id inp)
                                         && String.eqb (u_contact_number u) c) (users s)
            | None => false end) eqn:U; [discriminate|].
  set (us' := map (fun x => if u_id x =? uu_id inp then apply_user_update inp x else x)
                  (users s)) in E.
  cbn [users] in E.
  destruct (filter (fun x => u_id x =? uu_id inp) us') as [|u' rest'] eqn:F'; [discriminate|].
  injection E as <- <-. simpl.
  assert (Hids : map u_id us' = map u_id (users s)).
  { unfold us'. rewrite map_map. apply map_ext. intros x. destruct (u_id x =? uu_id inp); reflexivity. }
  split; [|split; [|split; [exact Hids|split; [|repeat split]]]].
  - destruct (filter_head_in _ _ _ _ F') as [Hu' Hk]. apply Z.eqb_eq in Hk.
    unfold us' in Hu'. apply in_map_iff in Hu'. destruct Hu' as [x [Hx Hxin]].
    destruct (u_id x =? uu_id inp) eqn:Ex.
    + apply Z.eqb_eq in Ex. exists x. split; [exact Hxin|split; [exact Ex|split; [symmetry; exact Hx|]]].
      destruct (filter_head_in _ _ _ _ F') as [Hu'' _]. exact Hu''.
    + exfalso. subst u'. apply Z.eqb_neq in Ex. exact (Ex Hk).
  - intros x Hx Hne. unfold us'. apply in_map_iff. exists x. split; [|exact Hx].
    apply Z.eqb_neq in Hne. rewrite Hne. reflexivity.
  - unfold us'. apply NoDup_map_update; [exact Hid | exact Hc | reflexivity |].
    intros x y Hx Hy Ekx Eky. simpl.
    destruct (uu_contact_number inp) as [c|] eqn:Ec; simpl.
    + intros Heq. assert (Hex : existsb (fun u => negb (u_id u =? uu_id inp)
                                         && String.eqb (u_contact_number u) c) (users s) = true).
      { apply existsb_exists. exists y. split; [exact Hy|].
        apply andb_true_intro. split.
        - apply negb_true_iff. apply Z.eqb_neq. exact Eky.
        - apply String.eqb_eq. exact Heq. }
      rewrite U in Hex. discriminate.
    + intros Heq. apply Eky. rewrite <- Ekx.
      f_equal. exact (NoDup_map_inj _ _ _ _ Hc Hy Hx Heq).
Qed.

Lemma updateUser_success_witness :
  NoDup (map u_id (users store_staff)) /\ NoDup (map u_contact_number (users store_staff))
  /\ updateUser store_staff (mkUpdateUserInput 2 None (Some "5550002") None None)
     = (fst (updateUser store_staff (mkUpdateUserInput 2 None (Some "5550002") None None)),
        inr (mkUser 2 "Admin User" "5550002" "HR" Admin))
  /\ ((exists u0, In u0 (users store_staff) /\ u_id u0 = 2
        /\ mkUser 2 "Admin User" "5550002" "HR" Admin
           = apply_user_update (mkUpdateUserInput 2 None (Some "5550002") None None) u0
        /\ In (mkUser 2 "Admin User" "5550002" "HR" Admin)
              (users (fst (updateUser store_staff
                             (mkUpdateUserInput 2 None (Some "5550002") None None)))))
      /\ (forall x, In x (users store_staff) -> u_id x <> 2 ->
            In x (users (fst (updateUser store_staff
                                (mkUpdateUserInput 2 None (Some "5550002") None None)))))
      /\ map u_id (users (fst (updateUser store_staff
                                 (mkUpdateUserInput 2 None (Some "5550002") None None))))
         = map u_id (users store_staff)
      /\ NoDup (map u_contact_number
                  (users (fst (updateUser store_staff
                                 (mkUpdateUserInput 2 None (Some "5550002") None None)))))
      /\ departments (fst (updateUser store_staff
                            (mkUpdateUserInput 2 None (Some "5550002") None None)))
         = departments store_staff
      /\ menu_items (fst (updateUser store_staff
                           (mkUpdateUserInput 2 None (Some "5550002") None None)))
         = menu_items store_staff
      /\ orders (fst (updateUser store_staff
                       (mkUpdateUserInput 2 None (Some "5550002") None None)))
         = orders store_staff
      /\ order_items (fst (updateUser store_staff
                            (mkUpdateUserInput 2 None (Some "5550002") None None)))
         = order_items store_staff).
Proof.
  assert (H1 : NoDup (map u_id (users store_staff)))
    by (simpl; repeat constructor; simpl; intuition discriminate).
  assert (H2 : NoDup (map u_contact_number (users store_staff)))
    by (simpl; repeat constructor; simpl; intuition discriminate).
  assert (E : updateUser store_staff (mkUpdateUserInput 2 None (Some "5550002") None None)
     = (fst (updateUser store_staff (mkUpdateUserInput 2 None (Some "5550002") None None)),
        inr (mkUser 2 "Admin User" "5550002" "HR" Admin))) by (vm_compute; reflexivity).
  split; [exact H1 | split; [exact H2 | split; [exact E|]]].
  exact (updateUser_success _ _ _ _ H1 H2 E).
Defined.



Lemma filter_unique_id_dept (l : list Department) d :
  NoDup (map d_id l) -> In d l ->
  exists rest, filter (fun x => d_id x =? d_id d) l = d :: rest.
Proof.
  intros Hd Hin. induction l as [|x l IH]; [destruct Hin|].
  inversion Hd as [|? ? Hx Hd']; subst. simpl.
  destruct Hin as [<- | Hin].
  - rewrite Z.eqb_refl. eexists; reflexivity.
  - destruct (d_id x =? d_id d) eqn:E.
    + apply Z.eqb_eq in E. exfalso. apply Hx. rewrite E. apply in_map. exact Hin.
    + exact (IH Hd' Hin).
Qed.

Lemma department_eta d : mkDepartment (d_id d) (d_name d) = d.
Proof. destruct d; reflexivity. Qed.

(** With ids and names unique, [updateDepartment] with no name, or with the
    department's current name, returns the department and changes
    nothing: the unique check on the name skips the row itself. *)
Theorem updateDepartment_same_name s d name :
  NoDup (map d_id (departments s)) -> NoDup (map d_name (departments s)) ->
  In d (departments s) -> name = None \/ name = Some (d_name d) ->
  updateDepartment s (mkUpdateDepartmentInput (d_id d) name) = (s, inr d).
Proof.
  intros Hid Hn Hd Hname. unfold updateDepartment. simpl.
  destruct (filter_unique_id_dept _ _ Hid Hd) as [rest E]. rewrite E.
  destruct Hname as [-> | ->]; [reflexivity|].
  assert (Hno : existsb (fun x => negb (d_id x =? d_id d) && String.eqb (d_name x) (d_name d))
                        (departments s) = false).
  { apply Bool.not_true_iff_false. intros Hex. apply existsb_exists in Hex.
    destruct Hex as [x [Hx Hc]]. apply andb_prop in Hc. destruct Hc as [Hi Hc].
    apply String.eqb_eq in Hc. apply negb_true_iff, Z.eqb_neq in Hi.
    apply Hi. f_equal. exact (NoDup_map_inj _ _ _ _ Hn Hx Hd Hc). }
  rewrite Hno.
  assert (Hm : map (fun x => if d_id x =? d_id d then mkDepartment (d_id x) (d_name d) else x)
                   (departments s) = departments s).
  { rewrite <- (map_id (departments s)) at 2. apply map_ext_in. intros x Hx.
    destruct (d_id x =? d_id d) eqn:Ex; [|reflexivity].
    apply Z.eqb_eq in Ex.
    assert (x = d) as -> by exact (NoDup_map_inj _ _ _ _ Hid Hx Hd Ex).
    exact (department_eta d). }
  rewrite Hm, set_departments_same. rewrite E. reflexivity.
Qed.

Lemma updateDepartment_same_name_witness :
  NoDup (map d_id (departments store_staff)) /\ NoDup (map d_name (departments store_staff))
  /\ In (mkDepartment 2 "HR") (departments store_staff)
  /\ (Some "HR" = None \/ Some "HR" = Some (d_name (mkDepartment 2 "HR")))
  /\ updateDepartment store_staff (mkUpdateDepartmentInput (d_id (mkDepartment 2 "HR")) (Some "HR"))
     = (store_staff, inr (mkDepartment 2 "HR")).
Proof.
  assert (H1 : NoDup (map d_id (departments store_staff)))
    by (simpl; repeat constructor; simpl; intuition discriminate).
  assert (H2 : NoDup (map d_name (departments store_staff)))
    by (simpl; repeat constructor; simpl; intuition discriminate).
  assert (H3 : In (mkDepartment 2 "HR") (departments store_staff)) by (simpl; auto).
  assert (H4 : Some "HR" = None \/ Some "HR" = Some (d_name (mkDepartment 2 "HR")))
    by (right; reflexivity).
  split; [exact H1 | split; [exact H2 | split; [exact H3 | split; [exact H4|]]]].
  exact (updateDepartment_same_name _ _ _ H1 H2 H3 H4).
Defined.

(** A successful [updateDepartment] keeps the ids and the other
    departments, gives the department the new name when one is given, and
    keeps department names unique. *)
Theorem updateDepartment_success s inp s' d :
  NoDup (map d_id (departments s)) -> NoDup (map d_name (departments s)) ->
  updateDepartment s inp = (s', inr d) ->
  d_id d = ud_id inp /\ In d (departments s')
  /\ (forall n, ud_name inp = Some n -> d_name d = n)
  /\ (forall x, In x (departments s) -> d_id x <> ud_id inp -> In x (departments s'))
  /\ map d_id (departments s') = map d_id (departments s)
  /\ NoDup (map d_name (departments s'))
  /\ users s' = users s /\ menu_items s' = menu_items s
  /\ orders s' = orders s /\ order_items s' = order_items s.
Proof.
  intros Hid Hn E. unfold updateDepartment in E.
  destruct (filter _ (departments s)) as [|d0 rest] eqn:F; [discriminate|].
  destruct (ud_name inp) as [n|] eqn:Hname.
  - destruct (existsb _ (departments s)) eqn:U; [discriminate|].
    set (ds := map (fun x => if d_id x =? ud_id inp then mkDepartment (d_id x) n else x)
                   (departments s)) in E.
    cbn [departments set_departments] in E.
    destruct (filter (fun x => d_id x =? ud_id inp) ds) as [|d' rest'] eqn:F'; [discriminate|].
    injection E as <- <-. cbn [departments set_departments users menu_items orders order_items].
    destruct (filter_head_in _ _ _ _ F') as [Hd' Hk]. apply Z.eqb_eq in Hk.
    assert (Hin : exists x, In x (departments s) /\ d_id x = ud_id inp /\ d' = mkDepartment (d_id x) n).
    { unfold ds in Hd'. apply in_map_iff in Hd'. destruct Hd' as [x [Hx Hxin]].
      destruct (d_id x =? ud_id inp) eqn:Ex.
      - apply Z.eqb_eq in Ex. exists x. auto.
      - subst d'. apply Z.eqb_neq in Ex. contradiction. }
    destruct Hin as [x [Hx [Hxk ->]]].
    split; [exact Hk|]. split; [exact Hd'|]. split.
    { intros n' Hn'. injection Hn' as <-. reflexivity. }
    split.
    { intros y Hy Hne. unfold ds. apply in_map_iff. exists y. split; [|exact Hy].
      apply Z.eqb_neq in Hne. rewrite Hne. reflexivity. }
    split.
    { unfold ds. rewrite map_map. rewrite <- (map_id (map d_id (departments s))), map_map.
      apply map_ext. intros y. destruct (d_id y =? ud_id inp); reflexivity. }
    split; [|repeat split].
    unfold ds. apply NoDup_map_update with (upd := fun x => mkDepartment (d_id x) n);
      [exact Hid | exact Hn | reflexivity |].
    intros a b Ha Hb Eka Ekb. simpl. intros Heq.
    assert (Hex : existsb (fun x => negb (d_id x =? ud_id inp) && String.eqb (d_name x) n)
                          (departments s) = true).
    { apply existsb_exists. exists b. split; [exact Hb|].
      apply andb_true_intro. split.
      - apply negb_true_iff, Z.eqb_neq. exact Ekb.
      - apply String.eqb_eq. exact Heq. }
    rewrite U in Hex. discriminate.
  - injection E as <- <-.
    destruct (filter_head_in _ _ _ _ F) as [Hd Hk]. apply Z.eqb_eq in Hk.
    split; [exact Hk|]. split; [exact Hd|]. split; [intros n Hn'; discriminate|].
    split; [intros x Hx _; exact Hx|]. repeat split. exact Hn.
Qed.

Lemma updateDepartment_success_witness :
  NoDup (map d_id (departments store_staff)) /\ NoDup (map d_name (departments store_staff))
  /\ updateDepartment store_staff (mkUpdateDepartmentInput 1 (Some "Engineering"))
     = (set_departments store_staff [mkDepartment 1 "Engineering"; mkDepartment 2 "HR"],
        inr (mkDepartment 1 "Engineering"))
  /\ (let s' := set_departments store_staff [mkDepartment 1 "Engineering"; mkDepartment 2 "HR"] in
      let d := mkDepartment 1 "Engineering" in
      let inp := mkUpdateDepartmentInput 1 (Some "Engineering") in
      d_id d = ud_id inp /\ In d (departments s')
      /\ (forall n, ud_name inp = Some n -> d_name d = n)
      /\ (forall x, In x (departments store_staff) -> d_id x <> ud_id inp -> In x (departments s'))
      /\ map d_id (departments s') = map d_id (departments store_staff)
      /\ NoDup (map d_name (departments s'))
      /\ users s' = users store_staff /\ menu_items s' = menu_items store_staff
      /\ orders s' = orders store_staff /\ order_items s' = order_items store_staff).
Proof.
  assert (H1 : NoDup (map d_id (departments store_staff)))
    by (simpl; repeat constructor; simpl; intuition discriminate).
  assert (H2 : NoDup (map d_name (departments store_staff)))
    by (simpl; repeat constructor; simpl; intuition discriminate).
  assert (E : updateDepartment store_staff (mkUpdateDepartmentInput 1 (Some "Engineering"))
     = (set_departments store_staff [mkDepartment 1 "Engineering"; mkDepartment 2 "HR"],
        inr (mkDepartment 1 "Engineering"))) by (vm_compute; reflexivity).
  split; [exact H1 | split; [exact H2 | split; [exact E|]]].
  exact (updateDepartment_success _ _ _ _ H1 H2 E).
Defined.

(** [createDepartment] with a name already in use throws (the unique
    constraint) and changes nothing; otherwise it appends one department,
    and names stay unique. *)
Theorem createDepartment_names next_id s name :
  NoDup (map d_name (departments s)) ->
  ((exists d, In d (departments s) /\ d_name d = name) ->
     createDepartment next_id s name = (s, inl UniqueViolation))
  /\ ((forall d, In d (departments s) -> d_name d <> name) ->
     createDepartment next_id s name
     = (set_departments s (departments s ++ [mkDepartment next_id name]),
        inr (mkDepartment next_id name))
     /\ NoDup (map d_name (departments s ++ [mkDepartment next_id name]))).
Proof.
  intros Hn. unfold createDepartment. split.
  - intros [d [Hd Hdn]].
    replace (existsb _ (departments s)) with true; [reflexivity|].
    symmetry. apply existsb_exists. exists d. split; [exact Hd | apply String.eqb_eq; exact Hdn].
  - intros Hf.
    replace (existsb _ (departments s)) with false.
    2:{ symmetry. apply Bool.not_true_iff_false. intros Hex. apply existsb_exists in Hex.
        destruct Hex as [d [Hd Hdn]]. apply String.eqb_eq in Hdn. exact (Hf d Hd Hdn). }
    split; [reflexivity|].
    rewrite map_app. simpl. apply NoDup_app; [exact Hn | repeat constructor; simpl; tauto |].
    intros x Hx [Hy | []]. subst x. apply in_map_iff in Hx. destruct Hx as [d [Hd Hdin]].
    exact (Hf d Hdin Hd).
Qed.

Lemma createDepartment_names_witness :
  NoDup (map d_name (departments store_staff))
  /\ ((exists d, In d (departments store_staff) /\ d_name d = "HR") ->
       createDepartment 3 store_staff "HR" = (store_staff, inl UniqueViolation))
  /\ ((forall d, In d (departments store_staff) -> d_name d <> "HR") ->
       createDepartment 3 store_staff "HR"
       = (set_departments store_staff (departments store_staff ++ [mkDepartment 3 "HR"]),
          inr (mkDepartment 3 "HR"))
       /\ NoDup (map d_name (departments store_staff ++ [mkDepartment 3 "HR"]))).
Proof.
  assert (H : NoDup (map d_name (departments store_staff)))
    by (simpl; repeat constructor; simpl; intuition discriminate).
  split; [exact H|].
  exact (createDepartment_names 3 store_staff "HR" H).
Defined.

(** Creating a department under a fresh id and a fresh name, then
    deleting that id, gives back the store, with [success: true]. *)
Theorem createDepartment_deleteDepartment next_id s name s' d :
  (forall x, In x (departments s) -> d_id x <> next_id) ->
  createDepartment next_id s name = (s', inr d) ->
  d_id d = next_id /\ deleteDepartment s' next_id = (s, true).
Proof.
  intros Hf E. unfold createDepartment in E.
  destruct (existsb _ (departments s)); [discriminate|].
  injection E as <- <-. split; [reflexivity|].
  unfold deleteDepartment. simpl. rewrite !filter_app. simpl. rewrite Z.eqb_refl. simpl.
  rewrite (filter_none_id_nil (fun x => d_id x =? next_id)).
  2:{ intros x Hx. apply Z.eqb_neq. exact (Hf x Hx). }
  rewrite (filter_none_id (fun x => negb (d_id x =? next_id))).
  2:{ intros x Hx. apply negb_true_iff, Z.eqb_neq. exact (Hf x Hx). }
  rewrite app_nil_r. destruct s; reflexivity.
Qed.

Lemma createDepartment_deleteDepartment_witness :
  (forall x, In x (departments store_staff) -> d_id x <> 3)
  /\ createDepartment 3 store_staff "Finance"
     = (set_departments store_staff (departments store_staff ++ [mkDepartment 3 "Finance"]),
        inr (mkDepartment 3 "Finance"))
  /\ d_id (mkDepartment 3 "Finance") = 3
  /\ deleteDepartment (set_departments store_staff
                         (departments store_staff ++ [mkDepartment 3 "Finance"])) 3
     = (store_staff, true).
Proof.
  assert (H : forall x, In x (departments store_staff) -> d_id x <> 3).
  { intros x Hx. simpl in Hx. destruct Hx as [<- | [<- | []]]; simpl; lia. }
  assert (E : createDepartment 3 store_staff "Finance"
     = (set_departments store_staff (departments store_staff ++ [mkDepartment 3 "Finance"]),
        inr (mkDepartment 3 "Finance"))) by (vm_compute; reflexivity).
  split; [exact H | split; [exact E|]].
  exact (createDepartment_deleteDepartment _ _ _ _ _ H E).
Defined.

(** ** Menu-item handlers *)



(** A successful [updateMenuItem] writes the given fields into the item
    with the input's id and returns that row; every other item, the ids,
    and the other tables stay as they were. *)
Theorem updateMenuItem_success s inp s' m :
  updateMenuItem s inp = (s', inr m) ->
  (exists m0, In m0 (menu_items s) /\ mi_id m0 = umi_id inp
              /\ m = apply_menu_item_update inp m0 /\ In m (menu_items s'))
  /\ (forall x, In x (menu_items s) -> mi_id x <> umi_id inp -> In x (menu_items s'))
  /\ map mi_id (menu_items s') = map mi_id (menu_items s)
  /\ users s' = users s /\ departments s' = departments s
  /\ orders s' = orders s /\ order_items s' = order_items s.
Proof.
  intros E. unfold updateMenuItem in E.
  destruct (filter _ (menu_items s)) as [|m0 rest] eqn:F; [discriminate|].
  destruct (negb _); [discriminate|].
  cbn [menu_items set_menu_items] in E.
  set (l := map (fun m => if mi_id m =? umi_id inp then apply_menu_item_update inp m else m)
                (menu_items s)) in E.
  destruct (filter (fun m => mi_id m =? umi_id inp) l) as [|m1 rest1] eqn:F1; [discriminate|].
  injection E as <- <-. cbn [menu_items set_menu_items users departments orders order_items].
  destruct (filter_head_in _ _ _ _ F1) as [Hm1 Hk]. apply Z.eqb_eq in Hk.
  split; [|split; [|split; [|repeat split]]].
  - unfold l in Hm1. pose proof Hm1 as Hm1'. apply in_map_iff in Hm1. destruct Hm1 as [x [Hx Hxin]].
    destruct (mi_id x =? umi_id inp) eqn:Ex.
    + apply Z.eqb_eq in Ex. exists x. repeat split; auto.
    + subst m1. apply Z.eqb_neq in Ex. contradiction.
  - intros x Hx Hne. unfold l. apply in_map_iff. exists x. split; [|exact Hx].
    apply Z.eqb_neq in Hne. rewrite Hne. reflexivity.
  - unfold l. rewrite map_map. apply map_ext. intros x. destruct (mi_id x =? umi_id inp); reflexivity.
Qed.

Lemma updateMenuItem_success_witness :
  updateMenuItem store0 (mkUpdateMenuItemInput 2 None (Some 1800) None None None None)
  = (set_menu_items store0 [pizza; mkMenuItem 2 "Burger" 1800 (Some "Tasty burger") None "Food" 5],
     inr (mkMenuItem 2 "Burger" 1800 (Some "Tasty burger") None "Food" 5))
  /\ (exists m0, In m0 (menu_items store0) /\ mi_id m0 = 2
        /\ mkMenuItem 2 "Burger" 1800 (Some "Tasty burger") None "Food" 5
           = apply_menu_item_update (mkUpdateMenuItemInput 2 None (Some 1800) None None None None) m0
        /\ In (mkMenuItem 2 "Burger" 1800 (Some "Tasty burger") None "Food" 5)
              [pizza; mkMenuItem 2 "Burger" 1800 (Some "Tasty burger") None "Food" 5]).
Proof.
  assert (E : updateMenuItem store0 (mkUpdateMenuItemInput 2 None (Some 1800) None None None None)
    = (set_menu_items store0 [pizza; mkMenuItem 2 "Burger" 1800 (Some "Tasty burger") None "Food" 5],
       inr (mkMenuItem 2 "Burger" 1800 (Some "Tasty burger") None "Food" 5)))
    by (vm_compute; reflexivity).
  split; [exact E|].
  exact (proj1 (updateMenuItem_success _ _ _ _ E)).
Defined.


(** [deleteMenuItem] keeps the store's keys and foreign keys: an item
    still referenced is never removed. *)
Theorem deleteMenuItem_keeps_integrity s id :
  ledger_integrity s -> ledger_integrity (fst (deleteMenuItem s id)).
Proof.
  intros [Hm [Ho Hfk]]. unfold deleteMenuItem.
  destruct (filter (fun m => mi_id m =? id) (menu_items s)) as [|m0 l0]; [split; auto|].
  destruct (existsb (fun oi => oi_menu_item_id oi =? id) (order_items s)) eqn:X; [split; auto|].
  simpl. split; [|split; [exact Ho|]].
  - clear -Hm. induction (menu_items s) as [|m l IH]; simpl; [constructor|].
    inversion Hm as [|? ? Hx Hl]; subst.
    destruct (negb (mi_id m =? id)); simpl; [|exact (IH Hl)].
    constructor; [|exact (IH Hl)].
    intros Hin. apply Hx. apply in_map_iff in Hin. destruct Hin as [y [Hy Hyin]].
    apply filter_In in Hyin. rewrite <- Hy. apply in_map. exact (proj1 Hyin).
  - intros oi Hoi. destruct (Hfk oi Hoi) as [[m [Hmin Hmid]] Hord]. split; [|exact Hord].
    exists m. split; [|exact Hmid]. apply filter_In. split; [exact Hmin|].
    apply negb_true_iff, Z.eqb_neq. intros Heq.
    assert (Hx : existsb (fun oi => oi_menu_item_id oi =? id) (order_items s) = true).
    { apply existsb_exists. exists oi. split; [exact Hoi|]. apply Z.eqb_eq. congruence. }
    rewrite X in Hx. discriminate.
Qed.

Lemma deleteMenuItem_keeps_integrity_witness :
  ledger_integrity store_rep /\ ledger_integrity (fst (deleteMenuItem store_rep 2)).
Proof.
  split; [exact store_rep_integrity|].
  exact (deleteMenuItem_keeps_integrity store_rep 2 store_rep_integrity).
Defined.

(** ** A valid order goes through *)

Lemma NoDup_app_mid {A} (a b : list A) x : NoDup (a ++ x :: b) -> ~ In x a.
Proof.
  induction a as [|y a IH]; simpl; intros H; [auto|].
  inversion H as [|? ? Hy Hd]; subst. intros [-> | Hx].
  - apply Hy. apply in_or_app. right. left. reflexivity.
  - exact (IH Hd Hx).
Qed.

Lemma map_get_fold_none (l : list MenuItem) k acc :
  (forall y, In y l -> mi_id y <> k) ->
  fold_left (fun acc m => if mi_id m =? k then Some m else acc) l acc = acc.
Proof.
  revert acc. induction l as [|x l IH]; intros acc H; simpl; [reflexivity|].
  replace (mi_id x =? k) with false by (symmetry; apply Z.eqb_neq; apply H; left; reflexivity).
  apply IH. intros y Hy. apply H. right. exact Hy.
Qed.

Lemma map_get_unique (l : list MenuItem) m :
  NoDup (map mi_id l) -> In m l -> map_get l (mi_id m) = Some m.
Proof.
  unfold map_get. generalize (@None MenuItem) as acc.
  induction l as [|x l IH]; intros acc Hd Hm; [destruct Hm|].
  inversion Hd as [|? ? Hx Hd']; subst. simpl.
  destruct Hm as [<- | Hm].
  - rewrite Z.eqb_refl. apply map_get_fold_none.
    intros y Hy Heq. apply Hx. rewrite <- Heq. apply in_map. exact Hy.
  - apply IH; assumption.
Qed.

Lemma NoDup_map_filter {A B} (key : A -> B) (keep : A -> bool) (rows : list A) :
  NoDup (map key rows) -> NoDup (map key (filter keep rows)).
Proof.
  induction rows as [|r rows IH]; intros Hd; [exact Hd|].
  cbn [map] in Hd. apply NoDup_cons_iff in Hd. destruct Hd as [Hr Hd].
  cbn [filter]. destruct (keep r); cbn [map]; [|apply IH; exact Hd].
  apply NoDup_cons; [|apply IH; exact Hd].
  intros Hin. apply Hr. apply in_map_iff in Hin. destruct Hin as [y [Ey Hy]].
  rewrite <- Ey. apply in_map. apply filter_In in Hy. apply Hy.
Qed.

Lemma select_menu_items_in_In s ids m :
  In m (menu_items s) -> In (mi_id m) ids -> In m (select_menu_items_in s ids).
Proof.
  intros Hm Hk. apply filter_In. split; [exact Hm|].
  apply existsb_exists. exists (mi_id m). split; [exact Hk | apply Z.eqb_refl].
Qed.

Lemma select_menu_items_in_ids s ids m :
  In m (select_menu_items_in s ids) -> In (mi_id m) ids.
Proof.
  intros H. apply filter_In in H. destruct H as [_ H].
  apply existsb_exists in H. destruct H as [k [Hk E]]. apply Z.eqb_eq in E. rewrite E. exact Hk.
Qed.

(** The batch lookup finds as many rows as there are ids when the ids are
    distinct and all present. *)
Lemma select_menu_items_in_length s ids :
  NoDup (map mi_id (menu_items s)) -> NoDup ids ->
  (forall k, In k ids -> exists m, In m (menu_items s) /\ mi_id m = k) ->
  length (select_menu_items_in s ids) = length ids.
Proof.
  intros Hd Hids Hex.
  rewrite <- (length_map mi_id).
  assert (Hn : NoDup (map mi_id (select_menu_items_in s ids))) by (apply NoDup_map_filter; exact Hd).
  apply Nat.le_antisymm.
  - apply NoDup_incl_length; [exact Hn|].
    intros k Hk. apply in_map_iff in Hk. destruct Hk as [m [<- Hm]].
    exact (select_menu_items_in_ids _ _ _ Hm).
  - apply NoDup_incl_length; [exact Hids|].
    intros k Hk. destruct (Hex k Hk) as [m [Hm <-]]. apply in_map.
    apply select_menu_items_in_In; assumption.
Qed.

Lemma check_stock_ok mm lines acc :
  (forall l, In l lines -> exists m, map_get mm (ol_menu_item_id l) = Some m
                                     /\ ol_quantity l <= mi_stock_quantity m) ->
  exists t, check_stock mm lines acc = inr t.
Proof.
  revert acc. induction lines as [|l lines IH]; intros acc H; simpl; [eexists; reflexivity|].
  destruct (H l (or_introl eq_refl)) as [m [Hm Hq]]. rewrite Hm.
  replace (mi_stock_quantity m <? ol_quantity l) with false by (symmetry; apply Z.ltb_ge; exact Hq).
  apply IH. intros l' Hl'. apply H. right. exact Hl'.
Qed.

Lemma hydrate_some upd done :
  (forall oi, In oi done -> exists m, map_get upd (oi_menu_item_id oi) = Some m) ->
  exists its, hydrate upd done = Some its.
Proof.
  induction done as [|oi done IH]; intros H; simpl; [eexists; reflexivity|].
  destruct (H oi (or_introl eq_refl)) as [m Hm]. rewrite Hm.
  destruct IH as [its Hits]; [intros oi' Ho; apply H; right; exact Ho|].
  rewrite Hits. eexists; reflexivity.
Qed.

Lemma find_app {A} (f : A -> bool) (a b : list A) :
  find f (a ++ b) = match find f a with Some x => Some x | None => find f b end.
Proof. induction a as [|x a IH]; simpl; [reflexivity|]. destruct (f x); [reflexivity | exact IH]. Qed.

Lemma find_none_ids (lines : list OrderLine) k :
  ~ In k (map ol_menu_item_id lines) -> find (fun l => ol_menu_item_id l =? k) lines = None.
Proof.
  induction lines as [|l lines IH]; intros H; simpl; [reflexivity|].
  destruct (ol_menu_item_id l =? k) eqn:E.
  - apply Z.eqb_eq in E. exfalso. apply H. left. exact E.
  - apply IH. intros Hin. apply H. right. exact Hin.
Qed.

Lemma stock_after_id lines m : mi_id (stock_after lines m) = mi_id m.
Proof. unfold stock_after. destruct (find _ lines); reflexivity. Qed.

Lemma run_step flt k n input s p s' p' :
  step (flt k) input s p = (s', p') -> run flt k (S n) input s p = run flt (S k) n input s' p'.
Proof. intros H. simpl. rewrite H. reflexivity. Qed.

Section ValidCall.

Variables (s : Store) (input : CreateOrderInput) (u : User).

Let lines := ci_order_items input.
Let mm := select_menu_items_in s (line_ids input).

Hypothesis Hids : NoDup (map mi_id (menu_items s)).
Hypothesis Hlines : NoDup (line_ids input).
Hypothesis Hitems : forall l, In l lines ->
  exists m, In m (menu_items s) /\ mi_id m = ol_menu_item_id l
            /\ ol_quantity l <= mi_stock_quantity m.

Lemma valid_mm_get l :
  In l lines -> exists m, In m (menu_items s) /\ mi_id m = ol_menu_item_id l
                         /\ ol_quantity l <= mi_stock_quantity m
                         /\ map_get mm (ol_menu_item_id l) = Some m.
Proof.
  intros Hl. destruct (Hitems l Hl) as [m [Hm [Hk Hq]]].
  exists m. repeat split; auto. rewrite <- Hk. apply map_get_unique.
  - apply NoDup_map_filter. exact Hids.
  - apply select_menu_items_in_In; [exact Hm|]. rewrite Hk. apply in_map. exact Hl.
Qed.

Lemma valid_store_unique m m' :
  In m (menu_items s) -> In m' (menu_items s) -> mi_id m = mi_id m' -> m = m'.
Proof. intros H H' E. exact (NoDup_map_inj _ _ _ _ Hids H H' E). Qed.

Lemma valid_stock_step pre l m :
  In m (menu_items s) -> mi_id m = ol_menu_item_id l ->
  ~ In (ol_menu_item_id l) (map ol_menu_item_id pre) ->
  map (fun x => if mi_id x =? ol_menu_item_id l
                then with_stock x (mi_stock_quantity m - ol_quantity l) else x)
      (map (stock_after pre) (menu_items s))
  = map (stock_after (pre ++ [l])) (menu_items s).
Proof.
  intros Hm Hk Hpre. rewrite map_map. apply map_ext_in. intros x Hx.
  rewrite stock_after_id. unfold stock_after. rewrite find_app.
  destruct (mi_id x =? ol_menu_item_id l) eqn:E.
  - apply Z.eqb_eq in E. rewrite find_none_ids by (rewrite E; exact Hpre).
    simpl. rewrite E, Z.eqb_refl.
    assert (x = m) as -> by (apply valid_store_unique; [exact Hx | exact Hm | congruence]).
    reflexivity.
  - destruct (find _ pre) as [l'|]; [reflexivity|]. simpl.
    replace (ol_menu_item_id l =? mi_id x) with false; [reflexivity|].
    symmetry. apply Z.eqb_neq. intros H. apply Z.eqb_neq in E. exact (E (eq_sym H)).
Qed.

Lemma valid_loop o : forall rest pre s1 done k,
  lines = pre ++ rest ->
  menu_items s1 = map (stock_after pre) (menu_items s) ->
  map oi_menu_item_id done = map ol_menu_item_id pre ->
  exists s2 r,
    run no_faults k (S (2 * length rest)) input s1 (next_write u mm o done rest)
    = (s2, Returned r)
    /\ ow_order r = o /\ menu_items s2 = map (stock_after lines) (menu_items s).
Proof.
  induction rest as [|l rest IH]; intros pre s1 done k Hsplit Hs1 Hdone.
  - rewrite app_nil_r in Hsplit. subst pre.
    destruct (hydrate_some (select_menu_items_in s1 (line_ids input)) done) as [its Hits].
    { intros oi Hoi.
      assert (Hk : In (oi_menu_item_id oi) (line_ids input)).
      { unfold line_ids. fold lines. rewrite <- Hdone. apply in_map. exact Hoi. }
      pose proof Hk as Hk'. unfold line_ids in Hk'. apply in_map_iff in Hk'.
      destruct Hk' as [l [Hlk Hl]]. destruct (Hitems l Hl) as [m [Hm [Hmk _]]].
      exists (stock_after lines m).
      replace (oi_menu_item_id oi) with (mi_id (stock_after lines m))
        by (rewrite stock_after_id; congruence).
      apply map_get_unique.
      - apply NoDup_map_filter. rewrite Hs1, map_map.
        rewrite (map_ext _ _ (stock_after_id lines)). exact Hids.
      - apply select_menu_items_in_In.
        + rewrite Hs1. apply in_map. exact Hm.
        + rewrite stock_after_id, Hmk, Hlk. exact Hk. }
    exists s1, (mkOrderWithItems o u its). split; [|split; [reflexivity | exact Hs1]].
    simpl. unfold step. rewrite Hits. reflexivity.
  - assert (Hl : In l lines) by (rewrite Hsplit; apply in_or_app; right; left; reflexivity).
    destruct (valid_mm_get l Hl) as [m [Hm [Hmk [Hq Hget]]]].
    assert (Hpre : ~ In (ol_menu_item_id l) (map ol_menu_item_id pre)).
    { assert (Hnd : NoDup (map ol_menu_item_id (pre ++ l :: rest)))
        by (rewrite <- Hsplit; exact Hlines).
      rewrite map_app in Hnd. exact (NoDup_app_mid _ _ _ Hnd). }
    set (oi := mkOrderItem (order_items_seq s1) (o_id o) (ol_menu_item_id l) (ol_quantity l)
                 (mi_price m)).
    assert (Hnw : next_write u mm o done (l :: rest) = AwaitItemInsert u mm o done m l rest)
      by (simpl; rewrite Hget; reflexivity).
    assert (Hex : existsb (fun m' => mi_id m' =? ol_menu_item_id l) (menu_items s1) = true).
    { apply existsb_exists. exists (stock_after pre m). split.
      - rewrite Hs1. apply in_map. exact Hm.
      - rewrite stock_after_id, Hmk. apply Z.eqb_refl. }
    assert (E1 : step (no_faults k) input s1 (AwaitItemInsert u mm o done m l rest)
                 = (insert_order_item s1 oi, AwaitStockUpdate u mm o (done ++ [oi]) m l rest))
      by (unfold step; simpl; rewrite Hex; reflexivity).
    set (s3 := set_stock (insert_order_item s1 oi) (ol_menu_item_id l)
                 (mi_stock_quantity m - ol_quantity l)).
    assert (E2 : step (no_faults (S k)) input (insert_order_item s1 oi)
                   (AwaitStockUpdate u mm o (done ++ [oi]) m l rest)
                 = (s3, next_write u mm o (done ++ [oi]) rest)) by reflexivity.
    destruct (IH (pre ++ [l]) s3 (done ++ [oi]) (S (S k))) as [s2 [r [Hrun [Ho Hs2]]]].
    + rewrite <- app_assoc. exact Hsplit.
    + unfold s3, set_stock. cbn [menu_items insert_order_item]. rewrite Hs1.
      apply valid_stock_step; assumption.
    + rewrite !map_app, Hdone. reflexivity.
    + exists s2, r. split; [|split; assumption].
      replace (S (2 * length (l :: rest))) with (S (S (S (2 * length rest)))) by (simpl; lia).
      rewrite Hnw, (run_step _ _ _ _ _ _ _ _ E1), (run_step _ _ _ _ _ _ _ _ E2). exact Hrun.
Qed.

End ValidCall.

(** The run of a valid call, statement by statement. *)
Lemma createOrder_valid_run s input u us :
  select_user s (ci_user_id input) = u :: us ->
  NoDup (map mi_id (menu_items s)) ->
  NoDup (line_ids input) ->
  (forall l, In l (ci_order_items input) ->
     exists m, In m (menu_items s) /\ mi_id m = ol_menu_item_id l
               /\ ol_quantity l <= mi_stock_quantity m) ->
  numeric_10_2_fits (sumZ (map (line_amount (menu_items s)) (ci_order_items input))) = true ->
  exists s' r, createOrder no_faults s input = (s', inr r)
    /\ o_total_amount (ow_order r)
       = sumZ (map (line_amount (menu_items s)) (ci_order_items input))
    /\ menu_items s' = map (stock_after (ci_order_items input)) (menu_items s).
Proof.
  intros Hu Hids Hlines Hitems Hfit.
  set (mm := select_menu_items_in s (line_ids input)).
  assert (Hlen : length mm = length (line_ids input)).
  { apply select_menu_items_in_length; [exact Hids | exact Hlines|].
    intros k Hk. unfold line_ids in Hk. apply in_map_iff in Hk. destruct Hk as [l [<- Hl]].
    destruct (Hitems l Hl) as [m [Hm [Hk _]]]. exists m. split; assumption. }
  pose proof (valid_mm_get s input Hids Hitems) as Hget.
  assert (Hamount : sumZ (map (line_amount mm) (ci_order_items input))
                    = sumZ (map (line_amount (menu_items s)) (ci_order_items input))).
  { f_equal. apply map_ext_in. intros l Hl. destruct (Hget l Hl) as [m [Hm [Hk [_ Hg]]]].
    unfold line_amount. fold mm in Hg. rewrite Hg, <- Hk, (map_get_unique _ _ Hids Hm). reflexivity. }
  destruct (check_stock_ok mm (ci_order_items input) 0) as [t Ht].
  { intros l Hl. destruct (Hget l Hl) as [m [_ [_ [Hq Hg]]]]. exists m. split; assumption. }
  pose proof (check_stock_total _ _ _ _ Ht) as Htot. rewrite Hamount in Htot. simpl in Htot.
  set (o := mkOrder (orders_seq s) (ci_user_id input) Pending
              (ci_pickup_or_delivery_time input) (ci_remarks input) t).
  assert (E0 : step (no_faults 0) input s AwaitUser = (s, AwaitMenuItems u))
    by (unfold step; rewrite Hu; reflexivity).
  assert (E1 : step (no_faults 1) input s (AwaitMenuItems u) = (s, AwaitOrderInsert u mm t)).
  { unfold step. cbv zeta. fold mm. rewrite Hlen, Nat.eqb_refl. simpl negb. rewrite Ht. reflexivity. }
  assert (E2 : step (no_faults 2) input s (AwaitOrderInsert u mm t)
               = (insert_order s o, next_write u mm o [] (ci_order_items input))).
  { unfold step. replace (numeric_10_2_fits t) with true by (rewrite Htot; symmetry; exact Hfit).
    rewrite Hu. reflexivity. }
  destruct (valid_loop s input u Hids Hlines Hitems o (ci_order_items input) [] (insert_order s o) [] 3)
    as [s2 [r [Hrun [Ho Hs2]]]]; [reflexivity | | reflexivity |].
  { cbn [menu_items insert_order]. rewrite <- (map_id (menu_items s)) at 1. apply map_ext.
    intros m. reflexivity. }
  exists s2, r. unfold createOrder.
  change (4 + 2 * length (ci_order_items input))%nat
    with (S (S (S (S (2 * length (ci_order_items input))))))%nat.
  rewrite (run_step _ _ _ _ _ _ _ _ E0), (run_step _ _ _ _ _ _ _ _ E1),
          (run_step _ _ _ _ _ _ _ _ E2).
  unfold mm in *. rewrite Hrun. split; [reflexivity|]. split; [|exact Hs2].
  rewrite Ho. simpl. exact Htot.
Qed.

(** A call with an existing user and distinct menu item ids, each naming
    an item whose stock covers its quantity, and whose total fits the
    column, succeeds (when no statement fails); the order's total is the
    catalog total, and each ordered item's stock drops by its quantity. *)
Theorem createOrder_valid_succeeds s input u us :
  select_user s (ci_user_id input) = u :: us ->
  NoDup (map mi_id (menu_items s)) ->
  NoDup (line_ids input) ->
  (forall l, In l (ci_order_items input) ->
     exists m, In m (menu_items s) /\ mi_id m = ol_menu_item_id l
               /\ ol_quantity l <= mi_stock_quantity m) ->
  numeric_10_2_fits (sumZ (map (line_amount (menu_items s)) (ci_order_items input))) = true ->
  exists s' r, createOrder no_faults s input = (s', inr r)
    /\ o_total_amount (ow_order r)
       = sumZ (map (line_amount (menu_items s)) (ci_order_items input))
    /\ menu_items s' = map (stock_after (ci_order_items input)) (menu_items s).
Proof. exact (createOrder_valid_run s input u us). Qed.

Lemma order_a_items :
  forall l, In l (ci_order_items order_a) ->
    exists m, In m (menu_items store0) /\ mi_id m = ol_menu_item_id l
              /\ ol_quantity l <= mi_stock_quantity m.
Proof.
  intros l Hl. simpl in Hl. destruct Hl as [<- | [<- | []]].
  - exists pizza. simpl. repeat split; auto. lia.
  - exists burger. simpl. repeat split; auto. lia.
Qed.

Lemma createOrder_valid_succeeds_witness :
  select_user store0 (ci_user_id order_a) = u1 :: []
  /\ NoDup (map mi_id (menu_items store0)) /\ NoDup (line_ids order_a)
  /\ numeric_10_2_fits (sumZ (map (line_amount (menu_items store0)) (ci_order_items order_a))) = true
  /\ exists s' r, createOrder no_faults store0 order_a = (s', inr r)
    /\ o_total_amount (ow_order r)
       = sumZ (map (line_amount (menu_items store0)) (ci_order_items order_a))
    /\ menu_items s' = map (stock_after (ci_order_items order_a)) (menu_items store0).
Proof.
  assert (Hu : select_user store0 (ci_user_id order_a) = u1 :: []) by reflexivity.
  assert (H1 : NoDup (map mi_id (menu_items store0)))
    by (simpl; repeat constructor; simpl; intuition discriminate).
  assert (H2 : NoDup (line_ids order_a))
    by (simpl; repeat constructor; simpl; intuition discriminate).
  assert (H3 : numeric_10_2_fits (sumZ (map (line_amount (menu_items store0))
                                        (ci_order_items order_a))) = true) by reflexivity.
  split; [exact Hu | split; [exact H1 | split; [exact H2 | split; [exact H3|]]]].
  exact (createOrder_valid_succeeds store0 order_a u1 [] Hu H1 H2 order_a_items H3).
Defined.

(** ** The client cart *)

Lemma find_cart_map (f : CartItem -> CartItem) k (c : list CartItem) :
  (forall i, c_menu_item_id (f i) = c_menu_item_id i) ->
  find (fun i => c_menu_item_id i =? k) (map f c)
  = option_map f (find (fun i => c_menu_item_id i =? k) c).
Proof.
  intros Hf. induction c as [|x c IH]; simpl; [reflexivity|].
  rewrite Hf. destruct (c_menu_item_id x =? k); [reflexivity | exact IH].
Qed.

Lemma find_cart_filter_same k (c : list CartItem) :
  find (fun i => c_menu_item_id i =? k)
    (filter (fun i => negb (c_menu_item_id i =? k)) c) = None.
Proof.
  induction c as [|x c IH]; simpl; [reflexivity|].
  destruct (c_menu_item_id x =? k) eqn:E; simpl; [exact IH|]. rewrite E. exact IH.
Qed.

Lemma find_cart_filter_other k k' (c : list CartItem) :
  k' <> k ->
  find (fun i => c_menu_item_id i =? k')
    (filter (fun i => negb (c_menu_item_id i =? k)) c)
  = find (fun i => c_menu_item_id i =? k') c.
Proof.
  intros Hk. induction c as [|x c IH]; simpl; [reflexivity|].
  destruct (c_menu_item_id x =? k) eqn:E; simpl.
  - apply Z.eqb_eq in E. replace (c_menu_item_id x =? k') with false
      by (symmetry; apply Z.eqb_neq; lia). exact IH.
  - destruct (c_menu_item_id x =? k'); [reflexivity | exact IH].
Qed.

Lemma cart_upd_id k g (i : CartItem) :
  c_menu_item_id (if c_menu_item_id i =? k then mkCartItem (c_menu_item_id i) (g i) else i)
  = c_menu_item_id i.
Proof. destruct (c_menu_item_id i =? k); reflexivity. Qed.

Lemma getCartQuantity_upd k k' g (c : list CartItem) :
  getCartQuantity
    (map (fun i => if c_menu_item_id i =? k then mkCartItem (c_menu_item_id i) (g i) else i) c) k'
  = match find (fun i => c_menu_item_id i =? k') c with
    | Some i => if k' =? k then g i else c_quantity i
    | None => 0
    end.
Proof.
  unfold getCartQuantity. rewrite find_cart_map by (intros; apply cart_upd_id).
  destruct (find (fun i => c_menu_item_id i =? k') c) as [i|] eqn:F; [|reflexivity].
  apply find_some in F. destruct F as [_ F]. apply Z.eqb_eq in F. simpl.
  rewrite F. destruct (k' =? k); reflexivity.
Qed.

(** The cart's quantity of an item, as the menu page reads it
    ([getCartQuantity]), after each cart update: [addToCart] adds to the
    item's quantity (from 0 when it is not in the cart); [removeFromCart]
    drops it to 0; [updateCartItem] sets it when the item is in the cart
    and the quantity is positive, drops it to 0 when the quantity is not
    positive, and adds nothing for an item not in the cart.  The other
    items' quantities are unchanged. *)
Theorem getCartQuantity_after_updates c k k' q :
  getCartQuantity (addToCart c k q) k'
    = (if k' =? k then getCartQuantity c k + q else getCartQuantity c k')
  /\ getCartQuantity (removeFromCart c k) k'
    = (if k' =? k then 0 else getCartQuantity c k')
  /\ getCartQuantity (updateCartItem c k q) k'
    = (if k' =? k
       then (if q <=? 0 then 0
             else match find (fun i => c_menu_item_id i =? k) c with
                  | Some _ => q
                  | None => 0
                  end)
       else getCartQuantity c k').
Proof.
  assert (Hrem : getCartQuantity (removeFromCart c k) k'
                 = (if k' =? k then 0 else getCartQuantity c k')).
  { unfold removeFromCart, getCartQuantity. destruct (k' =? k) eqn:E.
    - apply Z.eqb_eq in E. subst k'. rewrite find_cart_filter_same. reflexivity.
    - apply Z.eqb_neq in E. rewrite find_cart_filter_other by exact E. reflexivity. }
  split; [|split; [exact Hrem|]].
  - unfold addToCart.
    destruct (find (fun item => c_menu_item_id item =? k) c) as [i|] eqn:F.
    + rewrite getCartQuantity_upd.
      destruct (k' =? k) eqn:E.
      * apply Z.eqb_eq in E. subst k'. rewrite F. unfold getCartQuantity. rewrite F. reflexivity.
      * unfold getCartQuantity.
        destruct (find (fun i0 => c_menu_item_id i0 =? k') c); reflexivity.
    + unfold getCartQuantity. rewrite find_app. rewrite F.
      destruct (k' =? k) eqn:E.
      * apply Z.eqb_eq in E. subst k'. rewrite F. simpl. rewrite Z.eqb_refl. reflexivity.
      * destruct (find (fun item => c_menu_item_id item =? k') c); [reflexivity|].
        simpl. rewrite Z.eqb_sym, E. reflexivity.
  - unfold updateCartItem. destruct (q <=? 0).
    + destruct (k' =? k); exact Hrem.
    + rewrite getCartQuantity_upd. destruct (k' =? k) eqn:E.
      * apply Z.eqb_eq in E. subst k'. destruct (find _ c); reflexivity.
      * unfold getCartQuantity. destruct (find _ c); reflexivity.
Qed.

Lemma cart_ok_filter menu c (p : CartItem -> bool) :
  cart_ok menu c -> cart_ok menu (filter p c).
Proof.
  intros [Hd Hc]. split; [apply NoDup_map_filter; exact Hd|].
  intros x Hx. apply filter_In in Hx. apply Hc. apply Hx.
Qed.

Lemma cart_ok_set menu c k (g : CartItem -> Z) :
  cart_ok menu c ->
  (forall i m, In i c -> c_menu_item_id i = k ->
     find_menu_item menu k = Some m -> 1 <= g i /\ g i <= mi_stock_quantity m) ->
  cart_ok menu
    (map (fun i => if c_menu_item_id i =? k then mkCartItem (c_menu_item_id i) (g i) else i) c).
Proof.
  intros [Hd Hc] Hg. split.
  - rewrite map_map. erewrite map_ext; [exact Hd|]. intros i. apply cart_upd_id.
  - intros x Hx. apply in_map_iff in Hx. destruct Hx as [i [<- Hi]].
    destruct (c_menu_item_id i =? k) eqn:E; [|exact (Hc i Hi)].
    apply Z.eqb_eq in E. destruct (Hc i Hi) as [_ [m [Hm _]]].
    rewrite E in Hm. destruct (Hg i m Hi E Hm) as [H1 H2].
    simpl. split; [exact H1|]. exists m. rewrite E. split; assumption.
Qed.

Lemma find_menu_item_unique menu m :
  NoDup (map mi_id menu) -> In m menu -> find_menu_item menu (mi_id m) = Some m.
Proof.
  intros Hd Hm. unfold find_menu_item.
  destruct (find (fun item => mi_id item =? mi_id m) menu) as [x|] eqn:F.
  - apply find_some in F. destruct F as [Hx E]. apply Z.eqb_eq in E.
    f_equal. exact (NoDup_map_inj mi_id menu x m Hd Hx Hm E).
  - apply (find_none _ _ F) in Hm. rewrite Z.eqb_refl in Hm. discriminate.
Qed.

Lemma cart_ok_handleQuantityChange menu c k q :
  cart_ok menu c -> cart_ok menu (handleQuantityChange menu c k q).
Proof.
  intros Hok. unfold handleQuantityChange.
  destruct (q <? 1) eqn:Q1; [apply cart_ok_filter; exact Hok|].
  destruct (find_menu_item menu k) as [m|] eqn:F; [|exact Hok].
  destruct (q <=? mi_stock_quantity m) eqn:Q2; [|exact Hok].
  unfold updateCartItem. replace (q <=? 0) with false by (symmetry; apply Z.leb_gt; apply Z.ltb_ge in Q1; lia).
  apply cart_ok_set; [exact Hok|].
  intros i m' _ _ Hm'. rewrite F in Hm'. injection Hm' as <-.
  apply Z.ltb_ge in Q1. apply Z.leb_le in Q2. lia.
Qed.

Lemma cart_ok_add menu c item :
  NoDup (map mi_id menu) -> In item menu -> cart_ok menu c ->
  getCartQuantity c (mi_id item) < mi_stock_quantity item ->
  cart_ok menu (addToCart c (mi_id item) 1).
Proof.
  intros Hmd Hin Hok Hlt. pose proof (find_menu_item_unique menu item Hmd Hin) as Fm.
  pose proof Hok as [Hd Hc].
  unfold addToCart, getCartQuantity in *.
  destruct (find (fun i => c_menu_item_id i =? mi_id item) c) as [j|] eqn:F.
  - apply find_some in F. destruct F as [Hj Ej]. apply Z.eqb_eq in Ej.
    apply cart_ok_set; [exact Hok|].
    intros i m Hi Ei Hm. rewrite Fm in Hm. injection Hm as <-.
    assert (i = j) as -> by (apply (NoDup_map_inj c_menu_item_id c); auto; congruence).
    destruct (Hc j Hj) as [H1 _]. lia.
  - split.
    + rewrite map_app. simpl. apply NoDup_app; [exact Hd | repeat constructor; simpl; tauto |].
      intros k Hk [<- | []]. apply in_map_iff in Hk. destruct Hk as [x [Ex Hx]].
      apply (find_none _ _ F) in Hx. rewrite Ex, Z.eqb_refl in Hx. discriminate.
    + intros x Hx. apply in_app_or in Hx. destruct Hx as [Hx | [<- | []]]; [exact (Hc x Hx)|].
      simpl. split; [lia|]. exists item. split; [exact Fm | lia].
Qed.

Lemma cart_ok_step menu c a :
  NoDup (map mi_id menu) ->
  (forall item, a = AddButton item -> In item menu) ->
  cart_ok menu c -> cart_ok menu (cart_step menu c a).
Proof.
  intros Hmd Ha Hok. destruct a as [item|item|item|item parsed|item| |]; simpl.
  - destruct (getCartQuantity c (mi_id item) <? mi_stock_quantity item) eqn:E; [|exact Hok].
    apply Z.ltb_lt in E. apply cart_ok_add; auto.
  - apply cart_ok_handleQuantityChange; exact Hok.
  - destruct (find_menu_item menu (c_menu_item_id item)) as [m|]; [|exact Hok].
    destruct (mi_stock_quantity m <=? c_quantity item); [exact Hok|].
    apply cart_ok_handleQuantityChange; exact Hok.
  - apply cart_ok_handleQuantityChange; exact Hok.
  - apply cart_ok_filter; exact Hok.
  - split; [constructor | intros x []].
  - split; [constructor | intros x []].
Qed.

(** Whatever the user does on the menu and cart pages, a cart that starts
    empty (or valid) stays one the checkout can send: each item once, with
    a quantity of at least one that the stock of its menu item covers (the
    menu's ids being distinct, and each added item coming from the
    menu). *)
Theorem cart_run_ok menu c acts :
  NoDup (map mi_id menu) ->
  (forall item, In (AddButton item) acts -> In item menu) ->
  cart_ok menu c ->
  cart_ok menu (cart_run menu c acts).
Proof.
  unfold cart_run. revert c.
  induction acts as [|a acts IH]; intros c Hmd Ha Hok; simpl; [exact Hok|].
  apply IH; [exact Hmd | intros item Hi; apply Ha; right; exact Hi|].
  apply cart_ok_step; [exact Hmd | intros item ->; apply Ha; left; reflexivity | exact Hok].
Qed.

Lemma cart_run_ok_witness :
  NoDup (map mi_id [pizza; burger])
  /\ (forall item, In (AddButton item) session_a -> In item [pizza; burger])
  /\ cart_ok [pizza; burger] []
  /\ cart_ok [pizza; burger] (cart_run [pizza; burger] [] session_a).
Proof.
  assert (H1 : NoDup (map mi_id [pizza; burger]))
    by (simpl; repeat constructor; simpl; intuition discriminate).
  assert (H2 : forall item, In (AddButton item) session_a -> In item [pizza; burger]).
  { intros item H. simpl in H.
    destruct H as [H | [H | [H | [H | [H | [H | []]]]]]]; try discriminate;
      injection H as <-; simpl; tauto. }
  assert (H3 : cart_ok [pizza; burger] []) by (split; [constructor | intros x []]).
  split; [exact H1 | split; [exact H2 | split; [exact H3|]]].
  exact (cart_run_ok [pizza; burger] [] session_a H1 H2 H3).
Defined.

Lemma find_menu_item_map_get menu k :
  NoDup (map mi_id menu) -> find_menu_item menu k = map_get menu k.
Proof.
  intros Hd. unfold find_menu_item.
  destruct (find (fun item => mi_id item =? k) menu) as [x|] eqn:F.
  - apply find_some in F. destruct F as [Hx E]. apply Z.eqb_eq in E. subst k.
    symmetry. exact (map_get_unique menu x Hd Hx).
  - symmetry. apply map_get_fold_none. intros y Hy. apply (find_none _ _ F) in Hy.
    apply Z.eqb_neq in Hy. exact Hy.
Qed.

Lemma totals_fold_snd menu cart acc :
  (forall c, In c cart -> find_menu_item menu (c_menu_item_id c) <> None) ->
  snd (fold_left
    (fun acc item =>
       (fst acc + c_quantity (fst item),
        snd acc + match snd item with
                  | Some m => mi_price m
                  | None => 0
                  end * c_quantity (fst item)))
    (cartWithDetails menu cart) acc)
  = snd acc + sumZ (map (fun c => match find_menu_item menu (c_menu_item_id c) with
                                  | Some m => mi_price m * c_quantity c
                                  | None => 0
                                  end) cart).
Proof.
  revert acc. induction cart as [|c cart IH]; intros acc Hf; [simpl; lia|].
  destruct (find_menu_item menu (c_menu_item_id c)) as [m|] eqn:F;
    [|exfalso; exact (Hf c (or_introl eq_refl) F)].
  assert (E : cartWithDetails menu (c :: cart) = (c, Some m) :: cartWithDetails menu cart)
    by (unfold cartWithDetails; simpl; rewrite F; reflexivity).
  rewrite E. cbn [fold_left]. rewrite IH by (intros x Hx; apply Hf; right; exact Hx).
  unfold sumZ. simpl. rewrite F. lia.
Qed.

Lemma checkout_lines_amount menu cart :
  NoDup (map mi_id menu) ->
  (forall c, In c cart -> find_menu_item menu (c_menu_item_id c) <> None) ->
  sumZ (map (line_amount menu)
          (map (fun item => mkOrderLine (c_menu_item_id item) (c_quantity item)) cart))
  = snd (totals menu cart).
Proof.
  intros Hd Hf. unfold totals.
  etransitivity; [|exact (eq_sym (totals_fold_snd menu cart (0, 0) Hf))]. simpl.
  rewrite map_map. f_equal. apply map_ext. intros c. unfold line_amount. simpl.
  rewrite find_menu_item_map_get by exact Hd. reflexivity.
Qed.

(** Checking out a cart kept by the cart pages, against the store the
    menu was read from, places the order (when no statement fails and
    the user exists): the order's total is the total the cart page shows,
    and each ordered item's stock drops by its quantity in the cart. *)
Theorem checkout_cart_succeeds s now user pickup remarks cart input u us :
  NoDup (map mi_id (menu_items s)) ->
  select_user s (u_id user) = u :: us ->
  cart_ok (menu_items s) cart ->
  handleCheckout now user pickup remarks cart = inr input ->
  numeric_10_2_fits (snd (totals (menu_items s) cart)) = true ->
  exists s' r, createOrder no_faults s input = (s', inr r)
    /\ o_total_amount (ow_order r) = snd (totals (menu_items s) cart)
    /\ menu_items s' = map (stock_after (ci_order_items input)) (menu_items s).
Proof.
  intros Hmd Hu [Hcd Hc] Hin Hfit.
  assert (Hf : forall c, In c cart -> find_menu_item (menu_items s) (c_menu_item_id c) <> None).
  { intros c Hc'. destruct (Hc c Hc') as [_ [m [Hm _]]]. rewrite Hm. discriminate. }
  unfold handleCheckout in Hin. destruct pickup as [t|]; [|discriminate].
  destruct (t <=? now); [discriminate|]. injection Hin as Hin.
  assert (Hlines : ci_order_items input
                   = map (fun item => mkOrderLine (c_menu_item_id item) (c_quantity item)) cart)
    by (rewrite <- Hin; reflexivity).
  assert (Huid : ci_user_id input = u_id user) by (rewrite <- Hin; reflexivity).
  rewrite <- (checkout_lines_amount _ _ Hmd Hf) in Hfit |- *.
  rewrite <- Hlines in Hfit |- *.
  apply (createOrder_valid_run s input u us).
  - rewrite Huid. exact Hu.
  - exact Hmd.
  - unfold line_ids. rewrite Hlines, map_map. exact Hcd.
  - intros l Hl. rewrite Hlines in Hl. apply in_map_iff in Hl. destruct Hl as [c [<- Hc']].
    destruct (Hc c Hc') as [_ [m [Hm Hq]]]. exists m.
    unfold find_menu_item in Hm. apply find_some in Hm. destruct Hm as [Hm E].
    apply Z.eqb_eq in E. simpl. split; [exact Hm|]. split; [exact E | exact Hq].
  - exact Hfit.
Qed.

Lemma cart_a_ok : cart_ok (menu_items store0) cart_a.
Proof.
  split; [simpl; repeat constructor; simpl; intuition discriminate|].
  intros c Hc. simpl in Hc. destruct Hc as [<- | [<- | []]].
  - split; [simpl; lia|]. exists pizza. split; [reflexivity | simpl; lia].
  - split; [simpl; lia|]. exists burger. split; [reflexivity | simpl; lia].
Qed.

Lemma checkout_cart_succeeds_witness :
  NoDup (map mi_id (menu_items store0))
  /\ select_user store0 (u_id u1) = u1 :: []
  /\ cart_ok (menu_items store0) cart_a
  /\ handleCheckout 0 u1 (Some 100) "" cart_a = inr checkout_a
  /\ numeric_10_2_fits (snd (totals (menu_items store0) cart_a)) = true
  /\ exists s' r, createOrder no_faults store0 checkout_a = (s', inr r)
    /\ o_total_amount (ow_order r) = snd (totals (menu_items store0) cart_a)
    /\ menu_items s' = map (stock_after (ci_order_items checkout_a)) (menu_items store0).
Proof.
  assert (H1 : NoDup (map mi_id (menu_items store0)))
    by (simpl; repeat constructor; simpl; intuition discriminate).
  assert (H2 : select_user store0 (u_id u1) = u1 :: []) by reflexivity.
  assert (H4 : handleCheckout 0 u1 (Some 100) "" cart_a = inr checkout_a) by reflexivity.
  assert (H5 : numeric_10_2_fits (snd (totals (menu_items store0) cart_a)) = true)
    by reflexivity.
  split; [exact H1 | split; [exact H2 | split; [exact cart_a_ok |
    split; [exact H4 | split; [exact H5|]]]]].
  exact (checkout_cart_succeeds store0 0 u1 (Some 100) "" cart_a checkout_a u1 []
           H1 H2 cart_a_ok H4 H5).
Defined.

Lemma select_menu_items_in_short s ids k :
  NoDup (map mi_id (menu_items s)) -> In k ids ->
  (forall m, In m (menu_items s) -> mi_id m <> k) ->
  (length (select_menu_items_in s ids) < length ids)%nat.
Proof.
  intros Hd Hk Hm.
  rewrite <- (length_map mi_id).
  apply (Nat.le_lt_trans _ (length (remove Z.eq_dec k ids))); [|apply remove_length_lt; exact Hk].
  apply NoDup_incl_length; [apply NoDup_map_filter; exact Hd|].
  intros x Hx. apply in_map_iff in Hx. destruct Hx as [m [<- Hx]].
  apply in_in_remove.
  - apply Hm. exact (select_in s ids m Hx).
  - exact (select_menu_items_in_ids s ids m Hx).
Qed.

(** A cart holding an item that is not on the menu (a cart restored from
    the browser's storage after the item was deleted): the cart page
    leaves it out of what it shows, but the checkout sends it, and
    [createOrder] throws without writing anything (when the menu's ids
    are distinct). *)
Theorem checkout_stale_item_fails s now user pickup remarks cart input c :
  NoDup (map mi_id (menu_items s)) ->
  In c cart ->
  find_menu_item (menu_items s) (c_menu_item_id c) = None ->
  handleCheckout now user pickup remarks cart = inr input ->
  (forall x, In x (cartWithDetails (menu_items s) cart) -> fst x <> c)
  /\ In (mkOrderLine (c_menu_item_id c) (c_quantity c)) (ci_order_items input)
  /\ exists e, createOrder no_faults s input = (s, inl e).
Proof.
  intros Hd Hc Hf Hin.
  unfold handleCheckout in Hin. destruct pickup as [t|]; [|discriminate].
  destruct (t <=? now); [discriminate|]. injection Hin as Hin.
  split; [|split].
  - intros [x o] Hx Ex. simpl in Ex. subst x. unfold cartWithDetails in Hx.
    apply filter_In in Hx. destruct Hx as [Hx Ho]. apply in_map_iff in Hx.
    destruct Hx as [y [Ey _]]. injection Ey as Ey Eo. subst y. rewrite <- Eo, Hf in Ho.
    discriminate.
  - rewrite <- Hin. simpl. apply in_map_iff. exists c. split; [reflexivity | exact Hc].
  - unfold createOrder.
    assert (Hlen : exists n, (4 + 2 * length (ci_order_items input))%nat = S (S n))
      by (eexists; reflexivity).
    destruct Hlen as [n Hn]. rewrite Hn.
    destruct (select_user s (ci_user_id input)) as [|u us] eqn:Hu.
    + assert (E0 : step (no_faults 0) input s AwaitUser = (s, Threw UserNotFound))
        by (unfold step; rewrite Hu; reflexivity).
      rewrite (run_step _ _ _ _ _ _ _ _ E0), run_threw. exists UserNotFound. reflexivity.
    + assert (Hshort : (length (select_menu_items_in s (line_ids input))
                        < length (line_ids input))%nat).
      { apply (select_menu_items_in_short s _ (c_menu_item_id c) Hd).
        - unfold line_ids. rewrite <- Hin. simpl. rewrite map_map. apply in_map_iff.
          exists c. split; [reflexivity | exact Hc].
        - intros m Hm E. unfold find_menu_item in Hf. apply (find_none _ _ Hf) in Hm.
          rewrite E, Z.eqb_refl in Hm. discriminate. }
      assert (E0 : step (no_faults 0) input s AwaitUser = (s, AwaitMenuItems u))
        by (unfold step; rewrite Hu; reflexivity).
      assert (E1 : step (no_faults 1) input s (AwaitMenuItems u) = (s, Threw MenuItemsNotFound)).
      { unfold step. cbv zeta.
        replace (Nat.eqb (length (select_menu_items_in s (line_ids input)))
                   (length (line_ids input))) with false
          by (symmetry; apply Nat.eqb_neq; lia).
        reflexivity. }
      rewrite (run_step _ _ _ _ _ _ _ _ E0), (run_step _ _ _ _ _ _ _ _ E1), run_threw.
      exists MenuItemsNotFound. reflexivity.
Qed.

Lemma checkout_stale_item_fails_witness :
  NoDup (map mi_id (menu_items store0))
  /\ In (mkCartItem 9 1) cart_stale
  /\ find_menu_item (menu_items store0) 9 = None
  /\ handleCheckout 0 u1 (Some 100) "" cart_stale = inr checkout_stale
  /\ (forall x, In x (cartWithDetails (menu_items store0) cart_stale) -> fst x <> mkCartItem 9 1)
  /\ In (mkOrderLine 9 1) (ci_order_items checkout_stale)
  /\ exists e, createOrder no_faults store0 checkout_stale = (store0, inl e).
Proof.
  assert (H1 : NoDup (map mi_id (menu_items store0)))
    by (simpl; repeat constructor; simpl; intuition discriminate).
  assert (H2 : In (mkCartItem 9 1) cart_stale) by (simpl; tauto).
  assert (H3 : find_menu_item (menu_items store0) (c_menu_item_id (mkCartItem 9 1)) = None)
    by reflexivity.
  assert (H4 : handleCheckout 0 u1 (Some 100) "" cart_stale = inr checkout_stale)
    by reflexivity.
  split; [exact H1 | split; [exact H2 | split; [exact H3 | split; [exact H4|]]]].
  exact (checkout_stale_item_fails store0 0 u1 (Some 100) "" cart_stale checkout_stale
           (mkCartItem 9 1) H1 H2 H3 H4).
Defined.

(** The cart page's number box removes an item only when a negative number
    is typed: typing 0, or anything that does not parse as a number, asks
    for a quantity of 1 instead ([parseInt(value) || 1]), and a positive
    number only changes quantities; the cart keeps the same items. *)
Theorem quantity_box_removes_only_negative menu c item parsed :
  map c_menu_item_id (cart_step menu c (QuantityBox item parsed))
  = match parsed with
    | Some q => if q <? 0 then map c_menu_item_id (removeFromCart c (c_menu_item_id item))
                else map c_menu_item_id c
    | None => map c_menu_item_id c
    end.
Proof.
  assert (Hpos : forall q, 1 <= q ->
            map c_menu_item_id (handleQuantityChange menu c (c_menu_item_id item) q)
            = map c_menu_item_id c).
  { intros q Hq. unfold handleQuantityChange.
    replace (q <? 1) with false by (symmetry; apply Z.ltb_ge; lia).
    destruct (find_menu_item menu (c_menu_item_id item)); [|reflexivity].
    destruct (q <=? mi_stock_quantity m); [|reflexivity].
    unfold updateCartItem. replace (q <=? 0) with false by (symmetry; apply Z.leb_gt; lia).
    rewrite map_map. apply map_ext. intros i. exact (cart_upd_id _ (fun _ => q) i). }
  simpl. unfold quantity_of_input.
  destruct parsed as [q|]; [|apply Hpos; lia].
  destruct (q =? 0) eqn:E0.
  - apply Z.eqb_eq in E0. subst q. simpl. apply Hpos. lia.
  - apply Z.eqb_neq in E0. destruct (q <? 0) eqn:E.
    + apply Z.ltb_lt in E. unfold handleQuantityChange.
      replace (q <? 1) with true by (symmetry; apply Z.ltb_lt; lia). reflexivity.
    + apply Z.ltb_ge in E. apply Hpos. lia.
Qed.

(** ** Order lists *)

Lemma push_item_keys m k it : map fst (push_item m k it) = map fst m.
Proof.
  induction m as [|[k' ow] m IH]; simpl; [reflexivity|].
  destruct (k' =? k); simpl; [reflexivity | rewrite IH; reflexivity].
Qed.

Lemma push_item_in m k it k' ow' :
  NoDup (map fst m) -> In (k', ow') (push_item m k it) ->
  (k' <> k /\ In (k', ow') m)
  \/ (k' = k /\ exists ow, In (k, ow) m
        /\ ow' = mkOrderWithItems (ow_order ow) (ow_user ow) (ow_items ow ++ [it])).
Proof.
  induction m as [|[k0 ow0] m IH]; intros Hd Hin; [destruct Hin|].
  simpl in Hd. apply NoDup_cons_iff in Hd. destruct Hd as [Hk0 Hd].
  simpl in Hin. destruct (k0 =? k) eqn:E.
  - apply Z.eqb_eq in E. subst k0. destruct Hin as [Eh | Hin].
    + injection Eh as <- <-. right. split; [reflexivity|].
      exists ow0. split; [left; reflexivity | reflexivity].
    + left. split; [|right; exact Hin].
      intros ->. apply Hk0. apply (in_map fst) in Hin. exact Hin.
  - apply Z.eqb_neq in E. destruct Hin as [Eh | Hin].
    + injection Eh as <- <-. left. split; [exact E | left; reflexivity].
    + destruct (IH Hd Hin) as [[H1 H2] | [H1 [ow [H2 H3]]]].
      * left. split; [exact H1 | right; exact H2].
      * right. split; [exact H1|]. exists ow. split; [right; exact H2 | exact H3].
Qed.

Lemma push_item_hit m k it ow :
  NoDup (map fst m) -> In (k, ow) m ->
  In (k, mkOrderWithItems (ow_order ow) (ow_user ow) (ow_items ow ++ [it])) (push_item m k it).
Proof.
  induction m as [|[k0 ow0] m IH]; intros Hd Hin; [destruct Hin|].
  simpl in Hd. apply NoDup_cons_iff in Hd. destruct Hd as [Hk0 Hd]. simpl.
  destruct (k0 =? k) eqn:E.
  - apply Z.eqb_eq in E. subst k0. destruct Hin as [Eh | Hin].
    + injection Eh as <-. left. reflexivity.
    + exfalso. apply Hk0. apply (in_map fst) in Hin. exact Hin.
  - destruct Hin as [Eh | Hin].
    + injection Eh as E1 _. subst k0. rewrite Z.eqb_refl in E. discriminate.
    + right. exact (IH Hd Hin).
Qed.

Lemma push_item_miss m k it k' ow :
  k' <> k -> In (k', ow) m -> In (k', ow) (push_item m k it).
Proof.
  intros Hk. induction m as [|[k0 ow0] m IH]; intros Hin; [destruct Hin|]. simpl.
  destruct (k0 =? k) eqn:E.
  - apply Z.eqb_eq in E. subst k0. destruct Hin as [Eh | Hin].
    + injection Eh as E1 _. congruence.
    + right. exact Hin.
  - destruct Hin as [Eh | Hin]; [left; exact Eh | right; exact (IH Hin)].
Qed.

Lemma filter_app_single {A} (f : A -> bool) (l : list A) x :
  filter f (l ++ [x]) = filter f l ++ (if f x then [x] else []).
Proof. rewrite filter_app. simpl. destruct (f x); reflexivity. Qed.

Lemma group_inv_push R X m r :
  group_inv R X m ->
  (exists ow0, In (order_row_key r, ow0) m) ->
  (forall r', In r' X -> In r' (R ++ [r])) ->
  group_inv (R ++ [r]) (R ++ [r]) (push_item m (order_row_key r) (row_entry r)).
Proof.
  intros [Hd [Hb Hc]] [ow0 H0] HX. split; [|split].
  - rewrite push_item_keys. exact Hd.
  - intros k ow Hin. destruct (push_item_in _ _ _ _ _ Hd Hin) as [[Hk Hm] | [Hk [ow1 [Hm E]]]].
    + destruct (Hb k ow Hm) as [H1 [H2 [r' [Hr' H3]]]].
      split; [exact H1|]. split; [|exists r'; split; [apply HX; exact Hr' | exact H3]].
      rewrite filter_app_single. replace (order_row_key r =? k) with false
        by (symmetry; apply Z.eqb_neq; congruence).
      rewrite app_nil_r. exact H2.
    + subst k ow. destruct (Hb _ ow1 Hm) as [H1 [H2 [r' [Hr' H3]]]]. simpl.
      split; [exact H1|]. split; [|exists r'; split; [apply HX; exact Hr' | exact H3]].
      rewrite filter_app_single, Z.eqb_refl, map_app, H2. reflexivity.
  - intros r' Hr'. apply in_app_or in Hr'. destruct Hr' as [Hr' | [<- | []]].
    + destruct (Hc r' Hr') as [ow Hm].
      destruct (Z.eq_dec (order_row_key r') (order_row_key r)) as [E | E].
      * rewrite E in Hm |- *. eexists. apply push_item_hit; [exact Hd|]. exact Hm.
      * exists ow. apply push_item_miss; assumption.
    + eexists. apply push_item_hit; [exact Hd | exact H0].
Qed.

Lemma group_inv_row R m r :
  group_inv R R m -> group_inv (R ++ [r]) (R ++ [r]) (group_row m r).
Proof.
  intros Hinv. pose proof Hinv as [Hd [Hb Hc]]. unfold group_row.
  destruct (existsb (fun e => fst e =? o_id (or_order r)) m) eqn:Ex.
  - apply existsb_exists in Ex. destruct Ex as [[k ow0] [Hm E]]. simpl in E.
    apply Z.eqb_eq in E. subst k.
    apply (group_inv_push R R m r Hinv); [exists ow0; exact Hm|].
    intros r' Hr'. apply in_or_app. left. exact Hr'.
  - assert (Hnew : ~ In (o_id (or_order r)) (map fst m)).
    { intros Hk. apply in_map_iff in Hk. destruct Hk as [[k ow] [Ek Hm]]. simpl in Ek.
      assert (Ht : existsb (fun e => fst e =? o_id (or_order r)) m = true)
        by (apply existsb_exists; exists (k, ow); split; [exact Hm | simpl; rewrite Ek; apply Z.eqb_refl]).
      rewrite Ht in Ex. discriminate. }
    apply (group_inv_push R (R ++ [r])); [| |intros r' Hr'; exact Hr'].
    + split; [|split].
      * rewrite map_app. simpl. apply NoDup_app; [exact Hd | repeat constructor; simpl; tauto|].
        intros k Hk [Ek | []]. apply Hnew. rewrite Ek. exact Hk.
      * intros k ow Hin. apply in_app_or in Hin. destruct Hin as [Hin | [E | []]].
        -- destruct (Hb k ow Hin) as [H1 [H2 [r' [Hr' H3]]]].
           split; [exact H1|]. split; [exact H2|].
           exists r'. split; [apply in_or_app; left; exact Hr' | exact H3].
        -- injection E as <- <-. simpl. split; [reflexivity|]. split.
           ++ rewrite filter_none_id_nil; [reflexivity|]. intros r' Hr'.
              apply Z.eqb_neq. intros E. destruct (Hc r' Hr') as [ow Hm].
              apply Hnew. unfold order_row_key in E. rewrite <- E.
              apply (in_map fst) in Hm. exact Hm.
           ++ exists r. split; [apply in_or_app; right; left; reflexivity | split; reflexivity].
      * intros r' Hr'. destruct (Hc r' Hr') as [ow Hm]. exists ow.
        apply in_or_app. left. exact Hm.
    + eexists. apply in_or_app. right. left. reflexivity.
Qed.

Lemma group_inv_fold R : group_inv R R (fold_left group_row R []).
Proof.
  induction R as [|r R IH] using rev_ind.
  - split; [constructor|]. split; [intros k ow []|intros r []].
  - rewrite fold_left_app. simpl. apply group_inv_row. exact IH.
Qed.

Lemma order_rows_eq s : order_rows s = flat_map (rows_of_order s) (orders s).
Proof. reflexivity. Qed.

Lemma rows_of_order_in s o r :
  In r (rows_of_order s o) ->
  or_order r = o /\ In (or_user r) (users s) /\ u_id (or_user r) = o_user_id o.
Proof.
  unfold rows_of_order. intros H. apply in_flat_map in H. destruct H as [u [Hu H]].
  apply in_flat_map in H. destruct H as [oi [_ H]]. apply in_map_iff in H.
  destruct H as [m [<- _]]. apply filter_In in Hu. destruct Hu as [Hu E].
  apply Z.eqb_eq in E. simpl. split; [reflexivity|]. split; [exact Hu | symmetry; exact E].
Qed.

Lemma filter_flat_map {A B} (f : B -> bool) (g : A -> list B) (l : list A) :
  filter f (flat_map g l) = flat_map (fun x => filter f (g x)) l.
Proof.
  induction l as [|x l IH]; simpl; [reflexivity|]. rewrite filter_app, IH. reflexivity.
Qed.

Lemma filter_const {A} (f : A -> bool) (l : list A) b :
  (forall x, In x l -> f x = b) -> filter f l = if b then l else [].
Proof.
  induction l as [|x l IH]; intros H; simpl; [destruct b; reflexivity|].
  rewrite (H x (or_introl eq_refl)), IH by (intros y Hy; apply H; right; exact Hy).
  destruct b; reflexivity.
Qed.

Lemma flat_map_other_keys (G : Order -> list OrderRow) (l : list Order) k :
  (forall y, In y l -> o_id y <> k) ->
  flat_map (fun o' => if o_id o' =? k then G o' else []) l = [].
Proof.
  induction l as [|x l IH]; intros H; simpl; [reflexivity|].
  replace (o_id x =? k) with false by (symmetry; apply Z.eqb_neq; apply H; left; reflexivity).
  apply IH. intros y Hy. apply H. right. exact Hy.
Qed.

Lemma flat_map_unique_key (G : Order -> list OrderRow) (l : list Order) o :
  NoDup (map o_id l) -> In o l ->
  flat_map (fun o' => if o_id o' =? o_id o then G o' else []) l = G o.
Proof.
  induction l as [|x l IH]; intros Hd Hin; [destruct Hin|].
  simpl in Hd. apply NoDup_cons_iff in Hd. destruct Hd as [Hx Hd]. simpl.
  destruct Hin as [<- | Hin].
  - rewrite Z.eqb_refl, flat_map_other_keys; [apply app_nil_r|].
    intros y Hy E. apply Hx. rewrite <- E. apply in_map. exact Hy.
  - destruct (o_id x =? o_id o) eqn:E.
    + apply Z.eqb_eq in E. exfalso. apply Hx. rewrite E. apply in_map. exact Hin.
    + exact (IH Hd Hin).
Qed.

Lemma Permutation_filter_ {A} (f : A -> bool) (l l' : list A) :
  Permutation l l' -> Permutation (filter f l) (filter f l').
Proof.
  induction 1 as [|x l l' _ IH|x y l|l l' l'' _ IH1 _ IH2]; simpl.
  - constructor.
  - destruct (f x); [constructor|]; exact IH.
  - destruct (f x), (f y); try constructor; reflexivity.
  - etransitivity; [exact IH1 | exact IH2].
Qed.

Lemma rows_of_order_entries s o u :
  NoDup (map u_id (users s)) -> In u (users s) -> u_id u = o_user_id o ->
  map row_entry (rows_of_order s o) = order_items_of s o.
Proof.
  intros Hd Hu E. unfold rows_of_order.
  rewrite (filter_ext (fun u' => o_user_id o =? u_id u') (fun u' => u_id u' =? u_id u)).
  2:{ intros u'. rewrite Z.eqb_sym, E. reflexivity. }
  rewrite (filter_unique_key u_id (users s) u Hd Hu). simpl. rewrite app_nil_r.
  unfold order_items_of.
  induction (filter (fun oi => o_id o =? oi_order_id oi) (order_items s)) as [|oi l IH];
    simpl; [reflexivity|].
  rewrite map_app, IH, map_map. reflexivity.
Qed.

Lemma select_key_rows s keep o :
  NoDup (map o_id (orders s)) -> In o (orders s) ->
  filter (fun r => order_row_key r =? o_id o) (select_order_rows s keep)
  = if keep o then rows_of_order s o else [].
Proof.
  intros Hd Ho. unfold select_order_rows. rewrite order_rows_eq, !filter_flat_map.
  rewrite <- (flat_map_unique_key (fun o' => if keep o' then rows_of_order s o' else [])
                (orders s) o Hd Ho).
  apply flat_map_ext. intros o'.
  assert (Hr : forall r, In r (rows_of_order s o') -> or_order r = o')
    by (intros r Hr; apply (rows_of_order_in s o' r Hr)).
  rewrite (filter_const (fun r => keep (or_order r)) _ (keep o'))
    by (intros r Hin; rewrite (Hr r Hin); reflexivity).
  destruct (keep o'); [|destruct (o_id o' =? o_id o); reflexivity].
  apply filter_const. intros r Hin. unfold order_row_key. rewrite (Hr r Hin). reflexivity.
Qed.

Lemma select_order_rows_in s keep r :
  In r (select_order_rows s keep) ->
  In (or_order r) (orders s) /\ keep (or_order r) = true
  /\ In r (rows_of_order s (or_order r)).
Proof.
  unfold select_order_rows. intros H. apply filter_In in H. destruct H as [H Hk].
  rewrite order_rows_eq in H. apply in_flat_map in H. destruct H as [o [Ho Hr]].
  pose proof (proj1 (rows_of_order_in s o r Hr)) as E. rewrite E.
  split; [exact Ho|]. split; [rewrite <- E; exact Hk | exact Hr].
Qed.

(** Grouping the rows of an [orders]-side [where], in whatever order the
    database returns them. *)
Lemma group_select_spec s keep R :
  NoDup (map o_id (orders s)) -> NoDup (map u_id (users s)) ->
  Permutation R (select_order_rows s keep) ->
  NoDup (map (fun ow => o_id (ow_order ow)) (group_orders R))
  /\ (forall ow, In ow (group_orders R) ->
        In (ow_order ow) (orders s) /\ keep (ow_order ow) = true
        /\ In (ow_user ow) (users s) /\ u_id (ow_user ow) = o_user_id (ow_order ow)
        /\ ow_items ow <> []
        /\ Permutation (ow_items ow) (order_items_of s (ow_order ow)))
  /\ (forall o u, In o (orders s) -> keep o = true -> In u (users s) ->
        u_id u = o_user_id o -> order_items_of s o <> [] ->
        exists ow, In ow (group_orders R) /\ ow_order ow = o).
Proof.
  intros Hod Hud HR. pose proof (group_inv_fold R) as [Hd [Hb Hc]].
  set (m := fold_left group_row R []) in *. unfold group_orders. fold m.
  split; [|split].
  - rewrite map_map. erewrite map_ext_in; [exact Hd|].
    intros [k ow] Hin. simpl. symmetry. exact (proj1 (Hb k ow Hin)).
  - intros ow Hin. apply in_map_iff in Hin. destruct Hin as [[k ow'] [E Hin]].
    simpl in E. subst ow'. destruct (Hb k ow Hin) as [Hk [Hi [r [Hr [Eo Eu]]]]].
    assert (Hr' : In r (select_order_rows s keep)) by exact (Permutation_in _ HR Hr).
    destruct (select_order_rows_in s keep r Hr') as [Ho [Hkeep Hro]].
    destruct (rows_of_order_in s _ r Hro) as [_ [Hu Eid]].
    rewrite Eo in Ho, Hkeep. rewrite Eu in Hu, Eid. rewrite Eo in Eid.
    split; [exact Ho|]. split; [exact Hkeep|]. split; [exact Hu|]. split; [exact Eid|].
    rewrite Hi, Hk. split.
    + assert (Hf : In r (filter (fun r0 => order_row_key r0 =? o_id (ow_order ow)) R)).
      { apply filter_In. split; [exact Hr|]. unfold order_row_key. rewrite Eo. apply Z.eqb_refl. }
      intros E. apply (in_map row_entry) in Hf. rewrite E in Hf. destruct Hf.
    + rewrite <- (rows_of_order_entries s (ow_order ow) (ow_user ow) Hud Hu Eid).
      pose proof (select_key_rows s keep (ow_order ow) Hod Ho) as Hsk.
      rewrite Hkeep in Hsk. rewrite <- Hsk.
      apply Permutation_map. apply Permutation_filter_. exact HR.
  - intros o u Ho Hkeep Hu Eid Hne.
    rewrite <- (rows_of_order_entries s o u Hud Hu Eid) in Hne.
    destruct (rows_of_order s o) as [|r rs] eqn:Er; [exfalso; apply Hne; reflexivity|].
    assert (Hro : In r (rows_of_order s o)) by (rewrite Er; left; reflexivity).
    assert (Eo : or_order r = o) by exact (proj1 (rows_of_order_in s o r Hro)).
    assert (Hsel : In r (select_order_rows s keep)).
    { unfold select_order_rows. apply filter_In. rewrite Eo. split; [|exact Hkeep].
      rewrite order_rows_eq. apply in_flat_map. exists o. split; [exact Ho | exact Hro]. }
    assert (HrR : In r R) by exact (Permutation_in _ (Permutation_sym HR) Hsel).
    destruct (Hc r HrR) as [ow Hm]. exists ow. split.
    + apply in_map_iff. exists (order_row_key r, ow). split; [reflexivity | exact Hm].
    + destruct (Hb _ ow Hm) as [Hk [_ [r' [Hr' [Eo' _]]]]].
      assert (Hr's : In r' (select_order_rows s keep)) by exact (Permutation_in _ HR Hr').
      destruct (select_order_rows_in s keep r' Hr's) as [Ho' _].
      rewrite <- Eo'. apply (NoDup_map_inj o_id (orders s)); [exact Hod | exact Ho' | exact Ho|].
      rewrite Eo'. rewrite <- Hk. unfold order_row_key. rewrite Eo. reflexivity.
Qed.

Lemma status_eqb_eq a b : status_eqb a b = true <-> a = b.
Proof. destruct a, b; simpl; split; congruence. Qed.

Lemma insert_by_date_perm d x l : Permutation (insert_by_date d x l) (x :: l).
Proof.
  induction l as [|y l IH]; simpl; [reflexivity|].
  destruct (d (ow_order y) <=? d (ow_order x)); [reflexivity|].
  rewrite IH. apply perm_swap.
Qed.

Lemma sort_by_date_desc_perm d l : Permutation (sort_by_date_desc d l) l.
Proof.
  induction l as [|x l IH]; simpl; [reflexivity|].
  rewrite insert_by_date_perm, IH. reflexivity.
Qed.

Lemma insert_by_date_sorted d x l :
  sorted_by_date_desc d l -> sorted_by_date_desc d (insert_by_date d x l).
Proof.
  unfold sorted_by_date_desc.
  induction l as [|y l IH]; intros H; simpl; [repeat constructor|].
  destruct (d (ow_order y) <=? d (ow_order x)) eqn:E.
  - apply Z.leb_le in E. constructor; [exact H|]. constructor. exact E.
  - apply Z.leb_gt in E. inversion H as [|? ? Hs Hhd]; subst.
    constructor; [apply IH; exact Hs|].
    destruct l as [|z l]; simpl.
    + constructor. lia.
    + inversion Hhd; subst.
      destruct (d (ow_order z) <=? d (ow_order x)); constructor; lia.
Qed.

Lemma sort_by_date_desc_sorted d l : sorted_by_date_desc d (sort_by_date_desc d l).
Proof.
  induction l as [|x l IH]; simpl; [constructor|].
  apply insert_by_date_sorted. exact IH.
Qed.

(** [getAllOrders] lists each order that has at least one item and
    matches the status filter once, with its user and exactly its items
    (one per order item and matching menu item), whatever order the
    database returns the joined rows in; orders without items, or whose
    user is missing, are not listed (the joins are inner joins). *)
Theorem getAllOrders_groups s status arrange :
  NoDup (map o_id (orders s)) -> NoDup (map u_id (users s)) ->
  (forall l, Permutation (arrange l) l) ->
  NoDup (map (fun ow => o_id (ow_order ow)) (getAllOrders arrange s status))
  /\ (forall ow, In ow (getAllOrders arrange s status) ->
        In (ow_order ow) (orders s)
        /\ (forall st, status = Some st -> o_status (ow_order ow) = st)
        /\ In (ow_user ow) (users s) /\ u_id (ow_user ow) = o_user_id (ow_order ow)
        /\ ow_items ow <> []
        /\ Permutation (ow_items ow) (order_items_of s (ow_order ow)))
  /\ (forall o u, In o (orders s) -> (forall st, status = Some st -> o_status o = st) ->
        In u (users s) -> u_id u = o_user_id o -> order_items_of s o <> [] ->
        exists ow, In ow (getAllOrders arrange s status) /\ ow_order ow = o).
Proof.
  intros Hod Hud Harr.
  set (keep := match status with
               | Some st => fun o => status_eqb (o_status o) st
               | None => fun _ => true
               end).
  assert (Hres : getAllOrders arrange s status = group_orders (arrange (select_order_rows s keep)))
    by (unfold getAllOrders, keep; destruct status; reflexivity).
  assert (Hkeep : forall o, keep o = true <-> (forall st, status = Some st -> o_status o = st)).
  { intros o. unfold keep. destruct status as [st|].
    - rewrite status_eqb_eq. split; [intros E st' E'; injection E' as <-; exact E|].
      intros H. apply H. reflexivity.
    - split; [intros _ st E; discriminate | reflexivity]. }
  rewrite Hres.
  destruct (group_select_spec s keep (arrange (select_order_rows s keep)) Hod Hud (Harr _))
    as [H1 [H2 H3]].
  split; [exact H1|]. split.
  - intros ow Hin. destruct (H2 ow Hin) as [Ho [Hk Hrest]].
    split; [exact Ho|]. split; [apply Hkeep; exact Hk | exact Hrest].
  - intros o u Ho Hst. apply H3; [exact Ho | apply Hkeep; exact Hst].
Qed.

(** [getUserOrders] lists each order of the user that has at least one
    item once, with the user and exactly its items, whatever order the
    database returns the joined rows in, newest first. *)
Theorem getUserOrders_groups s arrange order_date user_id :
  NoDup (map o_id (orders s)) -> NoDup (map u_id (users s)) ->
  (forall l, Permutation (arrange l) l) ->
  NoDup (map (fun ow => o_id (ow_order ow)) (getUserOrders arrange order_date s user_id))
  /\ sorted_by_date_desc order_date (getUserOrders arrange order_date s user_id)
  /\ (forall ow, In ow (getUserOrders arrange order_date s user_id) ->
        In (ow_order ow) (orders s) /\ o_user_id (ow_order ow) = user_id
        /\ In (ow_user ow) (users s) /\ u_id (ow_user ow) = user_id
        /\ ow_items ow <> []
        /\ Permutation (ow_items ow) (order_items_of s (ow_order ow)))
  /\ (forall o u, In o (orders s) -> o_user_id o = user_id ->
        In u (users s) -> u_id u = user_id -> order_items_of s o <> [] ->
        exists ow, In ow (getUserOrders arrange order_date s user_id) /\ ow_order ow = o).
Proof.
  intros Hod Hud Harr.
  set (keep := fun o => o_user_id o =? user_id).
  set (g := group_orders (arrange (select_order_rows s keep))).
  assert (Hres : getUserOrders arrange order_date s user_id = sort_by_date_desc order_date g)
    by reflexivity.
  pose proof (sort_by_date_desc_perm order_date g) as Hp.
  destruct (group_select_spec s keep (arrange (select_order_rows s keep)) Hod Hud (Harr _))
    as [H1 [H2 H3]].
  fold g in H1, H2, H3. rewrite Hres.
  split; [|split; [apply sort_by_date_desc_sorted|split]].
  - apply (Permutation_NoDup (Permutation_map _ (Permutation_sym Hp))). exact H1.
  - intros ow Hin. apply (Permutation_in _ Hp) in Hin.
    destruct (H2 ow Hin) as [Ho [Hk [Hu [Eu Hrest]]]]. unfold keep in Hk. apply Z.eqb_eq in Hk.
    split; [exact Ho|]. split; [exact Hk|]. split; [exact Hu|]. split; [congruence | exact Hrest].
  - intros o u Ho Hk Hu Eu Hne.
    destruct (H3 o u Ho) as [ow [Hin E]];
      [unfold keep; apply Z.eqb_eq; exact Hk | exact Hu | congruence | exact Hne |].
    exists ow. split; [apply (Permutation_in _ (Permutation_sym Hp)); exact Hin | exact E].
Qed.

Lemma getAllOrders_groups_witness :
  NoDup (map o_id (orders store_rep)) /\ NoDup (map u_id (users store_rep))
  /\ (forall l : list OrderRow, Permutation (rev l) l)
  /\ NoDup (map (fun ow => o_id (ow_order ow)) (getAllOrders (@rev OrderRow) store_rep (Some Pending)))
  /\ (forall ow, In ow (getAllOrders (@rev OrderRow) store_rep (Some Pending)) ->
        In (ow_order ow) (orders store_rep)
        /\ (forall st, Some Pending = Some st -> o_status (ow_order ow) = st)
        /\ In (ow_user ow) (users store_rep) /\ u_id (ow_user ow) = o_user_id (ow_order ow)
        /\ ow_items ow <> []
        /\ Permutation (ow_items ow) (order_items_of store_rep (ow_order ow)))
  /\ (forall o u, In o (orders store_rep) -> (forall st, Some Pending = Some st -> o_status o = st) ->
        In u (users store_rep) -> u_id u = o_user_id o -> order_items_of store_rep o <> [] ->
        exists ow, In ow (getAllOrders (@rev OrderRow) store_rep (Some Pending)) /\ ow_order ow = o).
Proof.
  assert (H1 : NoDup (map o_id (orders store_rep)))
    by (simpl; repeat constructor; simpl; intuition discriminate).
  assert (H2 : NoDup (map u_id (users store_rep))) by (simpl; repeat constructor; simpl; tauto).
  assert (H3 : forall l : list OrderRow, Permutation (rev l) l)
    by (intros l; apply Permutation_sym, Permutation_rev).
  split; [exact H1 | split; [exact H2 | split; [exact H3|]]].
  exact (getAllOrders_groups store_rep (Some Pending) (@rev OrderRow) H1 H2 H3).
Defined.

Lemma getUserOrders_groups_witness :
  NoDup (map o_id (orders store_rep)) /\ NoDup (map u_id (users store_rep))
  /\ (forall l : list OrderRow, Permutation (rev l) l)
  /\ NoDup (map (fun ow => o_id (ow_order ow)) (getUserOrders (@rev OrderRow) o_id store_rep 1))
  /\ sorted_by_date_desc o_id (getUserOrders (@rev OrderRow) o_id store_rep 1)
  /\ (forall ow, In ow (getUserOrders (@rev OrderRow) o_id store_rep 1) ->
        In (ow_order ow) (orders store_rep) /\ o_user_id (ow_order ow) = 1
        /\ In (ow_user ow) (users store_rep) /\ u_id (ow_user ow) = 1
        /\ ow_items ow <> []
        /\ Permutation (ow_items ow) (order_items_of store_rep (ow_order ow)))
  /\ (forall o u, In o (orders store_rep) -> o_user_id o = 1 ->
        In u (users store_rep) -> u_id u = 1 -> order_items_of store_rep o <> [] ->
        exists ow, In ow (getUserOrders (@rev OrderRow) o_id store_rep 1) /\ ow_order ow = o).
Proof.
  assert (H1 : NoDup (map o_id (orders store_rep)))
    by (simpl; repeat constructor; simpl; intuition discriminate).
  assert (H2 : NoDup (map u_id (users store_rep))) by (simpl; repeat constructor; simpl; tauto).
  assert (H3 : forall l : list OrderRow, Permutation (rev l) l)
    by (intros l; apply Permutation_sym, Permutation_rev).
  split; [exact H1 | split; [exact H2 | split; [exact H3|]]].
  exact (getUserOrders_groups store_rep (@rev OrderRow) o_id 1 H1 H2 H3).
Defined.

(** ** Department reports *)

Lemma NoDup_snoc_notin {A} (l : list A) (x : A) : NoDup (l ++ [x]) -> ~ In x l.
Proof.
  intros Hd Hin. apply (NoDup_remove_2 l [] x Hd). rewrite app_nil_r. exact Hin.
Qed.

Lemma dmap_set_new m k v : ~ In k (map fst m) -> dmap_set m k v = m ++ [(k, v)].
Proof.
  induction m as [|[k' v'] m IH]; intros H; simpl; [reflexivity|].
  destruct (String.eqb k' k) eqn:E.
  - apply String.eqb_eq in E. exfalso. apply H. left. exact E.
  - rewrite IH; [reflexivity|]. intros Hk. apply H. right. exact Hk.
Qed.

Lemma report_of_keys q L : map fst (map (report_of q) L) = map dkey L.
Proof. rewrite map_map. apply map_ext. intros [[d c] a]. reflexivity. Qed.

Lemma fold_order_results (f : list (string * DepartmentReport) -> string * Z * Z
                               -> list (string * DepartmentReport)) L :
  (forall m d c a, f m (d, c, a) = dmap_set m d (mkDepartmentReport d c 0 a)) ->
  NoDup (map dkey L) -> fold_left f L [] = map (report_of []) L.
Proof.
  intros Hf. induction L as [|x L IH] using rev_ind; intros Hd; [reflexivity|].
  rewrite map_app in Hd. rewrite fold_left_app, IH by exact (NoDup_app_remove_r _ _ Hd).
  destruct x as [[d c] a]. simpl. rewrite Hf, dmap_set_new, map_app; [reflexivity|].
  rewrite report_of_keys. exact (NoDup_snoc_notin _ _ Hd).
Qed.

Lemma dmap_get_reports P L k :
  NoDup (map dkey L) ->
  dmap_get (map (report_of P) L) k
  = option_map (fun r => snd (report_of P r)) (find (fun r => String.eqb (dkey r) k) L).
Proof.
  induction L as [|[[d c] a] L IH]; intros Hd; simpl; [reflexivity|].
  simpl in Hd. apply NoDup_cons_iff in Hd. destruct Hd as [_ Hd].
  unfold dkey at 1. simpl. destruct (String.eqb d k); [reflexivity | exact (IH Hd)].
Qed.

Lemma dmap_set_reports P L k v :
  NoDup (map dkey L) ->
  dmap_set (map (report_of P) L) k v
  = if existsb (fun r => String.eqb (dkey r) k) L
    then map (fun r => if String.eqb (dkey r) k then (dkey r, v) else report_of P r) L
    else map (report_of P) L ++ [(k, v)].
Proof.
  induction L as [|[[d c] a] L IH]; intros Hd; simpl; [reflexivity|].
  simpl in Hd. apply NoDup_cons_iff in Hd. destruct Hd as [Hn Hd].
  change (dkey (d, c, a)) with d. destruct (String.eqb d k) eqn:E; simpl.
  - apply String.eqb_eq in E. subst k. f_equal. symmetry. apply map_ext_in.
    intros r Hr. replace (String.eqb (dkey r) d) with false; [reflexivity|].
    symmetry. apply String.eqb_neq. intros E. apply Hn. change (In d (map dkey L)).
    rewrite <- E. apply in_map. exact Hr.
  - rewrite IH by exact Hd. destruct (existsb (fun r => String.eqb (dkey r) k) L); reflexivity.
Qed.

Lemma qty_of_snoc P k q d :
  ~ In k (map fst P) ->
  qty_of (P ++ [(k, q)]) d = if String.eqb k d then q else qty_of P d.
Proof.
  intros Hk. unfold qty_of. rewrite find_app.
  destruct (find (fun x => String.eqb (fst x) d) P) as [x|] eqn:F.
  - apply find_some in F. destruct F as [Hx E]. apply String.eqb_eq in E.
    destruct (String.eqb k d) eqn:E'; [|reflexivity].
    apply String.eqb_eq in E'. exfalso. apply Hk. rewrite E', <- E. apply in_map. exact Hx.
  - simpl. destruct (String.eqb k d); reflexivity.
Qed.

Lemma fold_quantity_results (g : list (string * DepartmentReport) -> string * Z
                                  -> list (string * DepartmentReport)) L Q :
  (forall m d q, g m (d, q) =
     match dmap_get m d with
     | Some e => dmap_set m d (mkDepartmentReport (dr_department e) (dr_total_orders e) q
                                 (dr_total_amount e))
     | None => m
     end) ->
  NoDup (map dkey L) -> NoDup (map fst Q) ->
  fold_left g Q (map (report_of []) L) = map (report_of Q) L.
Proof.
  intros Hg HL. induction Q as [|[k q] Q IH] using rev_ind; intros HQ; [reflexivity|].
  rewrite map_app in HQ. simpl in HQ.
  assert (Hk : ~ In k (map fst Q)).
  { exact (NoDup_snoc_notin _ _ HQ). }
  rewrite fold_left_app, IH by exact (NoDup_app_remove_r _ _ HQ). simpl. rewrite Hg.
  rewrite dmap_get_reports by exact HL.
  destruct (find (fun r => String.eqb (dkey r) k) L) as [r|] eqn:F; simpl.
  - pose proof F as Fs. apply find_some in Fs. destruct Fs as [Hr Er]. apply String.eqb_eq in Er.
    rewrite dmap_set_reports by exact HL.
    replace (existsb (fun r0 => String.eqb (dkey r0) k) L) with true
      by (symmetry; apply existsb_exists; exists r; split; [exact Hr | apply String.eqb_eq; exact Er]).
    apply map_ext_in. intros r' Hr'.
    destruct (String.eqb (dkey r') k) eqn:E'.
    + apply String.eqb_eq in E'.
      assert (r' = r) as -> by (apply (NoDup_map_inj dkey L); auto; congruence).
      destruct r as [[d c] a]. unfold dkey in Er. simpl in Er. subst d. simpl.
      rewrite qty_of_snoc by exact Hk. rewrite String.eqb_refl. reflexivity.
    + destruct r' as [[d c] a]. apply String.eqb_neq in E'. simpl.
      rewrite qty_of_snoc by exact Hk. destruct (String.eqb k d) eqn:E2; [|reflexivity].
      apply String.eqb_eq in E2. exfalso. apply E'. symmetry. exact E2.
  - apply map_ext_in. intros [[d c] a] Hr'. simpl.
    rewrite qty_of_snoc by exact Hk.
    destruct (String.eqb k d) eqn:E; [|reflexivity].
    apply String.eqb_eq in E. subst d. apply (find_none _ _ F) in Hr'.
    unfold dkey in Hr'. simpl in Hr'. rewrite String.eqb_refl in Hr'. discriminate.
Qed.

Lemma qty_of_in Q d q : NoDup (map fst Q) -> In (d, q) Q -> qty_of Q d = q.
Proof.
  intros Hd Hin. unfold qty_of.
  destruct (find (fun x => String.eqb (fst x) d) Q) as [x|] eqn:F.
  - apply find_some in F. destruct F as [Hx E]. apply String.eqb_eq in E.
    assert (x = (d, q)) as -> by (apply (NoDup_map_inj fst Q); auto).
    reflexivity.
  - apply (find_none _ _ F) in Hin. simpl in Hin. rewrite String.eqb_refl in Hin. discriminate.
Qed.

Lemma qty_of_out Q d : (forall q, ~ In (d, q) Q) -> qty_of Q d = 0.
Proof.
  intros H. unfold qty_of.
  destruct (find (fun x => String.eqb (fst x) d) Q) as [[d' q]|] eqn:F; [|reflexivity].
  apply find_some in F. destruct F as [Hx E]. apply String.eqb_eq in E. simpl in E. subst d'.
  exfalso. exact (H q Hx).
Qed.

Lemma filter_key_cases {A} (key : A -> Z) (l : list A) (k : Z) :
  NoDup (map key l) ->
  filter (fun y => k =? key y) l = []
  \/ exists x, In x l /\ key x = k /\ filter (fun y => k =? key y) l = [x].
Proof.
  intros Hd. destruct (filter (fun y => k =? key y) l) as [|x rest] eqn:F; [left; reflexivity|].
  right. assert (Hx : In x (filter (fun y => k =? key y) l)) by (rewrite F; left; reflexivity).
  apply filter_In in Hx. destruct Hx as [Hx E]. apply Z.eqb_eq in E.
  exists x. split; [exact Hx|]. split; [symmetry; exact E|].
  rewrite <- F, <- (filter_unique_key key l x Hd Hx). apply filter_ext. intros y.
  rewrite E, Z.eqb_sym. reflexivity.
Qed.

Lemma dept_orders_rows s d :
  NoDup (map u_id (users s)) ->
  map snd (rows_of_dept d (order_user_rows s)) = dept_orders s d.
Proof.
  intros Hu. unfold rows_of_dept, order_user_rows, dept_orders, order_department.
  induction (orders s) as [|o os IH]; [reflexivity|].
  cbn [flat_map]. rewrite filter_app, map_app, IH. cbn [filter].
  destruct (filter_key_cases u_id (users s) (o_user_id o) Hu) as [F | [u [_ [_ F]]]];
    rewrite F; cbn [map filter in_dept fst snd app]; [reflexivity|].
  destruct (String.eqb (u_department u) d); reflexivity.
Qed.

Lemma dept_items_rows s d :
  NoDup (map u_id (users s)) -> NoDup (map o_id (orders s)) ->
  map snd (rows_of_dept d (item_order_user_rows s)) = dept_items s d.
Proof.
  intros Hu Ho. unfold rows_of_dept, item_order_user_rows, dept_items, item_department,
    order_department.
  induction (order_items s) as [|oi ois IH]; [reflexivity|].
  cbn [flat_map]. rewrite filter_app, map_app, IH. cbn [filter].
  destruct (filter_key_cases o_id (orders s) (oi_order_id oi) Ho) as [F | [o [_ [_ F]]]];
    rewrite F; cbn [flat_map map filter in_dept fst snd app]; [reflexivity|].
  rewrite app_nil_r.
  destruct (filter_key_cases u_id (users s) (o_user_id o) Hu) as [G | [u [_ [_ G]]]];
    rewrite G; cbn [map filter in_dept fst snd app]; [reflexivity|].
  destruct (String.eqb (u_department u) d); reflexivity.
Qed.

Lemma rows_of_dept_nil {A} d (rows : list (string * A)) :
  rows_of_dept d rows = [] <-> ~ In d (map fst rows).
Proof.
  unfold rows_of_dept. split.
  - intros H Hin. apply in_map_iff in Hin. destruct Hin as [r [Er Hr]].
    assert (Hf : In r (filter (fun r => String.eqb (fst r) d) rows))
      by (apply filter_In; split; [exact Hr | apply String.eqb_eq; exact Er]).
    rewrite H in Hf. destruct Hf.
  - intros H. apply filter_none_id_nil. intros r Hr. apply String.eqb_neq.
    intros Er. apply H. rewrite <- Er. apply in_map. exact Hr.
Qed.

Lemma order_results_keys s : map dkey (orderResults s) = nodup string_dec (map fst (order_user_rows s)).
Proof. unfold orderResults. rewrite map_map. apply map_id. Qed.

Lemma quantity_results_keys s :
  map fst (quantityResults s) = nodup string_dec (map fst (item_order_user_rows s)).
Proof. unfold quantityResults. rewrite map_map. apply map_id. Qed.

Lemma NoDup_arranged {A B} (key : A -> B) (arrange : list A -> list A) (l : list A) :
  (forall l, Permutation (arrange l) l) -> NoDup (map key l) -> NoDup (map key (arrange l)).
Proof.
  intros Ha Hd. apply (Permutation_NoDup (l := map key l)); [|exact Hd].
  apply Permutation_map. apply Permutation_sym. apply Ha.
Qed.

Lemma getDepartmentReports_eq arrange1 arrange2 s :
  (forall l, Permutation (arrange1 l) l) -> (forall l, Permutation (arrange2 l) l) ->
  getDepartmentReports arrange1 arrange2 s
  = map snd (map (report_of (arrange2 (quantityResults s))) (arrange1 (orderResults s))).
Proof.
  intros H1 H2.
  assert (HL : NoDup (map dkey (arrange1 (orderResults s)))).
  { apply NoDup_arranged; [exact H1|]. rewrite order_results_keys. apply NoDup_nodup. }
  assert (HQ : NoDup (map fst (arrange2 (quantityResults s)))).
  { apply NoDup_arranged; [exact H2|]. rewrite quantity_results_keys. apply NoDup_nodup. }
  unfold getDepartmentReports. cbv zeta.
  rewrite (fold_order_results _ (arrange1 (orderResults s))); [| intros; reflexivity | exact HL].
  rewrite (fold_quantity_results _ (arrange1 (orderResults s)) (arrange2 (quantityResults s)));
    [reflexivity | intros; reflexivity | exact HL | exact HQ].
Qed.

Lemma qty_of_quantity_results arrange2 s d :
  (forall l, Permutation (arrange2 l) l) ->
  qty_of (arrange2 (quantityResults s)) d
  = sumZ (map (fun r => oi_quantity (snd r)) (rows_of_dept d (item_order_user_rows s))).
Proof.
  intros H2.
  assert (HQ : NoDup (map fst (arrange2 (quantityResults s)))).
  { apply NoDup_arranged; [exact H2|]. rewrite quantity_results_keys. apply NoDup_nodup. }
  destruct (in_dec string_dec d (map fst (item_order_user_rows s))) as [Hin|Hout].
  - apply qty_of_in; [exact HQ|].
    apply (Permutation_in _ (Permutation_sym (H2 _))). unfold quantityResults.
    apply (in_map (fun d => (d, sumZ (map (fun r => oi_quantity (snd r))
                                    (rows_of_dept d (item_order_user_rows s)))))).
    apply nodup_In. exact Hin.
  - pose proof Hout as Hnil. apply rows_of_dept_nil in Hnil. rewrite Hnil.
    apply qty_of_out. intros q Hq. apply (Permutation_in _ (H2 _)) in Hq.
    unfold quantityResults in Hq. apply in_map_iff in Hq. destruct Hq as [d' [E Hd']].
    injection E as E _. subst d'. apply nodup_In in Hd'. exact (Hout Hd').
Qed.

(** [getDepartmentReports] gives one report per department that has
    at least one order of one of its users, and no other; the report's order
    count and amount are those of the department's orders, and its quantity
    is the sum of the quantities of the items of those orders (0 when the
    second query has no group for it).  User and order ids are keys; the
    rows of each query may come back in any order. *)
Theorem getDepartmentReports_totals s arrange1 arrange2 :
  NoDup (map u_id (users s)) -> NoDup (map o_id (orders s)) ->
  (forall l, Permutation (arrange1 l) l) -> (forall l, Permutation (arrange2 l) l) ->
  NoDup (map dr_department (getDepartmentReports arrange1 arrange2 s))
  /\ (forall d, In d (map dr_department (getDepartmentReports arrange1 arrange2 s))
                <-> dept_orders s d <> [])
  /\ (forall r, In r (getDepartmentReports arrange1 arrange2 s) ->
        dr_total_orders r = Z.of_nat (length (dept_orders s (dr_department r)))
        /\ dr_total_amount r = sumZ (map o_total_amount (dept_orders s (dr_department r)))
        /\ dr_total_quantity r = sumZ (map oi_quantity (dept_items s (dr_department r)))).
Proof.
  intros Hu Ho H1 H2. rewrite getDepartmentReports_eq by assumption.
  assert (Hk : map dr_department (map snd (map (report_of (arrange2 (quantityResults s)))
                                             (arrange1 (orderResults s))))
               = map dkey (arrange1 (orderResults s))).
  { rewrite !map_map. apply map_ext. intros [[d c] a]. reflexivity. }
  split; [|split].
  - rewrite Hk. apply NoDup_arranged; [exact H1|]. rewrite order_results_keys. apply NoDup_nodup.
  - intros d. rewrite Hk, <- dept_orders_rows by exact Hu. split.
    + intros Hin. apply (Permutation_in _ (Permutation_map dkey (H1 _))) in Hin.
      rewrite order_results_keys in Hin. apply nodup_In in Hin.
      intros E. apply map_eq_nil in E. apply rows_of_dept_nil in E. exact (E Hin).
    + intros Hne. apply (Permutation_in _ (Permutation_sym (Permutation_map dkey (H1 _)))).
      rewrite order_results_keys. apply nodup_In.
      destruct (in_dec string_dec d (map fst (order_user_rows s))) as [Hin|Hout]; [exact Hin|].
      apply rows_of_dept_nil in Hout. rewrite Hout in Hne. exfalso. apply Hne. reflexivity.
  - intros r Hr. rewrite map_map in Hr. apply in_map_iff in Hr.
    destruct Hr as [[[d c] a] [Er Hx]]. subst r. cbn [report_of snd dr_department
      dr_total_orders dr_total_amount dr_total_quantity].
    apply (Permutation_in _ (H1 _)) in Hx. unfold orderResults in Hx.
    apply in_map_iff in Hx. destruct Hx as [d' [E _]]. injection E as Ed Ec Ea. subst d' c a.
    rewrite <- dept_orders_rows, <- dept_items_rows, qty_of_quantity_results by assumption.
    rewrite length_map, !map_map. split; [reflexivity | split; reflexivity].
Qed.

Lemma getDepartmentReports_totals_witness :
  (NoDup (map u_id (users store_dept)) /\ NoDup (map o_id (orders store_dept)))
  /\ getDepartmentReports (@rev (string * Z * Z)) (@rev (string * Z)) store_dept
     = [mkDepartmentReport "HR" 2 2 4149; mkDepartmentReport "IT" 1 3 6748]
  /\ NoDup (map dr_department
       (getDepartmentReports (@rev (string * Z * Z)) (@rev (string * Z)) store_dept)).
Proof.
  split; [split; vm_compute; repeat constructor; simpl; intuition discriminate|].
  split; [vm_compute; reflexivity|].
  apply (getDepartmentReports_totals store_dept (@rev (string * Z * Z)) (@rev (string * Z)));
    [vm_compute; repeat constructor; simpl; intuition discriminate
    |vm_compute; repeat constructor; simpl; intuition discriminate
    |intros l; apply Permutation_sym, Permutation_rev
    |intros l; apply Permutation_sym, Permutation_rev].
Defined.
